(** * A shallow embedding of the self-correcting code-generation pipeline

    The development follows the Python sources:
    - [llm_handler.py]   : the model gateway ([call_llm], [truncate_prompt]);
    - [tool_executor.py] : the tool dispatcher ([execute_tool]);
    - [orchestrator.py]  : the pipeline controller ([process_request] and the
      execution-correction loop);
    - [main.py]          : the HTTP endpoint ([analyze_data]);
    - [tools/web_scraper.py] and [tools/data_inspector.py] : text cleaning,
      the structure summary, column categories and the entry point of the
      inspector.

    Conventions of the model.
    - A Python [str] is a [string]: a sequence of characters, each character
      a code point below 256.  A Python [int] is a [Z].
    - A Python call is a computation in the monad [M]: it runs from a state
      of the outside world, ends with a value or with an exception, and
      produces a trace of events.  The exceptions are those of class
      [Exception], the ones an [except Exception] clause catches.
    - The collaborators (the model library, the timed wait of the
      operating system, the prompt files, the [json] and [string.Template]
      functions, the data connectors and the execution engine) are the
      fields of a record [Env]; every general property holds for every
      [Env].
    - Logging is not modelled, except for the three log lines of the
      correction loop, which carry the attempt counter.
    - The messages of the built-in exceptions and the limits of the
      interpreter (the digits of an integer literal, the longest sleep) are
      those of CPython 3.11.
    - Every definition keeps the name of the Python function it embeds. *)

From Stdlib Require Import ZArith String Ascii List Lia Bool DecimalString.
From stdpp Require Import gmap strings.
Import ListNotations.

Open Scope string_scope.
Open Scope Z_scope.

Set Warnings "-register-all".

(** String concatenation unfolds on a constructor, as a list append does. *)
Arguments append !s1 s2 : simpl nomatch.

(* ===================================================================== *)
(** * Part I. Definitions                                                 *)
(* ===================================================================== *)

(** ** Python text primitives *)

(** [len(s)] as a Python integer. *)
Definition len (s : string) : Z := Z.of_nat (String.length s).

(** The first [n] characters of [s], and [s] without them. *)
Fixpoint take (n : nat) (s : string) : string :=
  match n, s with
  | O, _ => ""
  | S _, "" => ""
  | S n', String c s' => String c (take n' s')
  end.

Fixpoint drop (n : nat) (s : string) : string :=
  match n, s with
  | O, _ => s
  | S _, "" => ""
  | S n', String _ s' => drop n' s'
  end.

(** A slice bound [k] is clamped the way Python does it: a negative bound
    counts from the end, and every bound is brought back into [0, len]. *)
Definition slice_bound (n k : Z) : nat :=
  Z.to_nat (if k <? 0 then Z.max 0 (n + k) else Z.min k n).

(** [s[:k]] and [s[k:]]. *)
Definition slice_to (s : string) (k : Z) : string :=
  take (slice_bound (len s) k) s.

Definition slice_from (s : string) (k : Z) : string :=
  drop (slice_bound (len s) k) s.

(** [str.isspace] on one character of the modelled range: TAB..CR, the
    separators FS..US, the space, NEL and the no-break space. *)
Definition isspace (c : ascii) : bool :=
  let n := nat_of_ascii c in
  ((9 <=? n) && (n <=? 13) || (28 <=? n) && (n <=? 32)
   || (n =? 133) || (n =? 160))%nat.

(** [str.lower] on one character of the modelled range: the letters A..Z
    and the accented capitals 192..222 (the multiplication sign 215 apart)
    move 32 places up. *)
Definition lower_char (c : ascii) : ascii :=
  let n := nat_of_ascii c in
  if ((65 <=? n) && (n <=? 90)
      || (192 <=? n) && (n <=? 222) && negb (n =? 215))%nat
  then ascii_of_nat (n + 32) else c.

Fixpoint lower (s : string) : string :=
  match s with
  | "" => ""
  | String c s' => String (lower_char c) (lower s')
  end.

(** [s.lstrip()], [s.rstrip()] and [s.strip()] with the default character
    set (white space). *)
Fixpoint lstrip (s : string) : string :=
  match s with
  | "" => ""
  | String c s' => if isspace c then lstrip s' else s
  end.

Fixpoint rstrip (s : string) : string :=
  match s with
  | "" => ""
  | String c s' =>
      match rstrip s' with
      | "" => if isspace c then "" else String c ""
      | r => String c r
      end
  end.

Definition strip (s : string) : string := rstrip (lstrip s).

(** [sub in s]. *)
Fixpoint contains (sub s : string) : bool :=
  String.prefix sub s ||
  match s with
  | "" => false
  | String _ s' => contains sub s'
  end.

(** Truth value of a string: [bool(s)]. *)
Definition nonempty (s : string) : bool :=
  match s with "" => false | _ => true end.

Definition newline : string := String "010"%char "".

(** ** llm_handler.py: prompt budgeting *)

(** The literal that [truncate_prompt] inserts. *)
Definition TRUNCATION_MARKER : string :=
  newline +:+ newline +:+ "... [TRUNCATED FOR LENGTH] ..." +:+ newline +:+ newline.

(** The marker as the specification spells it. *)
Definition SPEC_MARKER : string := "...[TRUNCATED FOR LENGTH]...".

Definition estimate_tokens (text : string) : Z := len text / 4.

Definition truncate_prompt (prompt : string) (max_context_tokens : Z) : string :=
  let estimated_tokens := estimate_tokens prompt in
  if estimated_tokens <=? max_context_tokens then prompt
  else
    let target_length := max_context_tokens * 4 in
    if len prompt <=? target_length then prompt
    else
      let keep_start := target_length / 2 in
      let keep_end := target_length / 2 in
      slice_to prompt keep_start +:+ TRUNCATION_MARKER +:+
      slice_from prompt (- keep_end).

(** ** orchestrator.py: source classification *)

Inductive DataSourceType := SrcUrl | SrcFile | SrcUrlInText | SrcTextOnly.

(** The strings the Python code uses for the four source types. *)
Definition source_type_name (t : DataSourceType) : string :=
  match t with
  | SrcUrl => "url"
  | SrcFile => "file"
  | SrcUrlInText => "url_in_text"
  | SrcTextOnly => "text_only"
  end.

(** An uploaded file: [{"filename": ..., "content": ...}]. *)
Record file_info := { filename : string; content : list Byte.byte }.

Definition _analyze_data_source (questions : string) (data_files : list file_info)
    (data_url : string) : DataSourceType :=
  if nonempty data_url && nonempty (strip data_url) then SrcUrl
  else if negb (Nat.eqb (List.length data_files) 0) then SrcFile
  else if contains "http" (lower questions) || contains "www." (lower questions)
       then SrcUrlInText
  else SrcTextOnly.

(** The priority chain in the specification's words: the first test is
    "[data_url] is non-empty". *)
Definition classify_as_specified (questions : string) (data_files : list file_info)
    (data_url : string) : DataSourceType :=
  if nonempty data_url then SrcUrl
  else if negb (Nat.eqb (List.length data_files) 0) then SrcFile
  else if contains "http" (lower questions) || contains "www." (lower questions)
       then SrcUrlInText
  else SrcTextOnly.

(** Some character of [s] is not white space. *)
Fixpoint has_visible_char (s : string) : bool :=
  match s with
  | "" => false
  | String c s' => negb (isspace c) || has_visible_char s'
  end.

(** ** Python values, exceptions and effects *)

(** The values that cross the controller's interfaces: tool parameters,
    tool results, decoded JSON.  A [VFloat] keeps the literal it was read
    from; a [VDict] keeps its items in insertion order. *)
Inductive value :=
  | VNone
  | VBool (b : bool)
  | VInt (n : Z)
  | VFloat (literal : string)
  | VStr (s : string)
  | VBytes (b : list Byte.byte)
  | VList (items : list value)
  | VDict (items : list (string * value)).

(** [type(v).__name__]. *)
Definition type_name (v : value) : string :=
  match v with
  | VNone => "NoneType"
  | VBool _ => "bool"
  | VInt _ => "int"
  | VFloat _ => "float"
  | VStr _ => "str"
  | VBytes _ => "bytes"
  | VList _ => "list"
  | VDict _ => "dict"
  end.

(** [d.get(key)] on the items of a dictionary. *)
Fixpoint items_get (items : list (string * value)) (key : string) : option value :=
  match items with
  | [] => None
  | (k, v) :: rest => if String.eqb k key then Some v else items_get rest key
  end.

(** The exceptions of class [Exception] that the code raises or meets.
    [ValueError] is the class itself, and [OtherError] stands for any
    further class a collaborator may raise, one that derives from none of
    the classes named here. *)
Inductive exn :=
  | ValueError (msg : string)
  | KeyError (key : string)
  | AttributeError (msg : string)
  | TypeError (msg : string)
  | FileNotFoundError (msg : string)
  | RecursionError (msg : string)
  | OverflowError (msg : string)
  | PlainException (msg : string)
  | OtherError (class msg : string).

(** [str(e)]: the message; a [KeyError] prints the [repr] of its key. *)
Definition str_exn (e : exn) : string :=
  match e with
  | ValueError m | AttributeError m | TypeError m
  | FileNotFoundError m | RecursionError m | OverflowError m
  | PlainException m | OtherError _ m => m
  | KeyError k => "'" +:+ k +:+ "'"
  end.

(** [isinstance(e, ValueError)], the test of an [except ValueError]
    clause. *)
Definition is_value_error (e : exn) : bool :=
  match e with ValueError _ => true | _ => false end.

(** How [json.loads] ends on a text: with the decoded value, with
    [JSONDecodeError] (a subclass of [ValueError]; the code never reads its
    message), or with an exception of another class: a [ValueError] for an
    integer literal of more than 4300 digits, a [RecursionError] for arrays
    and objects nested deeper than the stack of the interpreter allows. *)
Inductive loaded :=
  | Loaded (v : value)
  | JSONDecodeError
  | LoadRaises (e : exn).

(** What a reply object of the model library offers to [call_llm]: the
    [text] attribute ([None] when absent or empty-valued) and, for each
    candidate, the texts of its content parts. *)
Record response := {
  text : option string;
  candidates : list (list (option string))
}.

(** [{valid, error?}]: the answer of the syntax check, read with
    [.get("valid", False)] and [.get("error", default)].  [valid = false]
    also stands for a dictionary without the ["valid"] key, and
    [syntax_error = None] for one without the ["error"] key. *)
Record SyntaxCheck := {
  valid : bool;
  syntax_error : option string
}.

(** [{success, output, error?}]: an execution result, read with
    [result["success"]], [result["output"]] and [result["error"]].
    [error = None] stands for a dictionary without the ["error"] key, on
    which the last subscript raises [KeyError]. *)
Record ExecutionResult := {
  success : bool;
  output : string;
  error : option string
}.

(** The steps of a request that the properties speak of, in the order they
    happen: a call of the model library with the way it ended, a sleep
    (a wait that the operating system granted), the
    reading of a prompt file, the calls of the three data connectors and of
    the three operations of the execution engine, the entry into
    [_correct_code], and the log line that follows each increment of the
    attempt counter, with the value of the counter. *)
Inductive event :=
  | EvModelCall (system_message : option string) (prompt : string)
                (outcome : exn + response)
  | EvSleep (seconds : Z)
  | EvReadTemplate (name : string)
  | EvScrape (url : value)
  | EvInspect (data source_type : value)
  | EvReadData (filename data : value)
  | EvPrepare (code : string)
  | EvValidate (code : string)
  | EvExecute (code : string)
  | EvCorrect (faulty_code error_message : string)
  | EvAttemptFailed (attempt : Z) (reason : string).

(** How a Python call ends: with a value, with an exception, or, for the
    model of a [while] loop, without an answer when the fuel runs out. *)
Inductive outcome (A : Type) :=
  | Ret (a : A)
  | Raise (e : exn)
  | OutOfFuel.
Arguments Ret {A} a.
Arguments Raise {A} e.
Arguments OutOfFuel {A}.

(** A computation over the state [W] of the outside world: it returns its
    outcome, the new state and the events it produced. *)
Definition M (W A : Type) : Type := W -> outcome A * W * list event.

Definition ret {W A} (a : A) : M W A := fun w => (Ret a, w, []).

Definition raise {W A} (e : exn) : M W A := fun w => (Raise e, w, []).

Definition out_of_fuel {W A} : M W A := fun w => (OutOfFuel, w, []).

Definition emit {W} (ev : event) : M W unit := fun w => (Ret tt, w, [ev]).

Definition bind {W A B} (m : M W A) (k : A -> M W B) : M W B :=
  fun w =>
    match m w with
    | (Ret a, w1, t1) =>
        match k a w1 with (r, w2, t2) => (r, w2, (t1 ++ t2)%list) end
    | (Raise e, w1, t1) => (Raise e, w1, t1)
    | (OutOfFuel, w1, t1) => (OutOfFuel, w1, t1)
    end.

(** [try: m  except Exception as e: h e]. *)
Definition try_except {W A} (m : M W A) (h : exn -> M W A) : M W A :=
  fun w =>
    match m w with
    | (Raise e, w1, t1) =>
        match h e w1 with (r, w2, t2) => (r, w2, (t1 ++ t2)%list) end
    | other => other
    end.

(** Runs [m] inside a [try] and hands the exception, if any, to the code
    that follows as a value. *)
Definition catching {W A} (m : M W A) : M W (exn + A) :=
  fun w =>
    match m w with
    | (Ret a, w1, t1) => (Ret (inr a), w1, t1)
    | (Raise e, w1, t1) => (Ret (inl e), w1, t1)
    | (OutOfFuel, w1, t1) => (OutOfFuel, w1, t1)
    end.

(** A call to a collaborator that may raise, recorded as the event [ev]. *)
Definition call {W A} (ev : event) (f : W -> (exn + A) * W) : M W A :=
  fun w =>
    match f w with
    | (inr a, w1) => (Ret a, w1, [ev])
    | (inl e, w1) => (Raise e, w1, [ev])
    end.

(** A call to a collaborator that catches every exception itself. *)
Definition call_total {W A} (ev : event) (f : W -> A * W) : M W A :=
  fun w => match f w with (a, w1) => (Ret a, w1, [ev]) end.

Declare Scope py_scope.
Delimit Scope py_scope with py.
Notation "x <- m ;; k" := (bind m (fun x => k))
  (at level 100, m at next level, right associativity) : py_scope.
Notation "m ;;; k" := (bind m (fun _ => k))
  (at level 100, right associativity) : py_scope.
Open Scope py_scope.

(** ** The collaborators

    Everything the three modules reach outside themselves.  Effectful
    collaborators act on the state [W]; library functions are pure.
    - [generate_content system_message prompt]: building the model object
      of the model library and asking it for a completion;
    - [os_wait seconds]: the timed wait of the operating system, to which
      [time.sleep] hands a duration it accepts; the wait fails with an
      [OSError] when its deadline lies beyond the range of the clock, as it
      does on Linux for a duration close to 2^63 nanoseconds;
    - [read_template_file path]: [open(path).read()];
    - [safe_substitute template bindings]: the method [safe_substitute] of
      [Template(template)], given the bindings as keyword arguments;
    - [json_loads]: [json.loads] on a text;
    - [json_dumps_indent]: [json.dumps(v, indent=2)], and
      [json_dumps_default_str]: [json.dumps(v, default=str)]; both raise on
      a value they cannot serialise;
    - [scrape_url], [inspect_data]: the data connectors behind the
      dispatcher; each of them catches every exception of its own and
      answers with a dictionary;
    - [process_file filename content]: the [try] statement of
      [_process_file_content], which reads the content of a file by the
      extension of its name, catches every exception and answers with a
      dictionary;
    - [prepare_code], [validate_code_syntax], [execute_code]: the three
      operations of the execution engine [code_executor]. *)
Record Env (W : Type) := {
  generate_content :
    option string -> string -> W -> (exn + response) * W;
  os_wait : Z -> W -> (exn + unit) * W;
  read_template_file : string -> W -> (exn + string) * W;
  safe_substitute : string -> list (string * string) -> string;
  json_loads : string -> loaded;
  json_dumps_indent : value -> exn + string;
  json_dumps_default_str : value -> exn + string;
  scrape_url : value -> W -> value * W;
  inspect_data : value -> value -> W -> value * W;
  process_file : value -> value -> W -> value * W;
  prepare_code : string -> W -> (exn + string) * W;
  validate_code_syntax : string -> W -> (exn + SyntaxCheck) * W;
  execute_code : string -> W -> (exn + ExecutionResult) * W
}.
Arguments generate_content {W} _ _ _ _.
Arguments os_wait {W} _ _ _.
Arguments read_template_file {W} _ _ _.
Arguments safe_substitute {W} _ _ _.
Arguments json_loads {W} _ _.
Arguments json_dumps_indent {W} _ _.
Arguments json_dumps_default_str {W} _ _.
Arguments scrape_url {W} _ _ _.
Arguments inspect_data {W} _ _ _ _.
Arguments process_file {W} _ _ _ _.
Arguments prepare_code {W} _ _ _.
Arguments validate_code_syntax {W} _ _ _.
Arguments execute_code {W} _ _ _.

(** ** llm_handler.py: the model gateway *)

(** The configuration read by [LLMHandler.__init__].  The model name, the
    output limit and the temperature are handed to the model library as
    they are and belong to the collaborator [generate_content]. *)
Record LLMHandler := {
  api_key : option string;
  max_retries : Z;
  retry_delay : Z
}.

(** Truth value of an optional string: [None] and [""] are false. *)
Definition truthy_opt (o : option string) : bool :=
  match o with Some s => nonempty s | None => false end.

(** The reply text: [response.text] when it is there, else the text of the
    first part of the first candidate, else the empty string; stripped. *)
Definition response_text (r : response) : string :=
  let result_text :=
    if negb (truthy_opt (text r)) && negb (Nat.eqb (List.length (candidates r)) 0)
    then match candidates r with
         | (part :: _) :: _ => part
         | _ => Some ""
         end
    else text r in
  strip (if truthy_opt result_text then default "" result_text else "").

(** The longest duration, in seconds, that fits the 64-bit count of
    nanoseconds in which the interpreter keeps a duration. *)
Definition SLEEP_MAX : Z := 9223372036.

Section Gateway.
Context {W : Type} (E : Env W) (h : LLMHandler).

(** [time.sleep(seconds)] for an integer.  The interpreter converts the
    duration to nanoseconds, an [OverflowError] when the count does not
    fit, for a negative duration too; it then refuses a negative duration
    with a [ValueError]; and it hands any other duration to the operating
    system.  Only a wait that was granted is recorded as a sleep. *)
Definition sleep (seconds : Z) : M W unit :=
  if (seconds <? - SLEEP_MAX) || (SLEEP_MAX <? seconds) then
    raise (OverflowError "timestamp too large to convert to C _PyTime_t")
  else if seconds <? 0 then
    raise (ValueError "sleep length must be non-negative")
  else
    fun w =>
      match os_wait E seconds w with
      | (inr _, w1) => (Ret tt, w1, [EvSleep seconds])
      | (inl e, w1) => (Raise e, w1, [])
      end.

(** One call of the model library, recorded with the way it ended. *)
Definition model_call (system_message : option string) (prompt : string)
    : M W response :=
  fun w =>
    match generate_content E system_message prompt w with
    | (inr r, w1) => (Ret r, w1, [EvModelCall system_message prompt (inr r)])
    | (inl e, w1) => (Raise e, w1, [EvModelCall system_message prompt (inl e)])
    end.

(** The body of [for attempt in range(self.max_retries)], with [remaining]
    iterations left, and the [raise] that follows the loop. *)
Fixpoint call_llm_from (remaining : nat) (attempt : Z)
    (system_message : option string) (prompt_to_send : string) : M W string :=
  match remaining with
  | O => raise (PlainException "Max retries exceeded for LLM API call")
  | S remaining' =>
      r <- catching (model_call system_message prompt_to_send) ;;
      match r with
      | inr reply => ret (response_text reply)
      | inl e =>
          if attempt <? max_retries h - 1 then
            sleep (retry_delay h * 2 ^ attempt) ;;;
            call_llm_from remaining' (attempt + 1) system_message prompt_to_send
          else raise e
      end
  end.

Definition call_llm (prompt : string) (system_message : option string)
    : M W string :=
  if negb (truthy_opt (api_key h)) then
    raise (ValueError "Gemini API key not configured")
  else
    let prompt_to_send := truncate_prompt prompt 3000 in
    let system_message :=
      if truthy_opt system_message then system_message else None in
    call_llm_from (Z.to_nat (max_retries h)) 0 system_message prompt_to_send.
End Gateway.

(** ** tool_executor.py: the tool dispatcher *)

(** The keys of [self.available_tools]. *)
Definition available_tools : list string :=
  ["web_scraper"; "data_inspector"; "data_reader"].

(** The value of a decimal digit. *)
Definition digit_value (c : ascii) : option Z :=
  let n := Z.of_nat (nat_of_ascii c) in
  if (48 <=? n) && (n <=? 57) then Some (n - 48) else None.

(** The digits of a float literal up to its exponent, read as one integer:
    [digits] so far, [places] of them after the point.  The answer holds
    the text of the exponent, when there is one; [None] is for a text that
    is not made of digits and at most one point. *)
Fixpoint mantissa (l : list ascii) (after_point seen : bool) (digits places : Z)
    : option (Z * Z * option (list ascii)) :=
  match l with
  | [] => if seen then Some (digits, places, None) else None
  | c :: l' =>
      if Ascii.eqb c "e" || Ascii.eqb c "E" then
        if seen then Some (digits, places, Some l') else None
      else if Ascii.eqb c "." then
        if after_point then None else mantissa l' true seen digits places
      else
        match digit_value c with
        | Some d =>
            mantissa l' after_point true (10 * digits + d)
                     (if after_point then places + 1 else places)
        | None => None
        end
  end.

Fixpoint digits_only (l : list ascii) (acc : Z) : option Z :=
  match l with
  | [] => Some acc
  | c :: l' =>
      match digit_value c with
      | Some d => digits_only l' (10 * acc + d)
      | None => None
      end
  end.

(** The exponent of a float literal: 0 when there is none, else a run of
    digits after an optional sign. *)
Definition exponent (text : option (list ascii)) : option Z :=
  match text with
  | None => Some 0
  | Some [] => None
  | Some (c :: l') =>
      if Ascii.eqb c "-" then
        match l' with [] => None | _ => option_map Z.opp (digits_only l' 0) end
      else if Ascii.eqb c "+" then
        match l' with [] => None | _ => digits_only l' 0 end
      else digits_only (c :: l') 0
  end.

(** [float(literal) == 0.0].  The literal [digits * 10^e] is read as the
    nearest double, ties to even: it is zero when no digit differs from 0,
    and also when it is at most [2^-1075], half of the smallest double
    above zero.  A text that is not a decimal literal ([NaN], [Infinity])
    is not zero. *)
Definition float_literal_is_zero (literal : string) : bool :=
  let l := list_ascii_of_string literal in
  let l := match l with
           | c :: l' => if Ascii.eqb c "-" || Ascii.eqb c "+" then l' else l
           | [] => []
           end in
  match mantissa l false false 0 0 with
  | Some (digits, places, exponent_text) =>
      match exponent exponent_text with
      | Some e =>
          let e := e - places in
          (digits =? 0) || ((e <? 0) && (digits * 2 ^ 1075 <=? 10 ^ (- e)))
      | None => false
      end
  | None => false
  end.

(** Truth value of a Python value, as [not url] needs it. *)
Definition truthy (v : value) : bool :=
  match v with
  | VNone => false
  | VBool b => b
  | VInt n => negb (n =? 0)
  | VFloat l => negb (float_literal_is_zero l)
  | VStr s => nonempty s
  | VBytes b => negb (Nat.eqb (List.length b) 0)
  | VList l => negb (Nat.eqb (List.length l) 0)
  | VDict d => negb (Nat.eqb (List.length d) 0)
  end.

(** [x is None] for the result of [parameters.get(key)]. *)
Definition is_none (o : option value) : bool :=
  match o with None | Some VNone => true | _ => false end.

Definition tool_not_found (tool_name : string) : exn :=
  ValueError ("Tool '" +:+ tool_name +:+
    "' not found. Available tools: ['web_scraper', 'data_inspector', 'data_reader']").

(** The error of [Path(filename)] for a value that is not a text. *)
Definition path_type_error (filename : value) : exn :=
  TypeError
    match filename with
    | VBytes _ =>
        "argument should be a str object or an os.PathLike object returning str, "
        +:+ "not <class 'bytes'>"
    | _ => "expected str, bytes or os.PathLike object, not " +:+ type_name filename
    end.

Section ToolExecutor.
Context {W : Type} (E : Env W).

Definition _execute_web_scraper (parameters : gmap string value) : M W value :=
  let url := parameters !! "url" in
  if negb (truthy (default VNone url)) then
    raise (ValueError "URL parameter is required for web scraper")
  else
    call_total (EvScrape (default VNone url)) (scrape_url E (default VNone url)).

Definition _execute_data_inspector (parameters : gmap string value) : M W value :=
  let data := parameters !! "data" in
  let source_type := default (VStr "unknown") (parameters !! "source_type") in
  if is_none data then
    raise (ValueError "Data parameter is required for data inspector")
  else
    call_total (EvInspect (default VNone data) source_type)
               (inspect_data E (default VNone data) source_type).

(** The extension is taken from [Path(filename)] before the [try]
    statement is entered: a file name that is not a text is a [TypeError]
    that leaves the function. *)
Definition _process_file_content (filename content : value) : M W value :=
  match filename with
  | VStr _ => call_total (EvReadData filename content) (process_file E filename content)
  | _ => raise (path_type_error filename)
  end.

Definition _execute_data_reader (parameters : gmap string value) : M W value :=
  let filename := default (VStr "") (parameters !! "filename") in
  let content := parameters !! "content" in
  if is_none content then
    raise (ValueError "Content parameter is required for data reader")
  else
    _process_file_content filename (default VNone content).

Definition execute_tool (tool_name : string) (parameters : gmap string value)
    : M W value :=
  if negb (existsb (String.eqb tool_name) available_tools) then
    raise (tool_not_found tool_name)
  else
    try_except
      (if String.eqb tool_name "web_scraper" then _execute_web_scraper parameters
       else if String.eqb tool_name "data_inspector" then _execute_data_inspector parameters
       else if String.eqb tool_name "data_reader" then _execute_data_reader parameters
       else raise (AttributeError
              ("Tool '" +:+ tool_name +:+ "' does not have an 'execute' method")))
      (fun e => raise e).
End ToolExecutor.

(** ** orchestrator.py: the pipeline controller *)

Record Orchestrator := {
  llm_handler : LLMHandler;
  max_correction_attempts : Z
}.

(** The response envelopes: the bare results array, the two dictionaries of
    [_format_final_output] and the dictionary built by the [except] clause
    of [process_request]. *)
Record envelope_metadata := {
  execution_success : bool;
  processing_pipeline : string
}.

Inductive envelope :=
  | EnvArray (results : list value)
  | EnvSuccess (status questions : string) (results : list value)
               (metadata : envelope_metadata)
  | EnvExecutionError (status questions error_text : string)
                      (metadata : envelope_metadata)
  | EnvPipelineError (status message : string) (results : list value).

Definition dquote : string := String (ascii_of_nat 34) "".

Definition DEFAULT_TASK_BREAKDOWN : string :=
  String.concat newline
    [ "";
      "            Analyze the following questions and create a structured plan to answer them:";
      "            ";
      "            Questions: {questions}";
      "            ";
      "            Please provide a step-by-step plan in JSON format with the following structure:";
      "            {{";
      "                " +:+ dquote +:+ "plan" +:+ dquote +:+ ": " +:+ dquote +:+ "Brief description of the overall approach" +:+ dquote +:+ ",";
      "                " +:+ dquote +:+ "steps" +:+ dquote +:+ ": [" +:+ dquote +:+ "Step 1" +:+ dquote +:+ ", " +:+ dquote +:+ "Step 2" +:+ dquote +:+ ", " +:+ dquote +:+ "Step 3" +:+ dquote +:+ ", ...]";
      "            }}";
      "            " ].

Definition DEFAULT_CODE_GENERATION : string :=
  String.concat newline
    [ "";
      "            Based on the following questions and data metadata, write Python code to perform the analysis:";
      "            ";
      "            Questions: {questions}";
      "            ";
      "            Data Metadata: {metadata}";
      "            ";
      "            Please write clean, executable Python code that answers the questions using the provided data structure.";
      "            Include all necessary imports and ensure the code is self-contained.";
      "            " ].

Definition DEFAULT_CODE_CORRECTION : string :=
  String.concat newline
    [ "";
      "            The following Python code has an error. Please fix it:";
      "            ";
      "            Code:";
      "            {code}";
      "            ";
      "            Error:";
      "            {error}";
      "            ";
      "            Please provide the corrected version of the code.";
      "            " ].


Definition _get_default_prompt (template_name : string) : string :=
  if String.eqb template_name "1_task_breakdown" then DEFAULT_TASK_BREAKDOWN
  else if String.eqb template_name "2_code_generation" then DEFAULT_CODE_GENERATION
  else if String.eqb template_name "3_code_correction" then DEFAULT_CODE_CORRECTION
  else "".

(** The characters that the URL pattern lets into the body of a URL: its
    character class excludes white space, the angle brackets, the double
    quote, the braces, the bar, the backslash, the caret, the backquote and
    the square brackets. *)
Definition url_char (c : ascii) : bool :=
  negb (isspace c ||
        existsb (Ascii.eqb c)
          (ascii_of_nat 34 :: list_ascii_of_string "<>{}|\^`[]")).

(** The longest prefix of [s] whose characters satisfy [p]. *)
Fixpoint span (p : ascii -> bool) (s : string) : string :=
  match s with
  | "" => ""
  | String c s' => if p c then String c (span p s') else ""
  end.

(** The URL pattern matched at the very start of [s]. *)
Definition match_url_here (s : string) : option string :=
  let after (scheme : string) :=
    if String.prefix scheme s then
      let body := span url_char (drop (String.length scheme) s) in
      if nonempty body then Some (scheme +:+ body) else None
    else None in
  match after "https://" with
  | Some m => Some m
  | None => after "http://"
  end.

(** [urls[0] if urls else ""] for [urls = re.findall(url_pattern, text)]:
    the leftmost match of the pattern. *)
Fixpoint _extract_url_from_text (text : string) : string :=
  match match_url_here text with
  | Some m => m
  | None =>
      match text with
      | "" => ""
      | String _ text' => _extract_url_from_text text'
      end
  end.

(** [re.search(r'\[.*\]', output, re.DOTALL)]: with a greedy [.*] that also
    crosses line ends, the match runs from the first "[" to the last "]"
    after it. *)
Fixpoint through_last_bracket (s : string) : option string :=
  match s with
  | "" => None
  | String c s' =>
      match through_last_bracket s' with
      | Some r => Some (String c r)
      | None => if Ascii.eqb c "]" then Some (String c "") else None
      end
  end.

Fixpoint search_array_literal (output : string) : option string :=
  match output with
  | "" => None
  | String c s' =>
      if Ascii.eqb c "[" then through_last_bracket output
      else search_array_literal s'
  end.

Definition success_metadata : envelope_metadata :=
  {| execution_success := true; processing_pipeline := "completed" |}.

Definition failure_metadata : envelope_metadata :=
  {| execution_success := false; processing_pipeline := "failed_at_execution" |}.

(** The way one pass through the body of the [while] loop ends. *)
Inductive loop_step :=
  | Continue (attempts : Z) (current_code : string)
  | Return (attempts : Z) (result : ExecutionResult).

Section Controller.
Context {W : Type} (E : Env W) (self : Orchestrator).

Definition _load_prompt_template (template_name : string) : M W string :=
  let template_path := "prompts/" +:+ template_name +:+ ".txt" in
  try_except
    (call (EvReadTemplate template_name) (read_template_file E template_path))
    (fun e =>
       match e with
       | FileNotFoundError _ => ret (_get_default_prompt template_name)
       | _ => raise e
       end).

Definition _get_task_breakdown (questions : string) : M W value :=
  prompt_template <- _load_prompt_template "1_task_breakdown" ;;
  let prompt := safe_substitute E prompt_template [("questions", questions)] in
  response <- call_llm E (llm_handler self) prompt None ;;
  match json_loads E response with
  | Loaded task_plan => ret task_plan
  | JSONDecodeError => ret (VDict [("plan", VStr response); ("steps", VList [])])
  | LoadRaises e => raise e
  end.

(** [for file_info in data_files: processed_files.append(...)]. *)
Fixpoint read_data_files (data_files : list file_info) : M W (list value) :=
  match data_files with
  | [] => ret []
  | file_info :: rest =>
      processed_data <-
        execute_tool E "data_reader"
          (<["content" := VBytes (content file_info)]>
             {["filename" := VStr (filename file_info)]}) ;;
      processed_files <- read_data_files rest ;;
      ret (processed_data :: processed_files)
  end.

(** [task_plan.get("plan", "")] followed by the pattern search, which
    needs a string. *)
Definition url_from_task_plan (task_plan : value) : M W string :=
  match task_plan with
  | VDict items =>
      match default (VStr "") (items_get items "plan") with
      | VStr plan => ret (_extract_url_from_text plan)
      | VBytes _ => raise (TypeError "cannot use a string pattern on a bytes-like object")
      | other =>
          raise (TypeError ("expected string or bytes-like object, got '" +:+
                            type_name other +:+ "'"))
      end
  | _ => raise (AttributeError
                  ("'" +:+ type_name task_plan +:+ "' object has no attribute 'get'"))
  end.

Definition _source_data (data_source_type : DataSourceType)
    (data_files : list file_info) (data_url : string) (task_plan : value)
    : M W value :=
  match data_source_type with
  | SrcUrl | SrcUrlInText =>
      data_url <-
        (match data_source_type with
         | SrcUrlInText =>
             if negb (nonempty data_url) then url_from_task_plan task_plan
             else ret data_url
         | _ => ret data_url
         end) ;;
      execute_tool E "web_scraper" {["url" := VStr data_url]}
  | SrcFile =>
      processed_files <- read_data_files data_files ;;
      ret (VList processed_files)
  | SrcTextOnly =>
      ret (VDict [("type", VStr "text"); ("content", VStr "")])
  end.

Definition _extract_metadata (raw_data : value) (data_source_type : DataSourceType)
    : M W value :=
  execute_tool E "data_inspector"
    (<["source_type" := VStr (source_type_name data_source_type)]>
       {["data" := raw_data]}).

Definition _generate_code (questions : string) (metadata : value) : M W string :=
  prompt_template <- _load_prompt_template "2_code_generation" ;;
  match json_dumps_indent E metadata with
  | inl e => raise e
  | inr metadata_text =>
      let prompt :=
        safe_substitute E prompt_template
          [("questions", questions); ("metadata", metadata_text)] in
      call_llm E (llm_handler self) prompt None
  end.

Definition _correct_code (faulty_code error_message : string) : M W string :=
  emit (EvCorrect faulty_code error_message) ;;;
  prompt_template <- _load_prompt_template "3_code_correction" ;;
  let prompt :=
    safe_substitute E prompt_template
      [("code", faulty_code); ("error", error_message)] in
  call_llm E (llm_handler self) prompt None.

(** The preamble that [_execute_with_correction] puts before the code. *)
Definition data_injection (raw_data : value) : exn + string :=
  match json_dumps_default_str E raw_data with
  | inl e => inl e
  | inr data_json =>
      match (match raw_data with
             | VDict _ => json_dumps_default_str E raw_data
             | _ => inr "null"
             end) with
      | inl e => inl e
      | inr metadata_json =>
          inr (String.concat newline
                 [ ""; "# Data injection"; "import json";
                   "data = json.loads(r'''" +:+ data_json +:+ "''')";
                   "metadata = json.loads(r'''" +:+ metadata_json +:+ "''')";
                   ""; "# User code starts here"; "" ])
      end
  end.

(** [current_code] as it is when the loop is entered: the code, after the
    preamble when there is data. *)
Definition inject_data (code : string) (raw_data : value) : M W string :=
  match raw_data with
  | VNone => ret code
  | _ =>
      match data_injection raw_data with
      | inl e => raise e
      | inr preamble => ret (preamble +:+ code)
      end
  end.

(** The [except Exception as e] clause of the loop body, entered with the
    values the local variables have when the exception is raised. *)
Definition on_exception (attempts : Z) (current_code : string) (e : exn)
    : M W loop_step :=
  let attempts := attempts + 1 in
  emit (EvAttemptFailed attempts (str_exn e)) ;;;
  if attempts <? max_correction_attempts self then
    current_code <- _correct_code current_code (str_exn e) ;;
    ret (Continue attempts current_code)
  else
    ret (Return attempts
           {| success := false; error := Some (str_exn e); output := "" |}).

(** One pass through the body of [while attempts < max_correction_attempts]. *)
Definition correction_cycle (attempts : Z) (current_code : string)
    : M W loop_step :=
  prepared <- catching (call (EvPrepare current_code) (prepare_code E current_code)) ;;
  match prepared with
  | inl e => on_exception attempts current_code e
  | inr current_code =>
  checked <- catching (call (EvValidate current_code)
                            (validate_code_syntax E current_code)) ;;
  match checked with
  | inl e => on_exception attempts current_code e
  | inr syntax_check =>
  if negb (valid syntax_check) then
    let attempts := attempts + 1 in
    emit (EvAttemptFailed attempts (default "Invalid code" (syntax_error syntax_check))) ;;;
    if attempts <? max_correction_attempts self then
      corrected <- catching (_correct_code current_code
                     (default "Invalid Python code. Return only Python code."
                              (syntax_error syntax_check))) ;;
      match corrected with
      | inl e => on_exception attempts current_code e
      | inr current_code => ret (Continue attempts current_code)
      end
    else
      ret (Return attempts
             {| success := false;
                error := Some (default "Invalid code" (syntax_error syntax_check));
                output := "" |})
  else
  executed <- catching (call (EvExecute current_code) (execute_code E current_code)) ;;
  match executed with
  | inl e => on_exception attempts current_code e
  | inr result =>
  if success result then ret (Return attempts result)
  else
    let attempts := attempts + 1 in
    match error result with
    | None => on_exception attempts current_code (KeyError "error")
    | Some message =>
        emit (EvAttemptFailed attempts message) ;;;
        if attempts <? max_correction_attempts self then
          corrected <- catching (_correct_code current_code message) ;;
          match corrected with
          | inl e => on_exception attempts current_code e
          | inr current_code => ret (Continue attempts current_code)
          end
        else ret (Return attempts result)
    end
  end end end.

(** The [while] loop and the [return] after it.  [fuel] bounds the number
    of passes; running out of it is reported as [OutOfFuel]. *)
Fixpoint correction_loop (fuel : nat) (attempts : Z) (current_code : string)
    : M W (Z * ExecutionResult) :=
  if attempts <? max_correction_attempts self then
    match fuel with
    | O => out_of_fuel
    | S fuel' =>
        step <- correction_cycle attempts current_code ;;
        match step with
        | Continue attempts current_code =>
            correction_loop fuel' attempts current_code
        | Return attempts result => ret (attempts, result)
        end
    end
  else
    ret (attempts,
         {| success := false;
            error := Some "Max correction attempts exceeded";
            output := "" |}).

(** The loop entered as the function enters it: counter at 0, one unit of
    fuel per allowed attempt. *)
Definition run_correction_loop (current_code : string) : M W (Z * ExecutionResult) :=
  correction_loop (Z.to_nat (max_correction_attempts self)) 0 current_code.

Definition _execute_with_correction (code : string) (raw_data : value)
    : M W ExecutionResult :=
  current_code <- inject_data code raw_data ;;
  final <- run_correction_loop current_code ;;
  ret (snd final).

(** The [results] list that [_format_final_output] builds from the output:
    the [try] statement with its clause
    [except (json.JSONDecodeError, ValueError)], which lets an exception of
    any other class through. *)
Definition parse_results (output : string) : exn + list value :=
  match search_array_literal output with
  | Some json_match =>
      match json_loads E json_match with
      | Loaded (VList parsed_results) => inr parsed_results
      | Loaded _ => inr [VStr output]
      | JSONDecodeError => inr [VStr output]
      | LoadRaises e => if is_value_error e then inr [VStr output] else inl e
      end
  | None => inr [VStr output]
  end.

Definition _format_final_output (execution_result : ExecutionResult)
    (original_questions : string) : M W envelope :=
  if success execution_result then
    match parse_results (output execution_result) with
    | inl e => raise e
    | inr results =>
        if contains "json array" (lower original_questions) then
          ret (EnvArray results)
        else
          ret (EnvSuccess "success" original_questions results success_metadata)
    end
  else
    match error execution_result with
    | None => raise (KeyError "error")
    | Some message =>
        ret (EnvExecutionError "error" original_questions message failure_metadata)
    end.

(** The body of the [try] in [process_request]. *)
Definition pipeline (questions : string) (data_files : list file_info)
    (data_url : string) : M W envelope :=
  let data_source_type := _analyze_data_source questions data_files data_url in
  let data_url :=
    match data_source_type with
    | SrcUrlInText =>
        let extracted_url := _extract_url_from_text questions in
        if nonempty extracted_url then extracted_url else data_url
    | _ => data_url
    end in
  task_plan <- _get_task_breakdown questions ;;
  raw_data <- _source_data data_source_type data_files data_url task_plan ;;
  metadata <- _extract_metadata raw_data data_source_type ;;
  generated_code <- _generate_code questions metadata ;;
  execution_result <- _execute_with_correction generated_code raw_data ;;
  _format_final_output execution_result questions.

Definition error_envelope (e : exn) : envelope :=
  EnvPipelineError "error" ("Processing failed: " +:+ str_exn e) [].

Definition process_request (questions : string) (data_files : list file_info)
    (data_url : string) : M W envelope :=
  try_except (pipeline questions data_files data_url)
             (fun e => ret (error_envelope e)).
End Controller.

(** ** Reading a trace *)

Definition is_model_call (ev : event) : bool :=
  match ev with EvModelCall _ _ _ => true | _ => false end.

Definition is_prepare (ev : event) : bool :=
  match ev with EvPrepare _ => true | _ => false end.

Definition is_execute (ev : event) : bool :=
  match ev with EvExecute _ => true | _ => false end.

Definition is_correct (ev : event) : bool :=
  match ev with EvCorrect _ _ => true | _ => false end.

Definition is_scrape (ev : event) : bool :=
  match ev with EvScrape _ => true | _ => false end.

(** The number of events of one kind in a trace. *)
Definition count (p : event -> bool) (tr : list event) : nat :=
  List.length (List.filter p tr).

(** The durations slept, in order. *)
Fixpoint sleeps (tr : list event) : list Z :=
  match tr with
  | [] => []
  | EvSleep seconds :: rest => seconds :: sleeps rest
  | _ :: rest => sleeps rest
  end.

Definition total (l : list Z) : Z := fold_right Z.add 0 l.

(** [2^0 + 2^1 + ... + 2^(n-1)]. *)
Definition powers_of_two_sum (n : nat) : Z :=
  total (List.map (fun k => 2 ^ Z.of_nat k) (seq 0 n)).

(** The delays [retry_delay * 2^attempt] for attempts [first], [first+1],
    ..., as many as [n]. *)
Fixpoint backoff (retry_delay first : Z) (n : nat) : list Z :=
  match n with
  | O => []
  | S n' => retry_delay * 2 ^ first :: backoff retry_delay (first + 1) n'
  end.

(** The trace of a call whose model calls all fail, with the errors
    [errors] in order: a sleep follows every failed call but the last. *)
Fixpoint retry_trace (system_message : option string) (prompt : string)
    (retry_delay attempt : Z) (errors : list exn) : list event :=
  match errors with
  | [] => []
  | e :: rest =>
      EvModelCall system_message prompt (inl e) ::
      match rest with
      | [] => []
      | _ :: _ =>
          EvSleep (retry_delay * 2 ^ attempt) ::
          retry_trace system_message prompt retry_delay (attempt + 1) rest
      end
  end.

(** The value of the attempt counter after the events of [tr], when it was
    [a] before them: the log line of a failed attempt carries the new
    value. *)
Definition last_attempt (a : Z) (tr : list event) : Z :=
  fold_left (fun acc ev =>
               match ev with EvAttemptFailed n _ => n | _ => acc end) tr a.

(** Every logged attempt number of [tr] is at most [bound]. *)
Definition attempts_within (bound : Z) (tr : list event) : Prop :=
  Forall (fun ev => match ev with
                    | EvAttemptFailed n _ => n <= bound
                    | _ => True
                    end) tr.

(** Every correction request of [tr] comes right after the log line of a
    failed attempt whose number is below [bound]; [prev] is the event just
    before [tr]. *)
Fixpoint corrections_guarded (bound : Z) (prev : option event)
    (tr : list event) : Prop :=
  match tr with
  | [] => True
  | ev :: rest =>
      match ev with
      | EvCorrect _ _ =>
          match prev with
          | Some (EvAttemptFailed n _) => n < bound
          | _ => False
          end
      | _ => True
      end /\ corrections_guarded bound (Some ev) rest
  end.

(** The events of the gateway and of the template loader. *)
Definition is_gateway_event (ev : event) : bool :=
  match ev with
  | EvModelCall _ _ _ | EvSleep _ | EvReadTemplate _ => true
  | _ => false
  end.

(** The expected shape of a task plan: a dictionary with a text under
    ["plan"] and a list of texts under ["steps"]. *)
Definition is_text (v : value) : bool :=
  match v with VStr _ => true | _ => false end.

Definition is_task_plan (v : value) : bool :=
  match v with
  | VDict items =>
      match items_get items "plan", items_get items "steps" with
      | Some (VStr _), Some (VList steps) => forallb is_text steps
      | _, _ => false
      end
  | _ => false
  end.

(** The fallback plan of [_get_task_breakdown]. *)
Definition raw_text_plan (reply : string) : value :=
  VDict [("plan", VStr reply); ("steps", VList [])].

(** Every failed run reported by the execution engine carries its error
    text. *)
Definition failures_carry_error {W} (E : Env W) : Prop :=
  forall code w r w', execute_code E code w = (inr r, w') ->
    success r = false -> error r <> None.

(** Every model call fails. *)
Definition model_always_fails {W} (E : Env W) : Prop :=
  forall system_message prompt w,
    exists e w', generate_content E system_message prompt w = (inl e, w').

(** The operating system grants every wait of at most [longest] seconds. *)
Definition waits_granted {W} (E : Env W) (longest : Z) : Prop :=
  forall seconds w, 0 <= seconds <= longest ->
    exists w', os_wait E seconds w = (inr tt, w').

(** From the state [w], the model fails with [errors], in order, and the
    wait of [retry_delay * 2^attempt] seconds after each failure but the
    last is granted; [w'] is the state after the last failure. *)
Fixpoint fails_with {W} (E : Env W) (system_message : option string)
    (prompt : string) (retry_delay attempt : Z) (errors : list exn) (w w' : W)
    : Prop :=
  match errors with
  | [] => w' = w
  | e :: rest =>
      exists w1,
        generate_content E system_message prompt w = (inl e, w1) /\
        match rest with
        | [] => w' = w1
        | _ :: _ =>
            exists w2,
              os_wait E (retry_delay * 2 ^ attempt) w1 = (inr tt, w2) /\
              fails_with E system_message prompt retry_delay (attempt + 1) rest w2 w'
        end
  end.

(** ** Specifications of runs *)

(** [spec m Q]: from every state, the outcome and the trace of [m] satisfy
    [Q]. *)
Definition spec {W A} (m : M W A) (Q : outcome A -> list event -> Prop) : Prop :=
  forall w, match m w with (out, _, tr) => Q out tr end.

(** A run that ends and produces events of the gateway only. *)
Definition quiet {A} (out : outcome A) (tr : list event) : Prop :=
  out <> OutOfFuel /\ Forall (fun ev => is_gateway_event ev = true) tr.

(** A run that ends. *)
Definition halts {A} (out : outcome A) (tr : list event) : Prop :=
  out <> OutOfFuel.

(** The trace [tr] ends with the log line of failed attempt number [a], and
    the result [r] carries the error of that line. *)
Definition ends_with_failure (tr : list event) (a : Z) (r : ExecutionResult) : Prop :=
  exists before message,
    tr = (before ++ [EvAttemptFailed a message])%list /\ error r = Some message.

(** What the [except] clause of the loop body does when entered with the
    counter at [a]: it logs attempt [a + 1], then either asks for one
    correction, budget remaining, or returns the failure. *)
Definition on_exception_post (bound a : Z) (out : outcome loop_step)
    (tr : list event) : Prop :=
  count is_prepare tr = 0%nat /\
  count is_execute tr = 0%nat /\
  (forall x, last_attempt x tr = a + 1) /\
  attempts_within (a + 1) tr /\
  (forall prev, corrections_guarded bound prev tr) /\
  match out with
  | Ret (Continue a1 _) =>
      a1 = a + 1 /\ a + 1 < bound /\ count is_correct tr = 1%nat
  | Ret (Return a1 r) =>
      a1 = a + 1 /\ bound <= a + 1 /\ success r = false /\
      ends_with_failure tr a1 r /\ count is_correct tr = 0%nat
  | Raise _ => a + 1 < bound /\ count is_correct tr = 1%nat
  | OutOfFuel => False
  end.

(** What one pass through the loop body does when entered with the counter
    at [a], below [bound]; [limit] bounds the attempt numbers it logs. *)
Definition cycle_post (bound limit a : Z) (out : outcome loop_step)
    (tr : list event) : Prop :=
  count is_prepare tr = 1%nat /\
  (count is_execute tr <= 1)%nat /\
  Z.of_nat (count is_correct tr) <= Z.min (last_attempt a tr) (bound - 1) - a /\
  (forall prev, corrections_guarded bound prev tr) /\
  attempts_within limit tr /\
  match out with
  | Ret (Continue a1 _) => a1 = last_attempt a tr /\ a < a1 < bound
  | Ret (Return a1 r) =>
      a1 = last_attempt a tr /\
      ((success r = true /\ a1 = a) \/
       (success r = false /\ bound <= a1 /\ ends_with_failure tr a1 r))
  | Raise _ => a < last_attempt a tr < bound
  | OutOfFuel => False
  end.

(** The room given to the logged attempt numbers: [bound], when the engine
    reports an error text with every failed run, and [bound + 1]
    otherwise. *)
Definition room_for {W} (E : Env W) (bound limit : Z) : Prop :=
  limit = bound + 1 \/ (limit = bound /\ failures_carry_error E).

(** What the loop does when entered with the counter at [a]; [limit] bounds
    the attempt numbers it logs. *)
Definition loop_post (bound limit a : Z) (out : outcome (Z * ExecutionResult))
    (tr : list event) : Prop :=
  (count is_prepare tr <= Z.to_nat (bound - a))%nat /\
  (count is_execute tr <= count is_prepare tr)%nat /\
  (count is_correct tr <= Z.to_nat (bound - 1 - a))%nat /\
  (forall prev, corrections_guarded bound prev tr) /\
  attempts_within limit tr /\
  match out with
  | Ret (a1, r) =>
      a1 = last_attempt a tr /\
      ((success r = true /\ a1 < bound) \/
       (success r = false /\ bound <= a1 /\
        ((tr = [] /\ error r = Some "Max correction attempts exceeded") \/
         ends_with_failure tr a1 r)))
  | Raise _ => last_attempt a tr < bound
  | OutOfFuel => False
  end.

(** ** Concrete collaborators for the scenarios

    A decoder for JSON texts, and worlds in which the collaborators answer
    from a script. *)

Module Json.

(** How the scan of a piece of text ends: with what was read and the text
    that follows it, with [JSONDecodeError], or with another exception. *)
Inductive scan (A : Type) :=
  | Scanned (a : A) (rest : list ascii)
  | Malformed
  | Raises (e : exn).
Arguments Scanned {A} a rest.
Arguments Malformed {A}.
Arguments Raises {A} e.

Definition is_ws (c : ascii) : bool :=
  existsb (Ascii.eqb c) [" "%char; "009"%char; "010"%char; "013"%char].

Definition is_digit (c : ascii) : bool :=
  let n := nat_of_ascii c in ((48 <=? n) && (n <=? 57))%nat.

Fixpoint skip_ws (l : list ascii) : list ascii :=
  match l with
  | c :: r => if is_ws c then skip_ws r else l
  | [] => []
  end.

(** The leading digits of [l] and what follows them. *)
Fixpoint digits (l : list ascii) : list ascii * list ascii :=
  match l with
  | c :: r =>
      if is_digit c then let (d, r') := digits r in (c :: d, r') else ([], l)
  | [] => ([], [])
  end.

Definition digits_value (d : list ascii) : Z :=
  fold_left (fun acc c => 10 * acc + (Z.of_nat (nat_of_ascii c) - 48)) d 0.

(** The integer part of a number: a single 0, or digits that do not start
    with 0. *)
Definition integer_part (l : list ascii) : option (list ascii * list ascii) :=
  match l with
  | c :: r =>
      if Ascii.eqb c "0" then Some ([c], r)
      else if is_digit c then Some (digits l)
      else None
  | [] => None
  end.

(** An optional fraction [.ddd] and an optional exponent [e+dd]: each is
    taken only when at least one digit follows. *)
Definition fraction_part (l : list ascii) : list ascii * list ascii :=
  match l with
  | c :: r =>
      if Ascii.eqb c "." then
        match digits r with
        | ([], _) => ([], l)
        | (d, r') => (c :: d, r')
        end
      else ([], l)
  | [] => ([], [])
  end.

Definition exponent_part (l : list ascii) : list ascii * list ascii :=
  match l with
  | c :: r =>
      if Ascii.eqb c "e" || Ascii.eqb c "E" then
        let (sign, r1) :=
          match r with
          | s :: r' =>
              if Ascii.eqb s "+" || Ascii.eqb s "-" then ([s], r') else ([], r)
          | [] => ([], [])
          end in
        match digits r1 with
        | ([], _) => ([], l)
        | (d, r') => (c :: sign ++ d, r')%list
        end
      else ([], l)
  | [] => ([], [])
  end.

(** [int(text)] refuses a text of more than 4300 digits. *)
Definition too_many_digits (n : nat) : exn :=
  ValueError
    ("Exceeds the limit (4300 digits) for integer string conversion: value has "
     +:+ DecimalString.NilZero.string_of_uint (Nat.to_uint n)
     +:+ " digits; use sys.set_int_max_str_digits() to increase the limit").

Definition number (l : list ascii) : scan value :=
  let (negative, l1) :=
    match l with
    | c :: r => if Ascii.eqb c "-" then (true, r) else (false, l)
    | [] => (false, [])
    end in
  match integer_part l1 with
  | None => Malformed
  | Some (int, r1) =>
      let (frac, r2) := fraction_part r1 in
      let (exp, r3) := exponent_part r2 in
      match frac, exp with
      | [], [] =>
          if 4300 <? Z.of_nat (List.length int)
          then Raises (too_many_digits (List.length int))
          else Scanned (VInt (if negative then - digits_value int else digits_value int)) r3
      | _, _ =>
          Scanned (VFloat (string_of_list_ascii
                             ((if negative then ["-"%char] else []) ++ int ++ frac ++ exp)%list))
                  r3
      end
  end.
(** A keyword at the head of [l]. *)
Fixpoint keyword (k l : list ascii) : option (list ascii) :=
  match k, l with
  | [], _ => Some l
  | a :: k', b :: l' => if Ascii.eqb a b then keyword k' l' else None
  | _ :: _, [] => None
  end.

Definition hex_digit (c : ascii) : option nat :=
  let n := nat_of_ascii c in
  if ((48 <=? n) && (n <=? 57))%nat then Some (n - 48)%nat
  else if ((97 <=? n) && (n <=? 102))%nat then Some (n - 87)%nat
  else if ((65 <=? n) && (n <=? 70))%nat then Some (n - 55)%nat
  else None.

(** The characters of a string up to its closing quote.  Control
    characters are refused.  An escape [\uXXXX] is decoded when the code
    point is below 256; above, the decoded text lies outside the modelled
    strings (see the conventions), and the escape is refused: no scenario
    holds one. *)
Fixpoint string_body (fuel : nat) (l : list ascii) : option (list ascii * list ascii) :=
  match fuel with
  | O => None
  | S fuel' =>
      match l with
      | [] => None
      | c :: r =>
          if Ascii.eqb c (ascii_of_nat 34) then Some ([], r)
          else if (nat_of_ascii c <? 32)%nat then None
          else if Ascii.eqb c "\" then
            match r with
            | e :: r' =>
                let simple (x : ascii) :=
                  match string_body fuel' r' with
                  | Some (s, rest) => Some (x :: s, rest)
                  | None => None
                  end in
                if Ascii.eqb e (ascii_of_nat 34) then simple (ascii_of_nat 34)
                else if Ascii.eqb e "\" then simple "\"%char
                else if Ascii.eqb e "/" then simple "/"%char
                else if Ascii.eqb e "b" then simple "008"%char
                else if Ascii.eqb e "f" then simple "012"%char
                else if Ascii.eqb e "n" then simple "010"%char
                else if Ascii.eqb e "r" then simple "013"%char
                else if Ascii.eqb e "t" then simple "009"%char
                else if Ascii.eqb e "u" then
                  match r' with
                  | h1 :: h2 :: h3 :: h4 :: r'' =>
                      match hex_digit h1, hex_digit h2, hex_digit h3, hex_digit h4 with
                      | Some 0%nat, Some 0%nat, Some d3, Some d4 =>
                          match string_body fuel' r'' with
                          | Some (s, rest) =>
                              Some (ascii_of_nat (16 * d3 + d4) :: s, rest)
                          | None => None
                          end
                      | _, _, _, _ => None
                      end
                  | _ => None
                  end
                else None
            | [] => None
            end
          else
            match string_body fuel' r with
            | Some (s, rest) => Some (c :: s, rest)
            | None => None
            end
      end
  end.

(** [items[key] = v]: a key already there keeps its place. *)
Fixpoint items_set (items : list (string * value)) (key : string) (v : value)
    : list (string * value) :=
  match items with
  | [] => [(key, v)]
  | (k, x) :: rest =>
      if String.eqb k key then (k, v) :: rest
      else (k, x) :: items_set rest key v
  end.

(** The error of a text that nests deeper than the stack has room for. *)
Definition too_deep (kind : string) : exn :=
  RecursionError
    ("maximum recursion depth exceeded while decoding a JSON " +:+ kind +:+
     " from a unicode string").

(** A value at the head of [l]; the elements of an array after its
    opening bracket; the members of an object after its opening brace.
    [room] is the number of arrays and objects, one inside the other, that
    the stack of the interpreter still has room for: entering one more is a
    [RecursionError]. *)
Fixpoint decode_value (fuel room : nat) (l : list ascii) : scan value :=
  match fuel with
  | O => Malformed
  | S fuel' =>
      match l with
      | [] => Malformed
      | c :: r =>
          if Ascii.eqb c "[" then
            match room with
            | O => Raises (too_deep "array")
            | S room' =>
                match skip_ws r with
                | c' :: r' =>
                    if Ascii.eqb c' "]" then Scanned (VList []) r'
                    else decode_elements fuel' room' (c' :: r') []
                | [] => Malformed
                end
            end
          else if Ascii.eqb c "{" then
            match room with
            | O => Raises (too_deep "object")
            | S room' =>
                match skip_ws r with
                | c' :: r' =>
                    if Ascii.eqb c' "}" then Scanned (VDict []) r'
                    else decode_members fuel' room' (c' :: r') []
                | [] => Malformed
                end
            end
          else if Ascii.eqb c (ascii_of_nat 34) then
            match string_body (List.length r) r with
            | Some (s, rest) => Scanned (VStr (string_of_list_ascii s)) rest
            | None => Malformed
            end
          else
            match keyword (list_ascii_of_string "null") l,
                  keyword (list_ascii_of_string "true") l,
                  keyword (list_ascii_of_string "false") l,
                  keyword (list_ascii_of_string "NaN") l,
                  keyword (list_ascii_of_string "Infinity") l,
                  keyword (list_ascii_of_string "-Infinity") l with
            | Some rest, _, _, _, _, _ => Scanned VNone rest
            | _, Some rest, _, _, _, _ => Scanned (VBool true) rest
            | _, _, Some rest, _, _, _ => Scanned (VBool false) rest
            | _, _, _, Some rest, _, _ => Scanned (VFloat "NaN") rest
            | _, _, _, _, Some rest, _ => Scanned (VFloat "Infinity") rest
            | _, _, _, _, _, Some rest => Scanned (VFloat "-Infinity") rest
            | _, _, _, _, _, _ => number l
            end
      end
  end
with decode_elements (fuel room : nat) (l : list ascii) (acc : list value)
    : scan value :=
  match fuel with
  | O => Malformed
  | S fuel' =>
      match decode_value fuel' room l with
      | Scanned v r =>
          match skip_ws r with
          | c :: r' =>
              if Ascii.eqb c "," then
                decode_elements fuel' room (skip_ws r') (acc ++ [v])%list
              else if Ascii.eqb c "]" then Scanned (VList (acc ++ [v])%list) r'
              else Malformed
          | [] => Malformed
          end
      | Malformed => Malformed
      | Raises e => Raises e
      end
  end
with decode_members (fuel room : nat) (l : list ascii) (acc : list (string * value))
    : scan value :=
  match fuel with
  | O => Malformed
  | S fuel' =>
      match l with
      | q :: r0 =>
          if Ascii.eqb q (ascii_of_nat 34) then
            match string_body (List.length r0) r0 with
            | Some (k, r1) =>
                match skip_ws r1 with
                | colon :: r2 =>
                    if Ascii.eqb colon ":" then
                      match decode_value fuel' room (skip_ws r2) with
                      | Scanned v r3 =>
                          let acc' := items_set acc (string_of_list_ascii k) v in
                          match skip_ws r3 with
                          | c :: r4 =>
                              if Ascii.eqb c "," then
                                decode_members fuel' room (skip_ws r4) acc'
                              else if Ascii.eqb c "}" then Scanned (VDict acc') r4
                              else Malformed
                          | [] => Malformed
                          end
                      | Malformed => Malformed
                      | Raises e => Raises e
                      end
                    else Malformed
                | [] => Malformed
                end
            | None => Malformed
            end
          else Malformed
      | [] => Malformed
      end
  end.

(** [json.loads(s)] on a stack with room for [room] nested arrays and
    objects: one value, white space around it allowed, nothing else. *)
Definition loads_within (room : nat) (s : string) : loaded :=
  let l := list_ascii_of_string s in
  match decode_value (S (List.length l)) room (skip_ws l) with
  | Scanned v rest =>
      match skip_ws rest with
      | [] => Loaded v
      | _ => JSONDecodeError
      end
  | Malformed => JSONDecodeError
  | Raises e => LoadRaises e
  end.

(** The room that the scenarios give to the decoder: the recursion limit
    that the interpreter is shipped with.  A call has somewhat less, the
    frames in use taken off (994 levels from the top level of a fresh
    interpreter), so that a text refused in a scenario is refused by every
    call under that limit; the texts that the scenarios decode are nested a
    few levels deep at most. *)
Definition STACK_ROOM : nat := 1000.

Definition loads : string -> loaded := loads_within STACK_ROOM.
End Json.

(** The collaborators of a scripted world.  Every wait is granted.  Prompt
    files are absent, so the built-in templates are used; these contain no [$] placeholder, so
    [safe_substitute] leaves them as they are.  Code preparation returns the
    code unchanged.  The connectors answer with a fixed dictionary, and
    every value is serialised as an empty JSON object: no scenario depends
    on these texts. *)
Record script := {
  model_replies : list (exn + string);
  syntax_checks : list (exn + SyntaxCheck);
  runs : list (exn + ExecutionResult)
}.

Definition text_reply (t : string) : response :=
  {| text := Some t; candidates := [] |}.

Definition model_unavailable : exn :=
  OtherError "ServiceUnavailable" "503 The model is overloaded".

(** The model answers with the next scripted reply and fails once the
    script is used up. *)
Definition next_reply (system_message : option string) (prompt : string)
    (w : script) : (exn + response) * script :=
  match model_replies w with
  | [] => (inl model_unavailable, w)
  | r :: rest =>
      (match r with inl e => inl e | inr t => inr (text_reply t) end,
       {| model_replies := rest; syntax_checks := syntax_checks w; runs := runs w |})
  end.

(** The model fails at every call. *)
Definition never_replies (system_message : option string) (prompt : string)
    (w : script) : (exn + response) * script :=
  (inl model_unavailable, w).

Definition next_syntax_check (code : string) (w : script)
    : (exn + SyntaxCheck) * script :=
  match syntax_checks w with
  | [] => (inr {| valid := true; syntax_error := None |}, w)
  | c :: rest =>
      (c, {| model_replies := model_replies w; syntax_checks := rest; runs := runs w |})
  end.

Definition next_run (code : string) (w : script)
    : (exn + ExecutionResult) * script :=
  match runs w with
  | [] => (inr {| success := true; output := ""; error := None |}, w)
  | r :: rest =>
      (r, {| model_replies := model_replies w; syntax_checks := syntax_checks w; runs := rest |})
  end.

(** A run that always fails with an error text. *)
Definition failed_run : ExecutionResult :=
  {| success := false; output := "";
     error := Some "NameError: name 'df' is not defined" |}.

Definition run_always_fails (code : string) (w : script)
    : (exn + ExecutionResult) * script :=
  (inr failed_run, w).

Definition scripted_with
    (model : option string -> string -> script -> (exn + response) * script)
    (run : string -> script -> (exn + ExecutionResult) * script)
    : Env script :=
  {| generate_content := model;
     os_wait := fun seconds w => (inr tt, w);
     read_template_file := fun path w =>
       (inl (FileNotFoundError
               ("[Errno 2] No such file or directory: '" +:+ path +:+ "'")), w);
     safe_substitute := fun template _ => template;
     json_loads := Json.loads;
     json_dumps_indent := fun _ => inr "{}";
     json_dumps_default_str := fun _ => inr "{}";
     scrape_url := fun url w =>
       (VDict [("success", VBool false); ("error", VStr "Invalid URL format");
               ("url", url)], w);
     inspect_data := fun data source_type w =>
       (VDict [("success", VBool true); ("source_type", source_type)], w);
     process_file := fun name data w =>
       (VDict [("type", VStr "binary"); ("filename", name);
               ("error", VStr "Cannot decode as text")], w);
     prepare_code := fun code w => (inr code, w);
     validate_code_syntax := next_syntax_check;
     execute_code := run |}.

(** Every collaborator follows the script. *)
Definition scripted : Env script := scripted_with next_reply next_run.

(** The model is never reachable. *)
Definition offline : Env script := scripted_with never_replies next_run.

(** The model follows the script and every run fails. *)
Definition failing_runs : Env script := scripted_with next_reply run_always_fails.

Definition empty_script : script :=
  {| model_replies := []; syntax_checks := []; runs := [] |}.

(** The configuration of [Orchestrator.__init__] with the defaults of
    [LLMHandler.__init__] and a credential in the environment. *)
Definition default_handler : LLMHandler :=
  {| api_key := Some "key"; max_retries := 3; retry_delay := 1 |}.

(** The same with [RETRY_DELAY=-1] in the environment. *)
Definition negative_delay_handler : LLMHandler :=
  {| api_key := Some "key"; max_retries := 3; retry_delay := -1 |}.

Definition default_orchestrator : Orchestrator :=
  {| llm_handler := default_handler; max_correction_attempts := 3 |}.

(** The script of Scenario D: the model writes a program and two
    corrections, and every run fails. *)
Definition scenario_D : script :=
  {| model_replies := [inr "print(df)"; inr "print(df.head())"; inr "print(len(df))"];
     syntax_checks := []; runs := [] |}.

(** [s * n]. *)
Fixpoint repeat_text (s : string) (n : nat) : string :=
  match n with
  | O => ""
  | S n' => s +:+ repeat_text s n'
  end.

(** A thousand and one arrays, one inside the other. *)
Definition nested_arrays : string := repeat_text "[" 1001 +:+ repeat_text "]" 1001.

(** A request whose question names a site without a scheme, and the
    replies of the model to its two prompts. *)
Definition site_question : string := "Summarise www.example.com".

Definition site_script : script :=
  {| model_replies := [inr "Open the page and summarise it."; inr "print(1)"];
     syntax_checks := []; runs := [] |}.

(** ** llm_handler.py: system messages and the credential check *)

(** The persona text that opens every system message. *)
Definition BASE_SYSTEM_MESSAGE : string :=
  String.concat newline
    [ "You are an expert data analyst and Python programmer. ";
      "        You help users analyze data by writing precise, executable Python code.";
      "        ";
      "        Guidelines:";
      "        1. Write clean, well-commented Python code";
      "        2. Include all necessary imports";
      "        3. Handle errors gracefully";
      "        4. Provide clear, actionable insights";
      "        5. Focus on answering the specific questions asked";
      "        " ].

Section SystemMessage.
(** [str] is the built-in that an f-string applies to the value of a
    field. *)
Context (str : value -> string).

Definition _build_system_message (context : gmap string value) : string :=
  let get (key : string) := default VNone (context !! key) in
  let base_message := BASE_SYSTEM_MESSAGE in
  let base_message :=
    if truthy (get "data_type")
    then base_message +:+ (newline +:+ newline +:+ "Data type: " +:+ str (get "data_type"))
    else base_message in
  let base_message :=
    if truthy (get "data_structure")
    then base_message +:+ (newline +:+ "Data structure: " +:+ str (get "data_structure"))
    else base_message in
  if truthy (get "previous_error")
  then (base_message +:+
        (newline +:+ newline +:+ "Previous error encountered: " +:+
         str (get "previous_error"))) +:+
       (newline +:+ "Please fix the error and ensure the code runs successfully.")
  else base_message.

Context {W : Type} (E : Env W) (h : LLMHandler).

Definition call_llm_with_context (prompt : string) (context : gmap string value)
    : M W string :=
  let system_message := _build_system_message context in
  call_llm E h prompt (Some system_message).
End SystemMessage.

(** [str] on a string, an integer, a truth value and [None], for the
    examples; no example applies it to another value. *)
Definition str_scalar (v : value) : string :=
  match v with
  | VStr s => s
  | VInt n => DecimalString.NilZero.string_of_int (Z.to_int n)
  | VBool true => "True"
  | VBool false => "False"
  | _ => "None"
  end.

Section Credential.
(** [generate_content_plain prompt]: asking a model object built from the
    model name alone, without a generation configuration. *)
Context {W : Type} (generate_content_plain : string -> W -> (exn + response) * W)
        (h : LLMHandler).

Definition plain_model_call (prompt : string) : M W response :=
  fun w =>
    match generate_content_plain prompt w with
    | (inr r, w1) => (Ret r, w1, [EvModelCall None prompt (inr r)])
    | (inl e, w1) => (Raise e, w1, [EvModelCall None prompt (inl e)])
    end.

Definition validate_api_key : M W bool :=
  if negb (truthy_opt (api_key h)) then ret false
  else
    try_except
      (resp <- plain_model_call "Say 'working' if API key is valid." ;;
       let reply_text := if truthy_opt (text resp) then default "" (text resp) else "" in
       ret (contains "working" (lower reply_text)))
      (fun _ => ret false).
End Credential.

(** ** tool_executor.py: the registry, parameter validation and the
    structure summary *)

Definition get_available_tools : list (string * string) :=
  [ ("web_scraper", "Fetches and extracts content from web pages");
    ("data_inspector", "Analyzes data structure and extracts metadata");
    ("data_reader", "Processes uploaded files (CSV, Excel, JSON, text)") ].

(** The result is the value of the Python expression: for [web_scraper],
    [x and y] is [False] when the key is missing and the value under "url"
    otherwise. *)
Definition validate_tool_parameters (tool_name : string)
    (parameters : gmap string value) : value :=
  if String.eqb tool_name "web_scraper" then
    match parameters !! "url" with
    | None => VBool false
    | Some url => url
    end
  else if String.eqb tool_name "data_inspector" then
    VBool (bool_decide (is_Some (parameters !! "data")))
  else if String.eqb tool_name "data_reader" then
    VBool (bool_decide (is_Some (parameters !! "content")))
  else VBool true.

(** [_analyze_json_structure(data, max_depth)] with [levels] levels left:
    the recursive calls are made with one level less, and no level left is
    [max_depth <= 0]. *)
Fixpoint analyze_levels (levels : nat) (data : value) : value :=
  match levels with
  | O => VDict [("type", VStr (type_name data)); ("truncated", VBool true)]
  | S levels' =>
      match data with
      | VDict items =>
          VDict [ ("type", VStr "dict");
                  ("keys", VList (List.map (fun kv => VStr (fst kv)) (firstn 10 items)));
                  ("key_count", VInt (Z.of_nat (List.length items)));
                  ("sample_values",
                   VDict (List.map (fun kv => (fst kv, analyze_levels levels' (snd kv)))
                                   (firstn 3 items))) ]
      | VList items =>
          VDict [ ("type", VStr "list");
                  ("length", VInt (Z.of_nat (List.length items)));
                  ("sample_items",
                   VList (List.map (analyze_levels levels') (firstn 3 items))) ]
      | VStr s =>
          VDict [("type", VStr "str"); ("value", VStr (slice_to s 100))]
      | other =>
          VDict [("type", VStr (type_name other)); ("value", other)]
      end
  end.

Definition _analyze_json_structure (data : value) (max_depth : Z) : value :=
  analyze_levels (Z.to_nat max_depth) data.

(** How deep the lists and dictionaries of a value are nested. *)
Fixpoint nesting (v : value) : nat :=
  match v with
  | VList items => S (list_max (List.map nesting items))
  | VDict items => S (list_max (List.map (fun kv => nesting (snd kv)) items))
  | _ => O
  end.

(** ** tools/data_inspector.py: column categories *)

Definition _categorize_column_type (dtype_str : string) : string :=
  let dtype_lower := lower dtype_str in
  if existsb (fun t => contains t dtype_lower) ["int"; "float"; "number"]
  then "numeric"
  else if existsb (fun t => contains t dtype_lower) ["datetime"; "timestamp"; "date"]
  then "datetime"
  else if existsb (fun t => contains t dtype_lower) ["bool"; "boolean"]
  then "boolean"
  else "text".

(** ** tools/data_inspector.py: the entry point and its three inspectors *)

Module DataInspector.

(** [r] then [k], for functions that return or raise. *)
Definition and_then {A B} (r : exn + A) (k : A -> exn + B) : exn + B :=
  match r with
  | inl e => inl e
  | inr a => k a
  end.

(** [data.get(key, default_value)]: only a dictionary has the method. *)
Definition get (data : value) (key : string) (default_value : value) : exn + value :=
  match data with
  | VDict items => inr (default default_value (items_get items key))
  | _ => inl (AttributeError
                ("'" +:+ type_name data +:+ "' object has no attribute 'get'"))
  end.

(** [v == s] for a string literal [s]. *)
Definition is_str (v : value) (s : string) : bool :=
  match v with VStr t => String.eqb t s | _ => false end.

(** [metadata.update(extra)], and the unpacking of [extra] at the end of a
    dictionary display. *)
Definition items_update (metadata extra : list (string * value))
    : list (string * value) :=
  fold_left (fun acc kv => Json.items_set acc (fst kv) (snd kv)) extra metadata.

(** The analyses of the module that the inspectors call: each returns the
    entries it contributes, or raises.  [_get_data_summary] returns the
    summary dictionary. *)
Record Analyses := {
  _analyze_html_data : value -> exn + list (string * value);
  _analyze_json_data : value -> exn + list (string * value);
  _analyze_csv_data : value -> exn + list (string * value);
  _analyze_text_data : value -> exn + list (string * value);
  _analyze_dataframe_data : value -> exn + list (string * value);
  _analyze_json_file_data : value -> exn + list (string * value);
  _analyze_text_file_data : value -> exn + list (string * value);
  _get_data_summary : value -> exn + value
}.

Section Inspectors.
Context (A : Analyses).

Definition _inspect_web_data (data : value) : exn + value :=
  and_then (get data "success" (VBool false)) (fun success =>
  if negb (truthy success) then
    and_then (get data "error" (VStr "Web scraping failed")) (fun error =>
    inr (VDict [("success", VBool false); ("error", error);
                ("source_type", VStr "url")]))
  else
    and_then (get data "content_type" (VStr "unknown")) (fun content_type =>
    and_then (get data "url" (VStr "")) (fun url =>
    let metadata :=
      [("success", VBool true); ("source_type", VStr "url");
       ("content_type", content_type); ("url", url)] in
    and_then
      (if is_str content_type "html" then _analyze_html_data A data
       else if is_str content_type "json" then _analyze_json_data A data
       else if is_str content_type "csv" then _analyze_csv_data A data
       else _analyze_text_data A data)
      (fun extra => inr (VDict (items_update metadata extra)))))).

Definition _inspect_single_file (file_data : value) : exn + list (string * value) :=
  and_then (get file_data "type" (VStr "unknown")) (fun file_type =>
  and_then (get file_data "filename" (VStr "unknown")) (fun filename =>
  let metadata := [("filename", filename); ("file_type", file_type)] in
  if is_str file_type "csv" || is_str file_type "excel" then
    and_then (_analyze_dataframe_data A file_data)
             (fun extra => inr (items_update metadata extra))
  else if is_str file_type "json" then
    and_then (_analyze_json_file_data A file_data)
             (fun extra => inr (items_update metadata extra))
  else if is_str file_type "text" then
    and_then (_analyze_text_file_data A file_data)
             (fun extra => inr (items_update metadata extra))
  else
    and_then (get file_data "error" (VStr "Unknown file type")) (fun error =>
    inr (Json.items_set metadata "error" error)))).

(** [for file_data in data: files_metadata.append(...)]. *)
Fixpoint inspect_files (data : list value) : exn + list value :=
  match data with
  | [] => inr []
  | file_data :: rest =>
      and_then (_inspect_single_file file_data) (fun metadata =>
      and_then (inspect_files rest) (fun files_metadata =>
      inr (VDict metadata :: files_metadata)))
  end.

Definition _inspect_file_data (data : value) : exn + value :=
  match data with
  | VList files =>
      and_then (inspect_files files) (fun files_metadata =>
      inr (VDict [("success", VBool true); ("source_type", VStr "file");
                  ("file_count", VInt (Z.of_nat (List.length files)));
                  ("files", VList files_metadata)]))
  | _ =>
      and_then (_inspect_single_file data) (fun single_file_meta =>
      inr (VDict (items_update
                    [("success", VBool true); ("source_type", VStr "file");
                     ("file_count", VInt 1)]
                    single_file_meta)))
  end.

Definition _inspect_generic_data (data source_type : value) : exn + value :=
  and_then (_get_data_summary A data) (fun summary =>
  inr (VDict [("success", VBool true); ("source_type", source_type);
              ("data_type", VStr (type_name data)); ("summary", summary)])).

(** The entry point: it catches every exception of the inspectors. *)
Definition inspect_data (data source_type : value) : value :=
  match (if is_str source_type "url" then _inspect_web_data data
         else if is_str source_type "file" then _inspect_file_data data
         else _inspect_generic_data data source_type) with
  | inr metadata => metadata
  | inl e =>
      VDict [("success", VBool false); ("error", VStr (str_exn e));
             ("source_type", source_type)]
  end.

End Inspectors.

(** Analyses that contribute nothing, for the examples. *)
Definition no_analyses : Analyses :=
  {| _analyze_html_data := fun _ => inr [];
     _analyze_json_data := fun _ => inr [];
     _analyze_csv_data := fun _ => inr [];
     _analyze_text_data := fun _ => inr [];
     _analyze_dataframe_data := fun _ => inr [];
     _analyze_json_file_data := fun _ => inr [];
     _analyze_text_file_data := fun _ => inr [];
     _get_data_summary := fun data =>
       inr (VDict [("type", VStr (type_name data))]) |}.

End DataInspector.

(** The answer of the scraper to a page it could not fetch. *)
Definition failed_scrape : value :=
  VDict [("success", VBool false); ("error", VStr "Request failed: 404 Not Found");
         ("url", VStr "http://a.io/missing")].

(** ** tools/web_scraper.py: text cleaning *)

(** [re.sub(r'\s+', ' ', text)]: every maximal run of white space becomes
    one space. *)
Fixpoint collapse_whitespace (text : string) : string :=
  match text with
  | "" => ""
  | String c rest =>
      if isspace c then
        match rest with
        | "" => " "
        | String d _ =>
            if isspace d then collapse_whitespace rest
            else String " " (collapse_whitespace rest)
        end
      else String c (collapse_whitespace rest)
  end.

Definition TRUNCATED_SUFFIX : string := "... [TRUNCATED]".

(** A character that is not white space, or the space itself. *)
Definition plain (c : ascii) : bool := negb (isspace c) || Ascii.eqb c " ".

Definition _clean_text (text : string) : string :=
  let text := collapse_whitespace text in
  let text := strip text in
  let max_length := 50000 in
  if len text >? max_length then slice_to text max_length +:+ TRUNCATED_SUFFIX
  else text.

(** [s.split()]: the maximal runs of characters that are not white space. *)
Fixpoint split (s : string) : list string :=
  match s with
  | "" => []
  | String c rest =>
      if isspace c then split rest
      else
        match rest with
        | "" => [String c ""]
        | String d _ =>
            if isspace d then String c "" :: split rest
            else
              match split rest with
              | word :: words => String c word :: words
              | [] => [String c ""]
              end
        end
  end.

(** [s.split(sep)] for a separator of one character. *)
Fixpoint split_on (sep : ascii) (s : string) : list string :=
  match s with
  | "" => [""]
  | String c rest =>
      if Ascii.eqb c sep then "" :: split_on sep rest
      else
        match split_on sep rest with
        | field :: fields => String c field :: fields
        | [] => [String c ""]
        end
  end.

Definition _parse_text_content (text url content_type : string) : value :=
  let cleaned_text := _clean_text text in
  VDict [ ("success", VBool true);
          ("url", VStr url);
          ("content_type", VStr content_type);
          ("text_content", VStr cleaned_text);
          ("word_count", VInt (Z.of_nat (List.length (split cleaned_text))));
          ("line_count",
           VInt (Z.of_nat (List.length (split_on "010"%char cleaned_text)))) ].

(** ** main.py: the HTTP endpoint *)

(** An uploaded file as the web framework hands it over: its file name and
    the bytes that [read()] returns. *)
Record FileStorage := { storage_filename : string; stream : list Byte.byte }.

(** The parts of a request that [analyze_data] reads: [request.files], by
    field name in the order of arrival, each field name once, and
    [request.form]. *)
Record Request := {
  request_files : list (string * FileStorage);
  request_form : gmap string string
}.

(** [jsonify(...)] of an error message or of the orchestrator's result,
    with the status code. *)
Inductive Body :=
  | JsonError (message : string)
  | JsonResult (result : envelope).

Record Response := { body : Body; status_code : Z }.

(** [request.files[key]]. *)
Fixpoint files_get (files : list (string * FileStorage)) (key : string)
    : option FileStorage :=
  match files with
  | [] => None
  | (k, f) :: rest => if String.eqb k key then Some f else files_get rest key
  end.

(** [for key in request.files: ...], over the field names [keys]. *)
Fixpoint collect_data_files (files : list (string * FileStorage))
    (keys : list string) (questions_key : string) : list file_info :=
  match keys with
  | [] => []
  | key :: rest =>
      if negb (String.eqb key questions_key) then
        match files_get files key with
        | Some data_file =>
            if nonempty (storage_filename data_file) then
              {| filename := storage_filename data_file; content := stream data_file |}
              :: collect_data_files files rest questions_key
            else collect_data_files files rest questions_key
        | None => collect_data_files files rest questions_key
        end
      else collect_data_files files rest questions_key
  end.

Definition NO_QUESTIONS_FILE : string :=
  "No questions file provided. Expected field 'questions' or 'questions.txt'".

Section Server.
(** [decode_utf8] is [bytes.decode('utf-8')], which raises on bytes that are
    not UTF-8. *)
Context {W : Type} (E : Env W) (orchestrator : Orchestrator)
        (decode_utf8 : list Byte.byte -> exn + string).

Definition analyze_data (request : Request) : M W Response :=
  try_except
    (let files := request_files request in
     let questions_key :=
       if bool_decide (is_Some (files_get files "questions")) then Some "questions"
       else if bool_decide (is_Some (files_get files "questions.txt"))
            then Some "questions.txt"
       else None in
     match questions_key with
     | None => ret {| body := JsonError NO_QUESTIONS_FILE; status_code := 400 |}
     | Some questions_key =>
         match files_get files questions_key with
         | None => raise (KeyError questions_key)
         | Some questions_file =>
             if String.eqb (storage_filename questions_file) "" then
               ret {| body := JsonError "No questions file selected";
                      status_code := 400 |}
             else
               match decode_utf8 (stream questions_file) with
               | inl e => raise e
               | inr questions_content =>
                   let data_files :=
                     collect_data_files files (List.map fst files) questions_key in
                   let data_url := default "" (request_form request !! "url") in
                   result <- process_request E orchestrator questions_content
                               data_files data_url ;;
                   ret {| body := JsonResult result; status_code := 200 |}
               end
         end
     end)
    (fun e =>
       ret {| body := JsonError ("Internal server error: " +:+ str_exn e);
              status_code := 500 |}).
End Server.

(** ** Further readings of a trace *)

Definition is_read_data (ev : event) : bool :=
  match ev with EvReadData _ _ => true | _ => false end.

Definition is_inspect (ev : event) : bool :=
  match ev with EvInspect _ _ => true | _ => false end.

Definition is_sleep (ev : event) : bool :=
  match ev with EvSleep _ => true | _ => false end.

(** The events of the execution engine and of the bookkeeping of the loop. *)
Definition is_engine_event (ev : event) : bool :=
  match ev with
  | EvPrepare _ | EvValidate _ | EvExecute _ | EvCorrect _ _ | EvAttemptFailed _ _ => true
  | _ => false
  end.

(** A model call carries the system message [system_message] and the
    prompt [prompt]; any other event passes. *)
Definition sends (system_message : option string) (prompt : string) (ev : event)
    : Prop :=
  match ev with
  | EvModelCall s p _ => s = system_message /\ p = prompt
  | _ => True
  end.

(** The outcome of a run does not matter, its trace satisfies [P]. *)
Definition keeps {A} (P : list event -> Prop) (out : outcome A) (tr : list event)
    : Prop := P tr.

(** [P] holds of the empty trace and of two traces put end to end. *)
Definition additive (P : list event -> Prop) : Prop :=
  P [] /\ forall t1 t2, P t1 -> P t2 -> P (t1 ++ t2)%list.

(** The events of one kind in [tr] are at most [n]. *)
Definition at_most (p : event -> bool) (n : nat) (tr : list event) : Prop :=
  (count p tr <= n)%nat.

(** The calls of the three data connectors. *)
Definition is_connector_event (ev : event) : bool :=
  is_scrape ev || is_read_data ev || is_inspect ev.

(** The model calls of [tr] are at most [rate] per correction request. *)
Definition calls_per_correction (rate : nat) (tr : list event) : Prop :=
  (count is_model_call tr <= rate * count is_correct tr)%nat.

(** The trace of a call whose model calls fail with [errors], in order, and
    then succeed with [reply]: a sleep follows every failed call. *)
Fixpoint recovery_trace (system_message : option string) (prompt : string)
    (retry_delay attempt : Z) (errors : list exn) (reply : response) : list event :=
  match errors with
  | [] => [EvModelCall system_message prompt (inr reply)]
  | e :: rest =>
      EvModelCall system_message prompt (inl e) ::
      EvSleep (retry_delay * 2 ^ attempt) ::
      recovery_trace system_message prompt retry_delay (attempt + 1) rest reply
  end.

(** From the state [w], the model fails with [errors], in order, the wait
    of [retry_delay * 2^attempt] seconds after each failure is granted, and
    the model then answers [reply], which leaves the state [w']. *)
Fixpoint replies_after {W} (E : Env W) (system_message : option string)
    (prompt : string) (retry_delay attempt : Z) (errors : list exn)
    (reply : response) (w w' : W) : Prop :=
  match errors with
  | [] => generate_content E system_message prompt w = (inr reply, w')
  | e :: rest =>
      exists w1 w2,
        generate_content E system_message prompt w = (inl e, w1) /\
        os_wait E (retry_delay * 2 ^ attempt) w1 = (inr tt, w2) /\
        replies_after E system_message prompt retry_delay (attempt + 1) rest reply w2 w'
  end.

(** Every prompt file is missing. *)
Definition templates_missing {W} (E : Env W) : Prop :=
  forall path w, exists message w',
    read_template_file E path w = (inl (FileNotFoundError message), w').

(** [safe_substitute] leaves a template without a dollar sign as it is. *)
Definition substitutes_at_dollar {W} (E : Env W) : Prop :=
  forall template bindings,
    contains "$" template = false -> safe_substitute E template bindings = template.

(** The characters of a string satisfy [p]. *)
Fixpoint all_chars (p : ascii -> bool) (s : string) : bool :=
  match s with
  | "" => true
  | String c s' => p c && all_chars p s'
  end.

(** The scripted world with prompt files that exist and cannot be read. *)
Definition locked_templates : Env script :=
  {| generate_content := next_reply;
     os_wait := os_wait scripted;
     read_template_file := fun path w =>
       (inl (OtherError "PermissionError"
               ("[Errno 13] Permission denied: '" +:+ path +:+ "'")), w);
     safe_substitute := safe_substitute scripted;
     json_loads := json_loads scripted;
     json_dumps_indent := json_dumps_indent scripted;
     json_dumps_default_str := json_dumps_default_str scripted;
     scrape_url := scrape_url scripted;
     inspect_data := inspect_data scripted;
     process_file := process_file scripted;
     prepare_code := prepare_code scripted;
     validate_code_syntax := validate_code_syntax scripted;
     execute_code := execute_code scripted |}.

(** A server without a credential, and a request that holds a questions
    file only. *)
Definition missing_key_orchestrator : Orchestrator :=
  {| llm_handler := {| api_key := None; max_retries := 3; retry_delay := 1 |};
     max_correction_attempts := 3 |}.

Definition plain_request : Request :=
  {| request_files := [("questions.txt",
                        {| storage_filename := "questions.txt"; stream := [] |})];
     request_form := ∅ |}.

(** The script of a model that fails twice before it answers. *)
Definition recovering_script : script :=
  {| model_replies := [inl model_unavailable; inl model_unavailable; inr " 4 "];
     syntax_checks := []; runs := [] |}.

(** What every run of the retry loop does, whatever the model does:
    [remaining] bounds the calls, a sleep comes between two calls only, the
    sleeps are the first delays of the back-off, and every call carries the
    same system message and prompt. *)
Definition retry_post (h : LLMHandler) (remaining : nat) (attempt : Z)
    (sm : option string) (p : string) (out : outcome string) (tr : list event)
    : Prop :=
  out <> OutOfFuel /\
  (count is_model_call tr <= remaining)%nat /\
  ((1 <= remaining)%nat ->
   (S (List.length (sleeps tr)) <= count is_model_call tr)%nat) /\
  (remaining = O -> tr = []) /\
  sleeps tr = backoff (retry_delay h) attempt (List.length (sleeps tr)) /\
  Forall (sends sm p) tr /\
  Forall (fun ev => is_model_call ev || is_sleep ev = true) tr.

(* ===================================================================== *)
(** * Part II. Properties                                                 *)
(* ===================================================================== *)

(** ** Text primitives *)

Lemma length_append (a b : string) :
  String.length (a +:+ b) = (String.length a + String.length b)%nat.
Proof. induction a as [|c a IH]; simpl; [reflexivity | now rewrite IH]. Qed.

Lemma length_take (n : nat) (s : string) :
  (n <= String.length s)%nat -> String.length (take n s) = n.
Proof.
  revert s; induction n as [|n IH]; intros [|c s] H; simpl in *; try lia.
  now rewrite IH by lia.
Qed.

Lemma length_drop (n : nat) (s : string) :
  String.length (drop n s) = (String.length s - n)%nat.
Proof.
  revert s; induction n as [|n IH]; intros [|c s]; simpl; try lia.
  apply IH.
Qed.

Lemma take_append (a b : string) : take (String.length a) (a +:+ b) = a.
Proof. induction a as [|c a IH]; simpl; [now destruct b | now rewrite IH]. Qed.

Lemma drop_append (a b : string) : drop (String.length a) (a +:+ b) = b.
Proof. induction a as [|c a IH]; simpl; [reflexivity | exact IH]. Qed.

Lemma append_assoc (a b c : string) : (a +:+ b) +:+ c = a +:+ (b +:+ c).
Proof. induction a as [|x a IH]; simpl; [reflexivity | now rewrite IH]. Qed.

Lemma len_nonneg (s : string) : 0 <= len s.
Proof. unfold len; lia. Qed.

(** ** Prompt budgeting *)

Lemma marker_length : String.length TRUNCATION_MARKER = 34%nat.
Proof. reflexivity. Qed.

Lemma truncate_prompt_within_budget (prompt : string) (budget : Z) :
  estimate_tokens prompt <= budget -> truncate_prompt prompt budget = prompt.
Proof.
  intros H. unfold truncate_prompt.
  destruct (Z.leb_spec (estimate_tokens prompt) budget); [reflexivity | lia].
Qed.

(** Above a positive budget the result is the head of the prompt, the
    marker and the tail of the prompt, each half [2 * budget] long. *)
Lemma truncate_prompt_over_budget (prompt : string) (budget : Z) :
  0 < budget -> budget < estimate_tokens prompt ->
  truncate_prompt prompt budget =
    take (Z.to_nat (2 * budget)) prompt +:+ TRUNCATION_MARKER +:+
    drop (String.length prompt - Z.to_nat (2 * budget)) prompt.
Proof.
  intros Hpos Hover. unfold truncate_prompt, estimate_tokens in *.
  pose proof (len_nonneg prompt) as Hlen.
  assert (Hbig : 4 * budget + 4 <= len prompt).
  { pose proof (Z.mul_div_le (len prompt) 4 ltac:(lia)). lia. }
  destruct (Z.leb_spec (len prompt / 4) budget); [lia |].
  destruct (Z.leb_spec (len prompt) (budget * 4)); [lia |].
  replace (budget * 4 / 2) with (2 * budget)
    by (apply Z.div_unique_exact; lia).
  unfold slice_to, slice_from, slice_bound.
  destruct (Z.ltb_spec (2 * budget) 0); [lia |].
  destruct (Z.ltb_spec (- (2 * budget)) 0); [| lia].
  rewrite Z.min_l by lia. rewrite Z.max_r by lia.
  replace (Z.to_nat (len prompt + - (2 * budget)))
    with (String.length prompt - Z.to_nat (2 * budget))%nat
    by (unfold len; lia).
  reflexivity.
Qed.

(** C2 (as amended): truncation leaves a prompt within the budget
    unchanged; for a budget of at least one token and a prompt whose
    estimate exceeds it, the result is [budget * 4] characters of the prompt
    plus the marker, a line-wrapped ["... [TRUNCATED FOR LENGTH] ..."] of 34
    characters: the first [2 * budget] characters of the result are the
    first [2 * budget] of the prompt, the last [2 * budget] are the last
    [2 * budget] of the prompt, and the marker stands between them. *)
Theorem truncate_prompt_shape (prompt : string) (budget : Z) :
  (estimate_tokens prompt <= budget -> truncate_prompt prompt budget = prompt) /\
  (0 < budget -> budget < estimate_tokens prompt ->
   let result := truncate_prompt prompt budget in
   let half := Z.to_nat (2 * budget) in
   len result = budget * 4 + len TRUNCATION_MARKER /\
   len TRUNCATION_MARKER = 34 /\
   take half result = take half prompt /\
   drop (String.length result - half) result =
     drop (String.length prompt - half) prompt /\
   String.length (take half prompt) = half /\
   String.length (drop (String.length prompt - half) prompt) = half /\
   result = take half prompt +:+ TRUNCATION_MARKER +:+
            drop (String.length prompt - half) prompt).
Proof.
  split; [apply truncate_prompt_within_budget |].
  intros Hpos Hover result half.
  assert (Hbig : (2 * half + 4 <= String.length prompt)%nat).
  { unfold estimate_tokens, len in Hover.
    pose proof (Z.mul_div_le (Z.of_nat (String.length prompt)) 4 ltac:(lia)).
    subst half; lia. }
  assert (Hres : result = take half prompt +:+ TRUNCATION_MARKER +:+
                          drop (String.length prompt - half) prompt)
    by (apply truncate_prompt_over_budget; assumption).
  assert (Hhead : String.length (take half prompt) = half)
    by (apply length_take; lia).
  assert (Htail : String.length (drop (String.length prompt - half) prompt) = half)
    by (rewrite length_drop; lia).
  assert (Hlen : String.length result = (half + 34 + half)%nat).
  { rewrite Hres, !length_append, Hhead, Htail, marker_length. lia. }
  repeat split; try assumption.
  - unfold len. rewrite Hlen, marker_length. subst half. lia.
  - rewrite Hres. rewrite <- Hhead at 1. rewrite take_append.
    reflexivity.
  - rewrite Hlen, Hres.
    replace (half + 34 + half - half)%nat
      with (String.length (take half prompt +:+ TRUNCATION_MARKER))
      by (rewrite length_append, Hhead, marker_length; lia).
    rewrite <- append_assoc. apply drop_append.
Qed.

Lemma truncate_prompt_shape_witness :
  truncate_prompt "abc" 1 = "abc" /\
  len (truncate_prompt "abcdefgh" 1) = 1 * 4 + len TRUNCATION_MARKER.
Proof.
  split.
  - apply (proj1 (truncate_prompt_shape "abc" 1)). vm_compute. discriminate.
  - apply (proj2 (truncate_prompt_shape "abcdefgh" 1)); reflexivity.
Defined.

(** C2 (as stated) fails: with a budget of one token the result is 38
    characters long, not [4] plus the 28 characters of the marker as the
    specification spells it; and with a budget of zero the whole prompt
    follows the marker, so that the length is not [0] plus a marker. *)
Lemma truncate_prompt_counterexample :
  (1 < estimate_tokens "abcdefgh" /\
   len (truncate_prompt "abcdefgh" 1) <> 1 * 4 + len SPEC_MARKER) /\
  (0 < estimate_tokens "abcd" /\
   len (truncate_prompt "abcd" 0) <> 0 * 4 + len TRUNCATION_MARKER /\
   len (truncate_prompt "abcd" 0) <> 0 * 4 + len SPEC_MARKER).
Proof. vm_compute. repeat split; discriminate. Qed.

(** ** Source classification *)

Lemma nonempty_rstrip (s : string) : nonempty (rstrip s) = has_visible_char s.
Proof.
  induction s as [|c s IH]; simpl; [reflexivity |].
  destruct (rstrip s) as [|c' r]; simpl in *.
  - rewrite <- IH. destruct (isspace c); reflexivity.
  - rewrite <- IH. now rewrite orb_true_r.
Qed.

Lemma has_visible_char_lstrip (s : string) :
  has_visible_char (lstrip s) = has_visible_char s.
Proof.
  induction s as [|c s IH]; simpl; [reflexivity |].
  destruct (isspace c) eqn:Hc; simpl; rewrite ?Hc; [exact IH | reflexivity].
Qed.

(** [data_url and data_url.strip()] holds exactly when [data_url] has a
    character that is not white space. *)
Lemma url_given_iff_visible (s : string) :
  nonempty s && nonempty (strip s) = has_visible_char s.
Proof.
  unfold strip. rewrite nonempty_rstrip, has_visible_char_lstrip.
  destruct s; reflexivity.
Qed.

Lemma prefix_spec (a s : string) :
  String.prefix a s = true <-> exists post, s = a +:+ post.
Proof.
  revert s; induction a as [|c a IH]; intros s; simpl.
  - destruct s; split; eauto.
  - destruct s as [|d s]; simpl.
    + split; [discriminate | intros [post H]; discriminate].
    + destruct (ascii_dec c d) as [->|Hne].
      * rewrite IH. split; intros [post H]; exists post.
        -- now rewrite H.
        -- now inversion H.
      * split; [discriminate | intros [post H]; inversion H; congruence].
Qed.

(** [sub in s] holds exactly when [s] is some text, then [sub], then some
    text. *)
Lemma contains_spec (sub s : string) :
  contains sub s = true <-> exists pre post, s = pre +:+ sub +:+ post.
Proof.
  induction s as [|c s IH]; cbn [contains].
  - rewrite orb_false_r, prefix_spec. split.
    + intros [post H]. exists "", post. exact H.
    + intros (pre & post & H). destruct pre; simpl in H; [eauto | discriminate].
  - rewrite orb_true_iff, prefix_spec, IH. split.
    + intros [[post H] | (pre & post & H)].
      * exists "", post. exact H.
      * exists (String c pre), post. simpl. now rewrite H.
    + intros (pre & post & H). destruct pre as [|d pre]; simpl in H.
      * left. eauto.
      * right. inversion H. eauto.
Qed.

(** Looking for a single character. *)
Lemma contains_char_cons (a d : ascii) (s : string) :
  contains (String a "") (String d s) =
    (Ascii.eqb a d || contains (String a "") s).
Proof.
  cbn [contains String.prefix].
  destruct (ascii_dec a d) as [->|Hne].
  - rewrite Ascii.eqb_refl. now destruct s.
  - destruct (Ascii.eqb_spec a d); [contradiction | reflexivity].
Qed.

(** C3 (as amended): the source type is [url] when [data_url] has a
    character that is not white space; else [file] when a file was
    uploaded; else [url_in_text] when the question, in lower case, contains
    "http" or "www."; else [text_only]. *)
Theorem analyze_data_source_chain (questions : string)
    (data_files : list file_info) (data_url : string) :
  _analyze_data_source questions data_files data_url =
    if has_visible_char data_url then SrcUrl
    else match data_files with
         | _ :: _ => SrcFile
         | [] =>
             if contains "http" (lower questions) || contains "www." (lower questions)
             then SrcUrlInText
             else SrcTextOnly
         end.
Proof.
  unfold _analyze_data_source. rewrite url_given_iff_visible.
  destruct (has_visible_char data_url); [reflexivity |].
  destruct data_files; reflexivity.
Qed.

(** C3 (as stated) fails: a [data_url] made of one space is non-empty, and
    the request is not classified as [url]. *)
Lemma analyze_data_source_counterexample :
  nonempty " " = true /\
  classify_as_specified "What is 2+2?" [] " " = SrcUrl /\
  _analyze_data_source "What is 2+2?" [] " " = SrcTextOnly /\
  _analyze_data_source "see www.example.com" [] " " = SrcUrlInText.
Proof. repeat split. Qed.

(** The four cases of the specification's own examples. *)
Example analyze_data_source_examples :
  _analyze_data_source "q" [] "http://x" = SrcUrl /\
  _analyze_data_source "q" [{| filename := "a.csv"; content := [] |}] "" = SrcFile /\
  _analyze_data_source "look at WWW.example.com" [] "" = SrcUrlInText /\
  _analyze_data_source "What is 2+2? Respond as a json array." [] "" = SrcTextOnly.
Proof. repeat split. Qed.

(** ** The monad of effects *)

Lemma count_app (p : event -> bool) (t1 t2 : list event) :
  count p (t1 ++ t2) = (count p t1 + count p t2)%nat.
Proof. unfold count. now rewrite List.filter_app, List.length_app. Qed.

Lemma total_app (l1 l2 : list Z) : total (l1 ++ l2) = total l1 + total l2.
Proof. induction l1 as [|x l1 IH]; simpl; [reflexivity | rewrite IH; lia]. Qed.

(** How [bind], [try_except] and [catching] run, given how their parts run. *)
Section Running.
Context {W A B : Type}.
Implicit Types (m : M W A) (k : A -> M W B) (w : W) (tr : list event).

Lemma run_bind_ret m k w a w1 t1 r w2 t2 tr :
  m w = (Ret a, w1, t1) -> k a w1 = (r, w2, t2) -> tr = (t1 ++ t2)%list ->
  bind m k w = (r, w2, tr).
Proof. intros Hm Hk ->. unfold bind. now rewrite Hm, Hk. Qed.

Lemma run_bind_raise m k w e w1 t1 :
  m w = (Raise e, w1, t1) -> bind m k w = (Raise e, w1, t1).
Proof. intros Hm. unfold bind. now rewrite Hm. Qed.

Lemma run_bind_out_of_fuel m k w w1 t1 :
  m w = (OutOfFuel, w1, t1) -> bind m k w = (OutOfFuel, w1, t1).
Proof. intros Hm. unfold bind. now rewrite Hm. Qed.

Lemma run_catching_ret m w a w1 t1 :
  m w = (Ret a, w1, t1) -> catching m w = (Ret (inr a), w1, t1).
Proof. intros Hm. unfold catching. now rewrite Hm. Qed.

Lemma run_catching_raise m w e w1 t1 :
  m w = (Raise e, w1, t1) -> catching m w = (Ret (inl e), w1, t1).
Proof. intros Hm. unfold catching. now rewrite Hm. Qed.

Lemma run_catching_out_of_fuel m w w1 t1 :
  m w = (OutOfFuel, w1, t1) -> catching m w = (OutOfFuel, w1, t1).
Proof. intros Hm. unfold catching. now rewrite Hm. Qed.

Lemma run_try_ret m (hd : exn -> M W A) w a w1 t1 :
  m w = (Ret a, w1, t1) -> try_except m hd w = (Ret a, w1, t1).
Proof. intros Hm. unfold try_except. now rewrite Hm. Qed.

Lemma run_try_raise m (hd : exn -> M W A) w e w1 t1 r w2 t2 tr :
  m w = (Raise e, w1, t1) -> hd e w1 = (r, w2, t2) -> tr = (t1 ++ t2)%list ->
  try_except m hd w = (r, w2, tr).
Proof. intros Hm Hh ->. unfold try_except. now rewrite Hm, Hh. Qed.

Lemma run_try_out_of_fuel m (hd : exn -> M W A) w w1 t1 :
  m w = (OutOfFuel, w1, t1) -> try_except m hd w = (OutOfFuel, w1, t1).
Proof. intros Hm. unfold try_except. now rewrite Hm. Qed.
End Running.

Lemma run_sleep {W} (E : Env W) (seconds : Z) (w w' : W) :
  0 <= seconds <= SLEEP_MAX -> os_wait E seconds w = (inr tt, w') ->
  sleep E seconds w = (Ret tt, w', [EvSleep seconds]).
Proof.
  intros [Hlow Hhigh] Hwait. unfold sleep.
  replace ((seconds <? - SLEEP_MAX) || (SLEEP_MAX <? seconds)) with false
    by (unfold SLEEP_MAX in *; symmetry; apply orb_false_iff;
        split; apply Z.ltb_ge; lia).
  replace (seconds <? 0) with false by (symmetry; apply Z.ltb_ge; lia).
  now rewrite Hwait.
Qed.

(** ** The model gateway *)

(** The delays of the back-off grow with the attempt number. *)
Lemma backoff_delay_bounds (retry_delay attempt last : Z) :
  0 <= retry_delay -> 0 <= attempt <= last ->
  0 <= retry_delay * 2 ^ attempt <= retry_delay * 2 ^ last.
Proof.
  intros Hdelay Hatt. split.
  - apply Z.mul_nonneg_nonneg; [assumption | apply Z.pow_nonneg; lia].
  - apply Z.mul_le_mono_nonneg_l; [assumption |].
    apply Z.pow_le_mono_r; lia.
Qed.

Section GatewayFacts.
Context {W : Type} (E : Env W) (h : LLMHandler).

Lemma call_llm_from_S remaining attempt system_message prompt :
  call_llm_from E h (S remaining) attempt system_message prompt =
    (r <- catching (model_call E system_message prompt) ;;
     match r with
     | inr reply => ret (response_text reply)
     | inl e =>
         if attempt <? max_retries h - 1 then
           sleep E (retry_delay h * 2 ^ attempt) ;;;
           call_llm_from E h remaining (attempt + 1) system_message prompt
         else raise e
     end).
Proof. reflexivity. Qed.

Lemma run_model_call_fail system_message prompt w e w' :
  generate_content E system_message prompt w = (inl e, w') ->
  catching (model_call E system_message prompt) w =
    (Ret (inl e), w', [EvModelCall system_message prompt (inl e)]).
Proof.
  intros H. apply run_catching_raise. unfold model_call. now rewrite H.
Qed.

Lemma run_model_call_ok system_message prompt w r w' :
  generate_content E system_message prompt w = (inr r, w') ->
  catching (model_call E system_message prompt) w =
    (Ret (inr r), w', [EvModelCall system_message prompt (inr r)]).
Proof.
  intros H. apply run_catching_ret. unfold model_call. now rewrite H.
Qed.

(** With failing model calls only, and waits that are accepted and
    granted, the [remaining + 1] attempts from number [attempt] on are all
    made, a sleep follows each of them but the last, and the error of the
    last call is raised. *)
Lemma call_llm_from_all_fail (remaining : nat) :
  model_always_fails E -> 0 <= retry_delay h ->
  retry_delay h * 2 ^ (max_retries h - 2) <= SLEEP_MAX ->
  waits_granted E (retry_delay h * 2 ^ (max_retries h - 2)) ->
  forall attempt system_message prompt w,
    0 <= attempt -> attempt + Z.of_nat (S remaining) = max_retries h ->
    exists errors e w',
      fails_with E system_message prompt (retry_delay h) attempt (errors ++ [e]) w w' /\
      call_llm_from E h (S remaining) attempt system_message prompt w =
        (Raise e, w',
         retry_trace system_message prompt (retry_delay h) attempt (errors ++ [e])) /\
      List.length errors = remaining.
Proof.
  intros Hfail Hdelay Hfits Hgranted.
  induction remaining as [|n IH]; intros attempt sm prompt w Hatt Hsum;
    destruct (Hfail sm prompt w) as (e & w1 & Hcall);
    rewrite call_llm_from_S.
  - exists [], e, w1. split; [| split; [| reflexivity]].
    + exists w1. split; [exact Hcall | reflexivity].
    + eapply run_bind_ret; [apply run_model_call_fail, Hcall | | reflexivity].
      destruct (Z.ltb_spec attempt (max_retries h - 1)); [lia | reflexivity].
  - pose proof (backoff_delay_bounds (retry_delay h) attempt (max_retries h - 2)
                  Hdelay ltac:(lia)) as Hbounds.
    destruct (Hgranted (retry_delay h * 2 ^ attempt) w1 Hbounds) as [w2 Hwait].
    destruct (IH (attempt + 1) sm prompt w2) as (errors & e' & w' & Hpath & Hrun & Hlen);
      [lia | lia |].
    exists (e :: errors), e', w'. split; [| split; [| simpl; now rewrite Hlen]].
    + change ((e :: errors) ++ [e'])%list with (e :: (errors ++ [e']))%list.
      cbn [fails_with]. exists w1. split; [exact Hcall |].
      destruct (errors ++ [e'])%list eqn:Hrest; [destruct errors; discriminate |].
      exists w2. split; [exact Hwait | exact Hpath].
    + eapply run_bind_ret; [apply run_model_call_fail, Hcall | | reflexivity].
      destruct (Z.ltb_spec attempt (max_retries h - 1)); [| lia].
      eapply run_bind_ret; [apply run_sleep; [lia | exact Hwait] | exact Hrun |].
      simpl. destruct errors; reflexivity.
Qed.
End GatewayFacts.
Lemma retry_trace_calls sm p d a errors :
  count is_model_call (retry_trace sm p d a errors) = List.length errors.
Proof.
  revert a; induction errors as [|e rest IH]; intros a; [reflexivity |].
  destruct rest as [|e' rest']; [reflexivity |].
  specialize (IH (a + 1)). unfold count in *. simpl in *. now rewrite IH.
Qed.

Lemma retry_trace_sleeps sm p d a errors :
  sleeps (retry_trace sm p d a errors) = backoff d a (List.length errors - 1).
Proof.
  revert a; induction errors as [|e rest IH]; intros a; [reflexivity |].
  destruct rest as [|e' rest']; [reflexivity |].
  specialize (IH (a + 1)). simpl in *. rewrite Nat.sub_0_r in IH. now rewrite IH.
Qed.

Lemma retry_trace_last sm p d a errors e :
  exists before,
    retry_trace sm p d a (errors ++ [e]) = (before ++ [EvModelCall sm p (inl e)])%list.
Proof.
  revert a; induction errors as [|e0 rest IH]; intros a.
  - now exists [].
  - destruct (IH (a + 1)) as [before Hb].
    exists (EvModelCall sm p (inl e0) :: EvSleep (d * 2 ^ a) :: before).
    change ((e0 :: rest) ++ [e])%list with (e0 :: (rest ++ [e]))%list.
    cbn [retry_trace]. rewrite Hb.
    destruct (rest ++ [e])%list eqn:Hr; [destruct rest; discriminate | reflexivity].
Qed.

Lemma powers_of_two_sum_closed (n : nat) : powers_of_two_sum n = 2 ^ Z.of_nat n - 1.
Proof.
  unfold powers_of_two_sum. induction n as [|n IH]; [reflexivity |].
  rewrite List.seq_S, List.map_app, total_app, IH.
  cbn [List.map total fold_right Nat.add].
  rewrite Nat2Z.inj_succ, Z.pow_succ_r by lia. lia.
Qed.

Lemma total_backoff (d a : Z) (n : nat) :
  0 <= a -> total (backoff d a n) = d * 2 ^ a * powers_of_two_sum n.
Proof.
  rewrite powers_of_two_sum_closed.
  revert a; induction n as [|n IH]; intros a Ha; [simpl; lia |].
  cbn [backoff total fold_right]. fold (total (backoff d (a + 1) n)).
  rewrite IH by lia.
  replace (a + 1) with (Z.succ a) by lia.
  rewrite Nat2Z.inj_succ, !Z.pow_succ_r by lia. ring.
Qed.

(** C5 (as amended): without a credential [call_llm] raises its
    configuration error at once, with no model call and no sleep.  With a
    credential, at least one attempt allowed, a delay that is not negative
    and whose longest back-off, [retry_delay * 2^(max_retries-2)], is a
    duration that [time.sleep] accepts and the operating system grants, and
    a model that fails at every call, it makes exactly [max_retries] calls,
    sleeps [retry_delay * 2^attempt] after each failed call but the last,
    [retry_delay * (2^0 + ... + 2^(max_retries-2))] in all, and then raises
    the error with which the model failed at the last call. *)
Theorem call_llm_exhausts_retries {W : Type} (E : Env W) (h : LLMHandler)
    (prompt : string) (system_message : option string) (w : W) :
  let sm := if truthy_opt system_message then system_message else None in
  let p := truncate_prompt prompt 3000 in
  (truthy_opt (api_key h) = false ->
   call_llm E h prompt system_message w =
     (Raise (ValueError "Gemini API key not configured"), w, [])) /\
  (truthy_opt (api_key h) = true -> 1 <= max_retries h -> 0 <= retry_delay h ->
   retry_delay h * 2 ^ (max_retries h - 2) <= SLEEP_MAX ->
   waits_granted E (retry_delay h * 2 ^ (max_retries h - 2)) ->
   model_always_fails E ->
   exists errors e w',
     let tr := retry_trace sm p (retry_delay h) 0 (errors ++ [e]) in
     fails_with E sm p (retry_delay h) 0 (errors ++ [e]) w w' /\
     call_llm E h prompt system_message w = (Raise e, w', tr) /\
     List.length (errors ++ [e]) = Z.to_nat (max_retries h) /\
     count is_model_call tr = Z.to_nat (max_retries h) /\
     sleeps tr = backoff (retry_delay h) 0 (Z.to_nat (max_retries h) - 1) /\
     total (sleeps tr) =
       retry_delay h * powers_of_two_sum (Z.to_nat (max_retries h) - 1)).
Proof.
  intros sm p. subst sm p.
  split; intros Hkey; unfold call_llm; rewrite Hkey; [reflexivity |].
  intros Hretries Hdelay Hfits Hgranted Hfail. cbn [negb].
  destruct (Z.to_nat (max_retries h)) as [|n] eqn:Hn; [lia |].
  match goal with
  | |- context [call_llm_from E h (S n) 0 ?sm ?p w] =>
      destruct (call_llm_from_all_fail E h n Hfail Hdelay Hfits Hgranted 0 sm p w)
        as (errors & e & w' & Hpath & Hrun & Hlen); [lia | lia |]
  end.
  exists errors, e, w'. cbv zeta.
  split; [exact Hpath |]. split; [exact Hrun |].
  rewrite retry_trace_calls, retry_trace_sleeps, List.length_app, Hlen. simpl.
  replace (n + 1 - 1)%nat with n by lia. rewrite Nat.sub_0_r.
  repeat split; try lia.
  rewrite total_backoff by lia. rewrite Z.pow_0_r. lia.
Qed.

Lemma call_llm_exhausts_retries_witness :
  exists errors e w',
    let tr := retry_trace None (truncate_prompt "What is 2+2?" 3000) 1 0 (errors ++ [e]) in
    fails_with offline None (truncate_prompt "What is 2+2?" 3000) 1 0 (errors ++ [e])
      empty_script w' /\
    call_llm offline default_handler "What is 2+2?" None empty_script = (Raise e, w', tr) /\
    List.length (errors ++ [e]) = Z.to_nat 3 /\
    count is_model_call tr = Z.to_nat 3 /\
    sleeps tr = backoff 1 0 (Z.to_nat 3 - 1) /\
    total (sleeps tr) = 1 * powers_of_two_sum (Z.to_nat 3 - 1).
Proof.
  apply (proj2 (call_llm_exhausts_retries offline default_handler
                  "What is 2+2?" None empty_script)).
  - reflexivity.
  - simpl. lia.
  - simpl. lia.
  - vm_compute. discriminate.
  - intros seconds w _. exists w. reflexivity.
  - intros sm p w. exists model_unavailable, w. reflexivity.
Defined.

(** C5 (as stated) fails: with a retry delay of -1 and a model that fails
    at every call, the sleep after the first failure is refused by
    [time.sleep]: one attempt is made where [max_retries] is 3, and the
    error raised is the [ValueError] of the sleep, not the error of the
    model. *)
Lemma call_llm_counterexample :
  model_always_fails offline /\
  max_retries negative_delay_handler = 3 /\
  exists tr,
    call_llm offline negative_delay_handler "What is 2+2?" None empty_script =
      (Raise (ValueError "sleep length must be non-negative"), empty_script, tr) /\
    count is_model_call tr = 1%nat /\
    tr = [EvModelCall None "What is 2+2?" (inl model_unavailable)].
Proof.
  split; [intros sm p w; exists model_unavailable, w; reflexivity |].
  split; [reflexivity |].
  eexists. split; [vm_compute; reflexivity | split; reflexivity].
Qed.
(** Scenario B of the specification: three attempts, sleeps of one and two
    seconds, then the failure. *)
Example call_llm_scenario_B :
  exists tr,
    call_llm offline default_handler "What is 2+2?" None empty_script =
      (Raise model_unavailable, empty_script, tr) /\
    count is_model_call tr = 3%nat /\ sleeps tr = [1; 2] /\ total (sleeps tr) = 3.
Proof. eexists. split; [vm_compute; reflexivity |]. now vm_compute. Qed.

(** ** The tool dispatcher *)

Lemma not_registered (tool_name : string) :
  ~ In tool_name available_tools ->
  existsb (String.eqb tool_name) available_tools = false.
Proof.
  intros Hout. destruct (existsb (String.eqb tool_name) available_tools) eqn:Hex;
    [| reflexivity].
  apply List.existsb_exists in Hex as (name & Hin & Heq).
  apply String.eqb_eq in Heq. subst name. contradiction.
Qed.

(** C8: [execute_tool] raises its not-found error for every name outside
    the registry, and the parameter error of the tool when the required
    parameter is missing: "url" for [web_scraper], "content" for
    [data_reader], "data" for [data_inspector].  In each case no connector
    is called.  (Both kinds of error are a Python [ValueError]; the message
    tells them apart.) *)
Theorem execute_tool_failures {W : Type} (E : Env W) (tool_name : string)
    (parameters : gmap string value) (w : W) :
  (~ In tool_name available_tools ->
   execute_tool E tool_name parameters w = (Raise (tool_not_found tool_name), w, [])) /\
  (parameters !! "url" = None ->
   execute_tool E "web_scraper" parameters w =
     (Raise (ValueError "URL parameter is required for web scraper"), w, [])) /\
  (parameters !! "content" = None ->
   execute_tool E "data_reader" parameters w =
     (Raise (ValueError "Content parameter is required for data reader"), w, [])) /\
  (parameters !! "data" = None ->
   execute_tool E "data_inspector" parameters w =
     (Raise (ValueError "Data parameter is required for data inspector"), w, [])).
Proof.
  repeat split.
  - intros Hout. unfold execute_tool. now rewrite (not_registered _ Hout).
  - intros Hmiss. unfold execute_tool, try_except, _execute_web_scraper.
    cbn. now rewrite Hmiss.
  - intros Hmiss. unfold execute_tool, try_except, _execute_data_reader.
    cbn. now rewrite Hmiss.
  - intros Hmiss. unfold execute_tool, try_except, _execute_data_inspector.
    cbn. now rewrite Hmiss.
Qed.

Lemma execute_tool_failures_witness :
  execute_tool scripted "pdf_reader" ∅ empty_script =
    (Raise (tool_not_found "pdf_reader"), empty_script, []) /\
  execute_tool scripted "web_scraper" {["timeout" := VInt 30]} empty_script =
    (Raise (ValueError "URL parameter is required for web scraper"), empty_script, []) /\
  execute_tool scripted "data_reader" {["filename" := VStr "a.csv"]} empty_script =
    (Raise (ValueError "Content parameter is required for data reader"), empty_script, []) /\
  execute_tool scripted "data_inspector" {["source_type" := VStr "url"]} empty_script =
    (Raise (ValueError "Data parameter is required for data inspector"), empty_script, []).
Proof.
  split; [| split; [| split]].
  - apply (proj1 (execute_tool_failures scripted "pdf_reader" ∅ empty_script)).
    vm_compute. intuition discriminate.
  - apply (execute_tool_failures scripted "web_scraper"
             {["timeout" := VInt 30]} empty_script). reflexivity.
  - apply (execute_tool_failures scripted "data_reader"
             {["filename" := VStr "a.csv"]} empty_script). reflexivity.
  - apply (execute_tool_failures scripted "data_inspector"
             {["source_type" := VStr "url"]} empty_script). reflexivity.
Defined.

(** An empty "url" is refused like a missing one. *)
Lemma web_scraper_refuses_empty_url {W : Type} (E : Env W) (w : W) :
  execute_tool E "web_scraper" {["url" := VStr ""]} w =
    (Raise (ValueError "URL parameter is required for web scraper"), w, []).
Proof. reflexivity. Qed.

(** A "url" with a character in it reaches the connector. *)
Lemma web_scraper_accepts_url {W : Type} (E : Env W) (url : string) (w : W) :
  nonempty url = true ->
  execute_tool E "web_scraper" {["url" := VStr url]} w =
    (Ret (fst (scrape_url E (VStr url) w)), snd (scrape_url E (VStr url) w),
     [EvScrape (VStr url)]).
Proof.
  intros Hurl. unfold execute_tool, try_except, _execute_web_scraper, call_total.
  cbn. rewrite lookup_singleton_eq. cbn. rewrite Hurl. cbn.
  destruct (scrape_url E (VStr url) w); reflexivity.
Qed.

(** ** The output formatter *)

(** What [through_last_bracket] finds ends with "]", and no "]" follows
    it. *)
Lemma through_last_bracket_spec (s literal : string) :
  through_last_bracket s = Some literal ->
  exists body post,
    literal = body +:+ "]" /\ s = literal +:+ post /\ contains "]" post = false.
Proof.
  revert literal; induction s as [|c s IH]; intros literal; simpl; [discriminate |].
  destruct (through_last_bracket s) as [r|] eqn:Hr.
  - intros [= <-]. destruct (IH r eq_refl) as (body & post & -> & -> & Hpost).
    exists (String c body), post. repeat split. exact Hpost.
  - destruct (Ascii.eqb_spec c "]") as [->|]; [| discriminate].
    intros [= <-]. exists "", s. repeat split.
    clear IH. induction s as [|d s IH]; [reflexivity |].
    simpl in Hr. destruct (through_last_bracket s) eqn:Hs; [discriminate |].
    destruct (Ascii.eqb_spec d "]") as [->|Hd]; [discriminate |].
    rewrite contains_char_cons.
    destruct (Ascii.eqb_spec "]" d) as [<-|_]; [contradiction |].
    now apply IH.
Qed.

Lemma through_last_bracket_none (s : string) :
  through_last_bracket s = None -> contains "]" s = false.
Proof.
  induction s as [|c s IH]; [reflexivity |]. cbn [through_last_bracket].
  destruct (through_last_bracket s); [discriminate |].
  destruct (Ascii.eqb_spec c "]") as [->|Hc]; [discriminate |]. intros _.
  rewrite contains_char_cons.
  destruct (Ascii.eqb_spec "]" c) as [<-|_]; [contradiction |]. now apply IH.
Qed.

Lemma through_last_bracket_absent (s : string) :
  contains "]" s = false -> through_last_bracket s = None.
Proof.
  intros Hs. destruct (through_last_bracket s) as [literal|] eqn:Hfound; [| reflexivity].
  apply through_last_bracket_spec in Hfound as (body & post & -> & Hsplit & _).
  assert (contains "]" s = true) as Habs; [| congruence].
  apply contains_spec. exists body, post. now rewrite Hsplit, append_assoc.
Qed.

(** The text up to the last "]" is what [through_last_bracket] finds. *)
Lemma through_last_bracket_found (s post : string) :
  contains "]" post = false ->
  through_last_bracket (s +:+ "]" +:+ post) = Some (s +:+ "]").
Proof.
  intros Hpost. induction s as [|c s IH].
  - change ("" +:+ "]" +:+ post) with (String "]" post).
    cbn [through_last_bracket]. now rewrite (through_last_bracket_absent _ Hpost).
  - change (String c s +:+ "]" +:+ post) with (String c (s +:+ "]" +:+ post)).
    cbn [through_last_bracket]. now rewrite IH.
Qed.

(** The array literal found in an output starts at its first "[" and ends
    at its last "]". *)
Lemma search_array_literal_spec (output literal : string) :
  search_array_literal output = Some literal ->
  exists pre body post,
    output = pre +:+ literal +:+ post /\
    literal = "[" +:+ body +:+ "]" /\
    contains "[" pre = false /\ contains "]" post = false.
Proof.
  induction output as [|c s IH]; [discriminate |].
  cbn [search_array_literal].
  destruct (Ascii.eqb_spec c "[") as [->|Hc].
  - intros Hfound. apply through_last_bracket_spec in Hfound as (body & post & Hl & Hs & Hp).
    destruct body as [|b body]; [subst literal; discriminate |].
    assert (b = "["%char) as -> by (subst literal; now inversion Hs).
    exists "", body, post. repeat split; assumption.
  - intros Hfound. destruct (IH Hfound) as (pre & body & post & -> & Hl & Hpre & Hpost).
    exists (String c pre), body, post. repeat split; try assumption.
    rewrite contains_char_cons.
    destruct (Ascii.eqb_spec "[" c) as [<-|_]; [contradiction | exact Hpre].
Qed.

(** Nothing is found only when no "]" follows a "[". *)
Lemma search_array_literal_none (output : string) :
  search_array_literal output = None ->
  forall pre post, output = pre +:+ "[" +:+ post -> contains "]" post = false.
Proof.
  induction output as [|c s IH]; intros Hnone pre post Hsplit.
  - destruct pre; discriminate.
  - cbn [search_array_literal] in Hnone.
    destruct (Ascii.eqb_spec c "[") as [->|Hc].
    + apply through_last_bracket_none in Hnone.
      destruct (contains "]" post) eqn:Hpost; [| reflexivity].
      apply contains_spec in Hpost as (a & b & ->).
      assert (contains "]" (String "[" s) = true) as Habs; [| congruence].
      apply contains_spec. rewrite Hsplit.
      exists (pre +:+ "[" +:+ a), b. now rewrite !append_assoc.
    + destruct pre as [|d pre]; simpl in Hsplit; inversion Hsplit; subst.
      * contradiction.
      * now apply (IH Hnone pre post).
Qed.

(** Where no "]" follows a "[", nothing is found. *)
Lemma search_array_literal_absent (output : string) :
  (forall pre post, output = pre +:+ "[" +:+ post -> contains "]" post = false) ->
  search_array_literal output = None.
Proof.
  intros Hnone.
  destruct (search_array_literal output) as [literal|] eqn:Hfound; [| reflexivity].
  destruct (search_array_literal_spec _ _ Hfound)
    as (pre & body & post & Hsplit & -> & _ & _).
  assert (contains "]" (body +:+ "]" +:+ post) = true) as Habs.
  { apply contains_spec. now exists body, post. }
  rewrite (Hnone pre (body +:+ "]" +:+ post)) in Habs; [discriminate |].
  rewrite Hsplit. now rewrite !append_assoc.
Qed.

(** The text from the first "[" to the last "]" after it is what is
    found. *)
Lemma search_array_literal_found (pre body post : string) :
  contains "[" pre = false -> contains "]" post = false ->
  search_array_literal (pre +:+ "[" +:+ body +:+ "]" +:+ post) =
    Some ("[" +:+ body +:+ "]").
Proof.
  intros Hpre Hpost. induction pre as [|c pre IH].
  - change ("" +:+ "[" +:+ body +:+ "]" +:+ post)
      with (String "[" body +:+ "]" +:+ post).
    change ("[" +:+ body +:+ "]") with (String "[" body +:+ "]").
    rewrite <- (through_last_bracket_found (String "[" body) post Hpost).
    reflexivity.
  - rewrite contains_char_cons in Hpre. apply orb_false_iff in Hpre as [Hc Hpre].
    change (String c pre +:+ "[" +:+ body +:+ "]" +:+ post)
      with (String c (pre +:+ "[" +:+ body +:+ "]" +:+ post)).
    cbn [search_array_literal].
    destruct (Ascii.eqb_spec c "[") as [->|_]; [discriminate |].
    now apply IH.
Qed.




(** Scenario A of the specification: the envelope is the bare list [[4]]. *)
Example format_final_output_scenario_A :
  _format_final_output scripted
    {| success := true; output := "[4]"; error := None |}
    "What is 2+2? Respond as a json array." empty_script =
    (Ret (EnvArray [VInt 4]), empty_script, []).
Proof. vm_compute. reflexivity. Qed.

(** Without the phrase, the same output is wrapped. *)
Example format_final_output_wrapped :
  _format_final_output scripted
    {| success := true; output := "no list here"; error := None |}
    "What is 2+2?" empty_script =
    (Ret (EnvSuccess "success" "What is 2+2?" [VStr "no list here"] success_metadata),
     empty_script, []).
Proof. reflexivity. Qed.

(** An integer of 4301 digits in the array is a [ValueError] of the
    decoder, which the formatter catches: the output is kept as text. *)
Example format_final_output_long_integer :
  _format_final_output scripted
    {| success := true; output := "[" +:+ repeat_text "7" 4301 +:+ "]"; error := None |}
    "What is 7 to the power of 5089?" empty_script =
    (Ret (EnvSuccess "success" "What is 7 to the power of 5089?"
            [VStr ("[" +:+ repeat_text "7" 4301 +:+ "]")] success_metadata),
     empty_script, []).
Proof. vm_compute. reflexivity. Qed.

(** ** Task breakdown *)




(** A reply that decodes to something other than a dictionary is returned
    as decoded too; asking such a value for its plan text raises. *)
Example task_breakdown_number_reply :
  exists w' tr,
    _get_task_breakdown scripted default_orchestrator "What is 6*7?"
      {| model_replies := [inr "42"]; syntax_checks := []; runs := [] |} =
    (Ret (VInt 42), w', tr) /\
    url_from_task_plan (VInt 42) w' =
      (Raise (AttributeError "'int' object has no attribute 'get'"), w', []).
Proof. eexists _, _. split; reflexivity. Qed.

(** A reply that is an integer of 4301 digits makes the stage fail: the
    [ValueError] of the decoder is not a [JSONDecodeError]. *)
Example task_breakdown_long_integer :
  exists w' tr,
    _get_task_breakdown scripted default_orchestrator "What is 7 to the power of 5089?"
      {| model_replies := [inr (repeat_text "7" 4301)]; syntax_checks := []; runs := [] |} =
    (Raise (ValueError
              ("Exceeds the limit (4300 digits) for integer string conversion: " +:+
               "value has 4301 digits; use sys.set_int_max_str_digits() to increase the limit")),
     w', tr).
Proof. eexists _, _. vm_compute. reflexivity. Qed.
(** ** Reasoning about runs *)

Section SpecRules.
Context {W : Type}.

Lemma spec_ret {A} (a : A) (Q : outcome A -> list event -> Prop) :
  Q (Ret a) [] -> spec (ret (W:=W) a) Q.
Proof. intros H w. exact H. Qed.

Lemma spec_raise {A} (e : exn) (Q : outcome A -> list event -> Prop) :
  Q (Raise e) [] -> spec (raise (W:=W) e) Q.
Proof. intros H w. exact H. Qed.

Lemma spec_emit (ev : event) (Q : outcome unit -> list event -> Prop) :
  Q (Ret tt) [ev] -> spec (emit (W:=W) ev) Q.
Proof. intros H w. exact H. Qed.

Lemma spec_weaken {A} (m : M W A) (Q Q' : outcome A -> list event -> Prop) :
  spec m Q -> (forall out tr, Q out tr -> Q' out tr) -> spec m Q'.
Proof.
  intros Hm Himp w. specialize (Hm w). destruct (m w) as [[out w'] tr]. auto.
Qed.

Lemma spec_bind {A B} (m : M W A) (k : A -> M W B)
    (Q : outcome B -> list event -> Prop) :
  spec m (fun out t1 =>
            match out with
            | Ret a => spec (k a) (fun out2 t2 => Q out2 (t1 ++ t2)%list)
            | Raise e => Q (Raise e) t1
            | OutOfFuel => Q OutOfFuel t1
            end) ->
  spec (bind m k) Q.
Proof.
  intros Hm w. specialize (Hm w). unfold bind.
  destruct (m w) as [[[a|e|] w1] t1]; try exact Hm.
  specialize (Hm w1). destruct (k a w1) as [[out w2] t2]. exact Hm.
Qed.

Lemma spec_catching {A} (m : M W A) (Q : outcome (exn + A) -> list event -> Prop) :
  spec m (fun out tr =>
            match out with
            | Ret a => Q (Ret (inr a)) tr
            | Raise e => Q (Ret (inl e)) tr
            | OutOfFuel => Q OutOfFuel tr
            end) ->
  spec (catching m) Q.
Proof.
  intros Hm w. specialize (Hm w). unfold catching.
  destruct (m w) as [[[a|e|] w1] t1]; exact Hm.
Qed.

Lemma spec_try_except {A} (m : M W A) (hd : exn -> M W A)
    (Q : outcome A -> list event -> Prop) :
  spec m (fun out t1 =>
            match out with
            | Ret a => Q (Ret a) t1
            | Raise e => spec (hd e) (fun out2 t2 => Q out2 (t1 ++ t2)%list)
            | OutOfFuel => Q OutOfFuel t1
            end) ->
  spec (try_except m hd) Q.
Proof.
  intros Hm w. specialize (Hm w). unfold try_except.
  destruct (m w) as [[[a|e|] w1] t1]; try exact Hm.
  specialize (Hm w1). destruct (hd e w1) as [[out w2] t2]. exact Hm.
Qed.

Lemma spec_call {A} (ev : event) (f : W -> (exn + A) * W)
    (Q : outcome A -> list event -> Prop) :
  (forall w a w', f w = (inr a, w') -> Q (Ret a) [ev]) ->
  (forall w e w', f w = (inl e, w') -> Q (Raise e) [ev]) ->
  spec (call ev f) Q.
Proof.
  intros Hok Herr w. unfold call.
  destruct (f w) as [[e|a] w'] eqn:Hf; eauto.
Qed.

Lemma spec_call_total {A} (ev : event) (f : W -> A * W)
    (Q : outcome A -> list event -> Prop) :
  (forall a, Q (Ret a) [ev]) -> spec (call_total ev f) Q.
Proof. intros H w. unfold call_total. destruct (f w). apply H. Qed.

(** Sequencing two runs that end and stay within the gateway. *)
Lemma quiet_bind {A B} (m : M W A) (k : A -> M W B) :
  spec m quiet -> (forall a, spec (k a) quiet) -> spec (bind m k) quiet.
Proof.
  intros Hm Hk. apply spec_bind. eapply spec_weaken; [exact Hm |].
  intros [a|e|] t1 [Hout Ht1]; try (split; [congruence | assumption]).
  eapply spec_weaken; [apply Hk |].
  intros out2 t2 [Hout2 Ht2]. split; [assumption | now apply Forall_app].
Qed.

Lemma halts_bind {A B} (m : M W A) (k : A -> M W B) :
  spec m halts -> (forall a, spec (k a) halts) -> spec (bind m k) halts.
Proof.
  intros Hm Hk. apply spec_bind. eapply spec_weaken; [exact Hm |].
  intros [a|e|] t1 Hout; try (unfold halts; congruence).
  eapply spec_weaken; [apply Hk |]. intros out2 t2 Hout2. exact Hout2.
Qed.

Lemma quiet_halts {A} (m : M W A) : spec m quiet -> spec m halts.
Proof. intros Hm. eapply spec_weaken; [exact Hm |]. now intros out tr [H _]. Qed.

End SpecRules.

(** ** Counting in traces *)

Lemma count_cons (p : event -> bool) (ev : event) (tr : list event) :
  count p (ev :: tr) = ((if p ev then 1 else 0) + count p tr)%nat.
Proof. unfold count. simpl. now destruct (p ev). Qed.

Lemma count_nil (p : event -> bool) : count p [] = 0%nat.
Proof. reflexivity. Qed.

Lemma count_gateway (p : event -> bool) (tr : list event) :
  (forall ev, is_gateway_event ev = true -> p ev = false) ->
  Forall (fun ev => is_gateway_event ev = true) tr -> count p tr = 0%nat.
Proof.
  intros Hp Htr. induction Htr as [|ev tr Hev _ IH]; [reflexivity |].
  rewrite count_cons, IH, (Hp ev Hev). reflexivity.
Qed.

Lemma last_attempt_app (a : Z) (t1 t2 : list event) :
  last_attempt a (t1 ++ t2) = last_attempt (last_attempt a t1) t2.
Proof. unfold last_attempt. apply fold_left_app. Qed.

Lemma last_attempt_gateway (a : Z) (tr : list event) :
  Forall (fun ev => is_gateway_event ev = true) tr -> last_attempt a tr = a.
Proof.
  intros Htr. revert a. induction Htr as [|ev tr Hev _ IH]; intros a; [reflexivity |].
  unfold last_attempt in *. simpl. destruct ev; try discriminate; apply IH.
Qed.

Lemma attempts_within_gateway (limit : Z) (tr : list event) :
  Forall (fun ev => is_gateway_event ev = true) tr -> attempts_within limit tr.
Proof.
  intros Htr. eapply Forall_impl; [exact Htr |].
  intros ev Hev. destruct ev; try exact I. discriminate.
Qed.

Lemma attempts_within_mono (l1 l2 : Z) (tr : list event) :
  l1 <= l2 -> attempts_within l1 tr -> attempts_within l2 tr.
Proof.
  intros Hle Htr. eapply Forall_impl; [exact Htr |].
  intros ev Hev. destruct ev; try exact I. simpl in *. lia.
Qed.

Lemma guarded_gateway (bound : Z) (tr : list event) :
  Forall (fun ev => is_gateway_event ev = true) tr ->
  forall prev, corrections_guarded bound prev tr.
Proof.
  intros Htr. induction Htr as [|ev tr Hev _ IH]; intros prev; simpl; [exact I |].
  split; [| apply IH]. destruct ev; try exact I. discriminate.
Qed.

Lemma guarded_app (bound : Z) (t1 t2 : list event) (prev : option event) :
  corrections_guarded bound prev t1 ->
  (forall p, corrections_guarded bound p t2) ->
  corrections_guarded bound prev (t1 ++ t2).
Proof.
  intros H1 H2. revert prev H1. induction t1 as [|ev t1 IH]; intros prev H1; simpl.
  - apply H2.
  - destruct H1 as [Hev H1]. split; [exact Hev | now apply IH].
Qed.

Lemma ends_with_failure_app (t1 t2 : list event) (a : Z) (r : ExecutionResult) :
  ends_with_failure t2 a r -> ends_with_failure (t1 ++ t2) a r.
Proof.
  intros (before & message & -> & Herr).
  exists (t1 ++ before)%list, message. split; [now rewrite app_assoc | exact Herr].
Qed.

Arguments count : simpl never.
Arguments last_attempt : simpl never.

Lemma last_attempt_cons (a : Z) (ev : event) (tr : list event) :
  last_attempt a (ev :: tr) =
    last_attempt (match ev with EvAttemptFailed n _ => n | _ => a end) tr.
Proof. reflexivity. Qed.

Lemma last_attempt_nil (a : Z) : last_attempt a [] = a.
Proof. reflexivity. Qed.

(** Splits the conjunctions of the goal, and nothing else. *)
Ltac conjs := repeat match goal with |- _ /\ _ => split end.

(** Settles a side condition about a trace made of explicit events and of
    segments known to hold events of the gateway only. *)
Ltac trace_side :=
  cbn [app];
  lazymatch goal with
  | |- attempts_within _ _ =>
      unfold attempts_within;
      repeat (first [ apply List.Forall_nil
                    | apply List.Forall_cons; [simpl; try exact I; try lia |]
                    | now apply attempts_within_gateway ])
  | |- forall _, corrections_guarded _ _ _ =>
      let prev := fresh "prev" in
      intros prev; simpl; conjs; try exact I; try lia;
      try (now apply guarded_gateway)
  | |- _ =>
      rewrite ?count_cons, ?count_nil, ?last_attempt_cons, ?last_attempt_nil;
      simpl; try lia; try assumption; try reflexivity
  end.

(** ** The gateway ends and stays within its own events *)

Section GatewayQuiet.
Context {W : Type} (E : Env W) (h : LLMHandler).

Lemma quiet_model_call sm p : spec (model_call E sm p) quiet.
Proof.
  intros w. unfold model_call.
  destruct (generate_content E sm p w) as [[e|r] w']; split; try discriminate;
    repeat constructor.
Qed.

Lemma quiet_sleep (seconds : Z) : spec (sleep E seconds) quiet.
Proof.
  intros w. unfold sleep.
  destruct ((seconds <? - SLEEP_MAX) || (SLEEP_MAX <? seconds));
    [split; [discriminate | constructor] |].
  destruct (seconds <? 0); [split; [discriminate | constructor] |].
  destruct (os_wait E seconds w) as [[e|u] w']; split; try discriminate;
    repeat constructor.
Qed.

Lemma quiet_ret {A} (a : A) : spec (ret (W:=W) a) (quiet (A:=A)).
Proof. apply spec_ret. split; [discriminate | constructor]. Qed.

Lemma quiet_raise {A} (e : exn) : spec (raise (W:=W) e) (quiet (A:=A)).
Proof. apply spec_raise. split; [discriminate | constructor]. Qed.

Lemma quiet_catching {A} (m : M W A) : spec m quiet -> spec (catching m) quiet.
Proof.
  intros Hm. apply spec_catching. eapply spec_weaken; [exact Hm |].
  intros [a|e|] tr [Hout Htr]; split; try discriminate; try assumption.
  congruence.
Qed.

Lemma quiet_call_llm_from remaining :
  forall attempt sm p, spec (call_llm_from E h remaining attempt sm p) quiet.
Proof.
  induction remaining as [|n IH]; intros attempt sm p.
  - apply quiet_raise.
  - rewrite call_llm_from_S. apply quiet_bind.
    + apply quiet_catching, quiet_model_call.
    + intros [e|reply]; [| apply quiet_ret].
      destruct (attempt <? max_retries h - 1); [| apply quiet_raise].
      apply quiet_bind; [apply quiet_sleep | intros _; apply IH].
Qed.

Lemma quiet_call_llm prompt sm : spec (call_llm E h prompt sm) quiet.
Proof.
  unfold call_llm. destruct (negb (truthy_opt (api_key h)));
    [apply quiet_raise | apply quiet_call_llm_from].
Qed.

Lemma quiet_load_prompt_template name : spec (_load_prompt_template E name) quiet.
Proof.
  unfold _load_prompt_template. apply spec_try_except. apply spec_call.
  - intros w a w' _. split; [discriminate | repeat constructor].
  - intros w e w' _. destruct e; try (apply spec_raise; split; [discriminate | repeat constructor]).
    apply spec_ret. split; [discriminate | repeat constructor].
Qed.

End GatewayQuiet.

(** ** The execution-correction loop *)

Section LoopFacts.
Context {W : Type} (E : Env W) (self : Orchestrator).

Local Abbreviation bound := (max_correction_attempts self).
Local Abbreviation gateway := (Forall (fun ev => is_gateway_event ev = true)).

(** A correction request is its marker followed by events of the gateway. *)
Lemma correct_code_spec (code message : string) :
  spec (_correct_code E self code message)
       (fun out tr => out <> OutOfFuel /\
                      exists tg, tr = EvCorrect code message :: tg /\ gateway tg).
Proof.
  unfold _correct_code. apply spec_bind, spec_emit.
  assert (Hq : spec (prompt_template <- _load_prompt_template E "3_code_correction" ;;
                     call_llm E (llm_handler self)
                       (safe_substitute E prompt_template
                          [("code", code); ("error", message)]) None) quiet).
  { apply quiet_bind; [apply quiet_load_prompt_template |].
    intros template. apply quiet_call_llm. }
  eapply spec_weaken; [exact Hq |].
  intros out tr [Hout Htr]. split; [exact Hout | eauto].
Qed.

Lemma on_exception_spec (a : Z) (code : string) (e : exn) :
  spec (on_exception E self a code e) (on_exception_post bound a).
Proof.
  unfold on_exception. apply spec_bind, spec_emit.
  destruct (Z.ltb_spec (a + 1) bound) as [Hlt|Hge].
  - apply spec_bind. eapply spec_weaken; [apply correct_code_spec |].
    intros [code'|e'|] t1 [Hout (tg & -> & Htg)]; [apply spec_ret | | congruence].
    all: cbn [app]; rewrite ?List.app_nil_r; unfold on_exception_post;
      rewrite !count_cons, !(count_gateway _ tg) by (assumption || now intros []);
      conjs; try reflexivity; try lia.
    all: try (intros x; rewrite !last_attempt_cons; now apply last_attempt_gateway).
    all: try (repeat constructor; try lia; now apply attempts_within_gateway).
    all: intros prev; simpl; conjs; try exact I; try lia; now apply guarded_gateway.
  - apply spec_ret. unfold on_exception_post. cbn [app].
    conjs; try reflexivity; try lia.
    + repeat constructor. lia.
    + intros prev. simpl. auto.
    + exists [], (str_exn e). split; reflexivity.
Qed.

(** A pass that ends in the [except] clause: [pre] is the trace up to the
    exception and [a0] the value of the counter at that point. *)
Lemma cycle_post_of_exception (limit a a0 : Z) (pre tr : list event)
    (out : outcome loop_step) :
  a < bound -> a <= a0 -> a0 + 1 <= limit ->
  count is_prepare pre = 1%nat -> (count is_execute pre <= 1)%nat ->
  Z.of_nat (count is_correct pre) <= Z.min a0 (bound - 1) - a ->
  (forall prev, corrections_guarded bound prev pre) ->
  attempts_within limit pre ->
  on_exception_post bound a0 out tr ->
  cycle_post bound limit a out (pre ++ tr).
Proof.
  intros Ha Ha0 Hlimit Hprep Hexec Hcorr Hguard Hwithin
    (Hp & He & Hlast & Hw & Hg & Hout).
  unfold cycle_post.
  rewrite !count_app, last_attempt_app, Hlast, Hp, He, Hprep.
  conjs; try lia.
  - destruct out as [[a1 c|a1 r]|e|]; try contradiction;
      decompose [and] Hout; lia.
  - intros prev. now apply guarded_app.
  - apply Forall_app. split; [exact Hwithin |].
    eapply attempts_within_mono; [| exact Hw]. lia.
  - destruct out as [[a1 c|a1 r]|e|]; try contradiction.
    + lia.
    + destruct Hout as (-> & Hb & Hs & Hend & _). split; [reflexivity |].
      right. conjs; [assumption | lia | now apply ends_with_failure_app].
    + lia.
Qed.

Lemma cycle_spec (limit a : Z) (code : string) :
  room_for E bound limit -> a < bound ->
  spec (correction_cycle E self a code) (cycle_post bound limit a).
Proof.
  intros Hroom Ha.
  assert (Hlimit : bound <= limit) by (destruct Hroom as [->|[-> _]]; lia).
  unfold correction_cycle.
  apply spec_bind, spec_catching, spec_call.
  2: { intros w e w' _. eapply spec_weaken; [apply on_exception_spec |].
       intros out tr Hpost.
       apply (cycle_post_of_exception limit a a); try assumption; trace_side. }
  intros w code1 w' _.
  apply spec_bind, spec_catching, spec_call.
  2: { intros w0 e w0' _. eapply spec_weaken; [apply on_exception_spec |].
       intros out tr Hpost. rewrite app_assoc.
       apply (cycle_post_of_exception limit a a); try assumption; trace_side. }
  intros w0 check w0' _.
  destruct (valid check); cbn [negb].
  - (* the syntax is valid: run the code *)
    apply spec_bind, spec_catching, spec_call.
    2: { intros w1 e w1' _. eapply spec_weaken; [apply on_exception_spec |].
         intros out tr Hpost. rewrite !app_assoc.
         apply (cycle_post_of_exception limit a a); try assumption; trace_side. }
    intros w1 result w1' Hrun.
    destruct (success result) eqn:Hsuccess.
    + apply spec_ret. cbn [app]. unfold cycle_post.
      conjs; try trace_side. left. auto.
    + destruct (error result) as [message|] eqn:Herror.
      * apply spec_bind, spec_emit.
        destruct (Z.ltb_spec (a + 1) bound) as [Hlt|Hge].
        -- apply spec_bind, spec_catching.
           eapply spec_weaken; [apply correct_code_spec |].
           intros [code2|e|] t1 [Hout (tg & -> & Htg)]; [| | congruence].
           ++ apply spec_ret. cbn [app]. rewrite ?List.app_nil_r. unfold cycle_post.
              rewrite !count_cons, !last_attempt_cons, !(count_gateway _ tg),
                (last_attempt_gateway _ tg) by (assumption || now intros []).
              conjs; trace_side.
           ++ eapply spec_weaken; [apply on_exception_spec |].
              intros out tr Hpost. cbn [app]. rewrite ?List.app_nil_r.
              match goal with
              | |- cycle_post _ _ _ _ (?e1 :: ?e2 :: ?e3 :: ?e4 :: ?e5 :: (tg ++ tr)%list) =>
                  change (e1 :: e2 :: e3 :: e4 :: e5 :: (tg ++ tr)%list)
                    with ((e1 :: e2 :: e3 :: e4 :: e5 :: tg) ++ tr)%list
              end.
              apply (cycle_post_of_exception limit a (a + 1)); try assumption;
                rewrite ?count_cons, ?(count_gateway _ tg) by (assumption || now intros []);
                trace_side.
        -- apply spec_ret. cbn [app]. unfold cycle_post.
           conjs; try trace_side.
           right. conjs; [assumption | lia |].
           exists [EvPrepare code; EvValidate code1; EvExecute code1], message.
           split; [reflexivity | assumption].
      * (* a failed run without an error text: the log line raises KeyError *)
        destruct Hroom as [->|[-> Hwf]];
          [| exfalso; now apply (Hwf _ _ _ _ Hrun Hsuccess)].
        eapply spec_weaken; [apply on_exception_spec |].
        intros out tr Hpost. rewrite !app_assoc.
        apply (cycle_post_of_exception (bound + 1) a (a + 1)); try assumption;
          trace_side.
  - (* the syntax is invalid *)
    apply spec_bind, spec_emit.
    destruct (Z.ltb_spec (a + 1) bound) as [Hlt|Hge].
    + apply spec_bind, spec_catching.
      eapply spec_weaken; [apply correct_code_spec |].
      intros [code2|e|] t1 [Hout (tg & -> & Htg)]; [| | congruence].
      * apply spec_ret. cbn [app]. rewrite ?List.app_nil_r. unfold cycle_post.
        rewrite !count_cons, !last_attempt_cons, !(count_gateway _ tg),
          (last_attempt_gateway _ tg) by (assumption || now intros []).
        conjs; trace_side.
      * eapply spec_weaken; [apply on_exception_spec |].
        intros out tr Hpost. cbn [app]. rewrite ?List.app_nil_r.
        match goal with
        | |- cycle_post _ _ _ _ (?e1 :: ?e2 :: ?e3 :: ?e4 :: (tg ++ tr)%list) =>
            change (e1 :: e2 :: e3 :: e4 :: (tg ++ tr)%list)
              with ((e1 :: e2 :: e3 :: e4 :: tg) ++ tr)%list
        end.
        apply (cycle_post_of_exception limit a (a + 1)); try assumption;
          rewrite ?count_cons, ?(count_gateway _ tg) by (assumption || now intros []);
          trace_side.
    + apply spec_ret. cbn [app]. unfold cycle_post.
      conjs; try trace_side.
      right. conjs; [reflexivity | lia |].
      eexists [EvPrepare code; EvValidate code1], _.
      split; reflexivity.
Qed.

Lemma correction_loop_unfold (fuel : nat) (a : Z) (code : string) :
  correction_loop E self fuel a code =
    if a <? bound then
      match fuel with
      | O => out_of_fuel
      | S fuel' =>
          step <- correction_cycle E self a code ;;
          match step with
          | Continue a1 code1 => correction_loop E self fuel' a1 code1
          | Return a1 result => ret (a1, result)
          end
      end
    else
      ret (a, {| success := false;
                 error := Some "Max correction attempts exceeded";
                 output := "" |}).
Proof. destruct fuel; reflexivity. Qed.

(** The loop, entered with the counter at [a] and at least [bound - a]
    units of fuel. *)
Lemma loop_spec (limit : Z) :
  room_for E bound limit ->
  forall fuel a code,
    (Z.to_nat (bound - a) <= fuel)%nat ->
    spec (correction_loop E self fuel a code) (loop_post bound limit a).
Proof.
  intros Hroom. induction fuel as [|fuel IH]; intros a code Hfuel;
    rewrite correction_loop_unfold;
    (destruct (Z.ltb_spec a bound) as [Ha|Ha];
     [| apply spec_ret; unfold loop_post; conjs; try trace_side;
        right; conjs; [reflexivity | lia | left; auto]]).
  - lia.
  - apply spec_bind. eapply spec_weaken; [apply (cycle_spec limit a code Hroom Ha) |].
    intros [[a1 code1|a1 r]|e|] t1 (Hprep & Hexec & Hcorr & Hguard & Hwithin & Hout);
      try contradiction.
    + destruct Hout as [-> Ha1].
      eapply spec_weaken; [apply (IH (last_attempt a t1) code1); lia |].
      intros out2 t2 (Hp2 & He2 & Hc2 & Hg2 & Hw2 & Hout2).
      unfold loop_post. rewrite !count_app, last_attempt_app.
      conjs; try lia.
      * intros prev. now apply guarded_app.
      * now apply Forall_app.
      * destruct out2 as [[a2 r2]|e2|]; try assumption.
        destruct Hout2 as [-> [Hok|(Hfail & Hb & [[-> _]|Hend])]].
        -- auto.
        -- rewrite last_attempt_nil in Hb. lia.
        -- split; [reflexivity |]. right. conjs; try assumption.
           right. now apply ends_with_failure_app.
    + apply spec_ret. rewrite List.app_nil_r. unfold loop_post.
      conjs; try lia; try assumption.
      destruct Hout as [Heq [[Hok Ha1]|(Hfail & Hb & Hend)]].
      * left. split; [assumption | lia].
      * right. auto.
    + unfold loop_post. conjs; try lia; try assumption.
Qed.

Lemma run_correction_loop_spec (limit : Z) (current_code : string) :
  room_for E bound limit ->
  spec (run_correction_loop E self current_code) (loop_post bound limit 0).
Proof.
  intros Hroom. unfold run_correction_loop. apply loop_spec; [assumption | lia].
Qed.

End LoopFacts.

Lemma last_attempt_within (limit a : Z) (tr : list event) :
  attempts_within limit tr -> last_attempt a tr <= Z.max a limit.
Proof.
  intros Htr. revert a. induction Htr as [|ev tr Hev _ IH]; intros a.
  - rewrite last_attempt_nil. lia.
  - rewrite last_attempt_cons. destruct ev; try (apply IH).
    specialize (IH attempt). simpl in Hev. lia.
Qed.


Lemma failing_runs_carry_error : failures_carry_error failing_runs.
Proof. intros code w r w' [= <- _] _. discriminate. Qed.



(** [_execute_with_correction] is the loop, entered with the code and its
    preamble; its result is the result the loop returns. *)
Lemma execute_with_correction_enters_loop {W : Type} (E : Env W)
    (self : Orchestrator) (code current_code : string) (raw_data : value) (w : W) :
  inject_data E code raw_data w = (Ret current_code, w, []) ->
  _execute_with_correction E self code raw_data w =
    match run_correction_loop E self current_code w with
    | (Ret final, w', tr) => (Ret (snd final), w', tr)
    | (Raise e, w', tr) => (Raise e, w', tr)
    | (OutOfFuel, w', tr) => (OutOfFuel, w', tr)
    end.
Proof.
  intros Hinject. unfold _execute_with_correction, bind. rewrite Hinject.
  destruct (run_correction_loop E self current_code w) as [[[final|e|] w'] tr];
    cbn; now rewrite ?List.app_nil_r.
Qed.

(** Scenario D of the specification at the level of the loop: three runs,
    two correction requests, and the error of the third run returned. *)
Example correction_loop_scenario_D :
  exists w' tr,
    run_correction_loop failing_runs default_orchestrator "print(df)" scenario_D =
      (Ret (3, failed_run), w', tr) /\
    count is_prepare tr = 3%nat /\ count is_execute tr = 3%nat /\
    count is_correct tr = 2%nat /\ last_attempt 0 tr = 3.
Proof. eexists _, _. split; [vm_compute; reflexivity |]. now vm_compute. Qed.

(** Scenario C of the specification: a syntax error, one correction, then a
    successful run. *)
Example correction_loop_scenario_C :
  exists w' tr,
    run_correction_loop scripted default_orchestrator "print(1"
      {| model_replies := [inr "print(1)"];
         syntax_checks := [inr {| valid := false;
                                  syntax_error := Some "'(' was never closed" |}];
         runs := [inr {| success := true; output := "1"; error := None |}] |} =
      (Ret (1, {| success := true; output := "1"; error := None |}), w', tr) /\
    count is_prepare tr = 2%nat /\ count is_execute tr = 1%nat /\
    count is_correct tr = 1%nat.
Proof. eexists _, _. split; [vm_compute; reflexivity |]. now vm_compute. Qed.


(** ** The pipeline *)

Section SpecHalts.
Context {W : Type}.

Lemma halts_ret {A} (a : A) : spec (ret (W:=W) a) halts.
Proof. apply spec_ret. discriminate. Qed.

Lemma halts_raise {A} (e : exn) : spec (raise (W:=W) (A:=A) e) halts.
Proof. apply spec_raise. discriminate. Qed.

Lemma halts_call_total {A} (ev : event) (f : W -> A * W) : spec (call_total ev f) halts.
Proof. apply spec_call_total. discriminate. Qed.

Lemma halts_try_except {A} (m : M W A) (hd : exn -> M W A) :
  spec m halts -> (forall e, spec (hd e) halts) -> spec (try_except m hd) halts.
Proof.
  intros Hm Hh. apply spec_try_except. eapply spec_weaken; [exact Hm |].
  intros [a|e|] t1 Hout; try (unfold halts; congruence).
  eapply spec_weaken; [apply Hh |]. intros out2 t2 Hout2. exact Hout2.
Qed.

End SpecHalts.

Section PipelineFacts.
Context {W : Type} (E : Env W) (self : Orchestrator).

Lemma halts_execute_tool (tool_name : string) (parameters : gmap string value) :
  spec (execute_tool E tool_name parameters) halts.
Proof.
  unfold execute_tool.
  destruct (negb (existsb (String.eqb tool_name) available_tools));
    [apply halts_raise |].
  apply halts_try_except; [| intros e; apply halts_raise].
  unfold _execute_web_scraper, _execute_data_inspector, _execute_data_reader,
    _process_file_content.
  repeat match goal with
         | |- spec (if ?b then _ else _) _ => destruct b
         | |- spec (match ?v with VStr _ => _ | _ => _ end) _ => destruct v
         end;
    first [apply halts_raise | apply halts_call_total].
Qed.

Lemma halts_read_data_files (data_files : list file_info) :
  spec (read_data_files E data_files) halts.
Proof.
  induction data_files as [|file_info rest IH]; [apply halts_ret |].
  cbn [read_data_files]. apply halts_bind; [apply halts_execute_tool |].
  intros processed. apply halts_bind; [exact IH |].
  intros processed_files. apply halts_ret.
Qed.

Lemma halts_get_task_breakdown (questions : string) :
  spec (_get_task_breakdown E self questions) halts.
Proof.
  unfold _get_task_breakdown.
  apply halts_bind; [apply quiet_halts, quiet_load_prompt_template |].
  intros template. apply halts_bind; [apply quiet_halts, quiet_call_llm |].
  intros reply. destruct (json_loads E reply);
    first [apply halts_ret | apply halts_raise].
Qed.

Lemma halts_url_from_task_plan (task_plan : value) :
  spec (url_from_task_plan (W:=W) task_plan) halts.
Proof.
  unfold url_from_task_plan. destruct task_plan; try apply halts_raise.
  destruct (default (VStr "") (items_get items "plan"));
    first [apply halts_raise | apply halts_ret].
Qed.

Lemma halts_source_data data_source_type data_files data_url task_plan :
  spec (_source_data E data_source_type data_files data_url task_plan) halts.
Proof.
  unfold _source_data. destruct data_source_type.
  - apply halts_bind; [apply halts_ret | intros url; apply halts_execute_tool].
  - apply halts_bind; [apply halts_read_data_files | intros l; apply halts_ret].
  - apply halts_bind; [| intros url; apply halts_execute_tool].
    destruct (negb (nonempty data_url));
      [apply halts_url_from_task_plan | apply halts_ret].
  - apply halts_ret.
Qed.

Lemma halts_generate_code (questions : string) (metadata : value) :
  spec (_generate_code E self questions metadata) halts.
Proof.
  unfold _generate_code.
  apply halts_bind; [apply quiet_halts, quiet_load_prompt_template |].
  intros template. destruct (json_dumps_indent E metadata);
    [apply halts_raise | apply quiet_halts, quiet_call_llm].
Qed.

Lemma halts_inject_data (code : string) (raw_data : value) :
  spec (inject_data E code raw_data) halts.
Proof.
  unfold inject_data.
  destruct raw_data; try apply halts_ret;
    destruct (data_injection E _); first [apply halts_raise | apply halts_ret].
Qed.

Lemma halts_execute_with_correction (code : string) (raw_data : value) :
  spec (_execute_with_correction E self code raw_data) halts.
Proof.
  unfold _execute_with_correction.
  apply halts_bind; [apply halts_inject_data | intros current_code].
  apply halts_bind; [| intros final; apply halts_ret].
  eapply spec_weaken;
    [apply (run_correction_loop_spec E self _ current_code (or_introl eq_refl)) |].
  intros out tr (_ & _ & _ & _ & _ & Hout). unfold halts.
  destruct out; [discriminate | discriminate | contradiction].
Qed.

Lemma halts_format_final_output (execution_result : ExecutionResult)
    (original_questions : string) :
  spec (_format_final_output E execution_result original_questions) halts.
Proof.
  unfold _format_final_output. destruct (success execution_result).
  - destruct (parse_results E (output execution_result)); [apply halts_raise |].
    destruct (contains "json array" (lower original_questions)); apply halts_ret.
  - destruct (error execution_result); [apply halts_ret | apply halts_raise].
Qed.

Lemma halts_pipeline questions data_files data_url :
  spec (pipeline E self questions data_files data_url) halts.
Proof.
  unfold pipeline.
  apply halts_bind; [apply halts_get_task_breakdown | intros task_plan].
  apply halts_bind; [apply halts_source_data | intros raw_data].
  apply halts_bind; [apply halts_execute_tool | intros metadata].
  apply halts_bind; [apply halts_generate_code | intros generated_code].
  apply halts_bind; [apply halts_execute_with_correction | intros execution_result].
  apply halts_format_final_output.
Qed.

End PipelineFacts.

(** C4: [process_request] returns an envelope for every request and every
    behaviour of its collaborators: it never raises and never runs on for
    ever.  When every stage returns, the envelope is the one built by the
    last stage; when a stage raises an exception [e], the envelope is
    [{status: error, message: "Processing failed: " + str(e), results: []}]. *)
Theorem process_request_never_raises {W : Type} (E : Env W) (self : Orchestrator)
    (questions : string) (data_files : list file_info) (data_url : string) (w : W) :
  exists response w' tr,
    process_request E self questions data_files data_url w = (Ret response, w', tr) /\
    match pipeline E self questions data_files data_url w with
    | (Ret final_output, _, _) => response = final_output
    | (Raise e, _, _) =>
        response =
          EnvPipelineError "error" ("Processing failed: " +:+ str_exn e) []
    | (OutOfFuel, _, _) => False
    end.
Proof.
  pose proof (halts_pipeline E self questions data_files data_url w) as Hhalts.
  unfold process_request, try_except.
  destruct (pipeline E self questions data_files data_url w) as [[[final|e|] w'] tr].
  - eauto.
  - eexists _, _, _. split; reflexivity.
  - now contradiction Hhalts.
Qed.

(** Without a credential the first model call raises, and the request ends
    with the error envelope. *)
Example process_request_without_credential :
  exists tr,
    process_request scripted
      {| llm_handler := {| api_key := None; max_retries := 3; retry_delay := 1 |};
         max_correction_attempts := 3 |}
      "What is 2+2?" [] "" empty_script =
    (Ret (EnvPipelineError "error" "Processing failed: Gemini API key not configured" []),
     empty_script, tr).
Proof. eexists. vm_compute. reflexivity. Qed.

(** Scenario A of the specification, end to end. *)
Example process_request_scenario_A :
  exists w' tr,
    process_request scripted default_orchestrator
      "What is 2+2? Respond as a json array." [] ""
      {| model_replies := [inr "Add the numbers."; inr "print([2+2])"];
         syntax_checks := [];
         runs := [inr {| success := true; output := "[4]"; error := None |}] |} =
    (Ret (EnvArray [VInt 4]), w', tr).
Proof. eexists _, _. vm_compute. reflexivity. Qed.

(** Scenario D of the specification, end to end. *)
Example process_request_scenario_D :
  exists w' tr,
    process_request failing_runs default_orchestrator "Describe the data." [] ""
      {| model_replies := [inr "Load, then describe."; inr "print(df)";
                           inr "print(df.head())"; inr "print(len(df))"];
         syntax_checks := []; runs := [] |} =
    (Ret (EnvExecutionError "error" "Describe the data."
            "NameError: name 'df' is not defined" failure_metadata), w', tr) /\
    execution_success failure_metadata = false /\
    processing_pipeline failure_metadata = "failed_at_execution".
Proof. eexists _, _. split; [vm_compute; reflexivity | split; reflexivity]. Qed.

(** ** A question that names a site without a scheme *)

Lemma prefix_contains (sub s : string) :
  String.prefix sub s = true -> contains sub s = true.
Proof. intros H. destruct s; cbn [contains]; now rewrite H. Qed.

Lemma contains_tail (sub : string) (c : ascii) (s : string) :
  contains sub (String c s) = false -> contains sub s = false.
Proof. cbn [contains]. now intros [_ H]%orb_false_iff. Qed.

(** A text without "http://" and without "https://" holds no URL. *)
Lemma extract_url_without_scheme (text : string) :
  contains "http://" text = false -> contains "https://" text = false ->
  _extract_url_from_text text = "".
Proof.
  induction text as [|c s IH]; intros Hhttp Hhttps.
  - reflexivity.
  - cbn [_extract_url_from_text]. unfold match_url_here.
    destruct (String.prefix "https://" (String c s)) eqn:P1;
      [apply prefix_contains in P1; congruence |].
    destruct (String.prefix "http://" (String c s)) eqn:P2;
      [apply prefix_contains in P2; congruence |].
    apply IH; eapply contains_tail; eassumption.
Qed.



(** With a [data_url] that is not empty, whatever the collaborators do, the
    dispatch of a [url_in_text] request does not look at the plan, calls
    the connector with that [data_url] and returns its answer. *)
Lemma source_data_with_url {W : Type} (E : Env W) (data_files : list file_info)
    (data_url : string) (task_plan : value) (w : W) :
  nonempty data_url = true ->
  _source_data E SrcUrlInText data_files data_url task_plan w =
    (Ret (fst (scrape_url E (VStr data_url) w)),
     snd (scrape_url E (VStr data_url) w), [EvScrape (VStr data_url)]).
Proof.
  intros Hurl. unfold _source_data. rewrite Hurl. cbn [negb].
  eapply run_bind_ret;
    [reflexivity | now apply web_scraper_accepts_url | reflexivity].
Qed.


(* ===================================================================== *)
(** * Part III. Further properties of the code                            *)
(* ===================================================================== *)

(** ** Text primitives, continued *)

Lemma all_chars_append (p : ascii -> bool) (a b : string) :
  all_chars p (a +:+ b) = all_chars p a && all_chars p b.
Proof.
  induction a as [|c a IH]; simpl; [reflexivity |].
  rewrite IH. now rewrite andb_assoc.
Qed.

Lemma all_chars_take (p : ascii -> bool) (n : nat) (s : string) :
  all_chars p s = true -> all_chars p (take n s) = true.
Proof.
  revert s; induction n as [|n IH]; intros [|c s]; simpl; try reflexivity.
  intros [Hc Hs]%andb_true_iff. rewrite Hc. now apply IH.
Qed.

Lemma all_chars_lstrip (p : ascii -> bool) (s : string) :
  all_chars p s = true -> all_chars p (lstrip s) = true.
Proof.
  induction s as [|c s IH]; simpl; [reflexivity |].
  intros H. destruct (isspace c); [| exact H].
  apply andb_true_iff in H as [_ Hs]. now apply IH.
Qed.

Lemma all_chars_rstrip (p : ascii -> bool) (s : string) :
  all_chars p s = true -> all_chars p (rstrip s) = true.
Proof.
  induction s as [|c s IH]; simpl; [reflexivity |].
  intros [Hc Hs]%andb_true_iff. specialize (IH Hs).
  destruct (rstrip s) as [|d r].
  - destruct (isspace c); simpl; [reflexivity | now rewrite Hc].
  - simpl in *. now rewrite Hc, IH.
Qed.

Lemma lstrip_fixed (s : string) :
  match s with String c _ => isspace c = false | "" => True end -> lstrip s = s.
Proof. destruct s as [|c s]; simpl; [reflexivity | now intros ->]. Qed.

Lemma lstrip_head (s : string) :
  match lstrip s with String c _ => isspace c = false | "" => True end.
Proof.
  induction s as [|c s IH]; simpl; [exact I |].
  destruct (isspace c) eqn:Hc; [exact IH | exact Hc].
Qed.

Lemma rstrip_head (s : string) :
  match s with String c _ => isspace c = false | "" => True end ->
  match rstrip s with String c _ => isspace c = false | "" => True end.
Proof.
  destruct s as [|c s]; simpl; [trivial |]. intros Hc.
  destruct (rstrip s); [rewrite Hc |]; exact Hc.
Qed.

Lemma rstrip_idempotent (s : string) : rstrip (rstrip s) = rstrip s.
Proof.
  induction s as [|c s IH]; simpl; [reflexivity |].
  destruct (rstrip s) as [|d r] eqn:Hr.
  - destruct (isspace c) eqn:Hc; simpl; [reflexivity | now rewrite Hc].
  - change (rstrip (String c (String d r)))
      with (match rstrip (String d r) with
            | "" => if isspace c then "" else String c ""
            | r0 => String c r0
            end).
    now rewrite IH.
Qed.

Lemma strip_idempotent (s : string) : strip (strip s) = strip s.
Proof.
  unfold strip.
  rewrite (lstrip_fixed (rstrip (lstrip s))) by apply rstrip_head, lstrip_head.
  apply rstrip_idempotent.
Qed.

Lemma lower_char_idempotent (c : ascii) : lower_char (lower_char c) = lower_char c.
Proof.
  destruct c as [[] [] [] [] [] [] [] []]; reflexivity.
Qed.

Lemma lower_idempotent (s : string) : lower (lower s) = lower s.
Proof.
  induction s as [|c s IH]; simpl; [reflexivity |].
  now rewrite lower_char_idempotent, IH.
Qed.

Lemma contains_append (sub pre post : string) :
  contains sub (pre +:+ sub +:+ post) = true.
Proof. apply contains_spec. eauto. Qed.

(** A text that contains [a +:+ b] contains [a]. *)
Lemma contains_longer (a b s : string) :
  contains (a +:+ b) s = true -> contains a s = true.
Proof.
  intros (pre & post & ->)%contains_spec. apply contains_spec.
  exists pre, (b +:+ post). now rewrite append_assoc.
Qed.

(** ** Prompt budgeting, continued *)

(** Above a positive budget: the two halves kept by [truncate_prompt] and
    their lengths. *)
Lemma truncate_prompt_parts (prompt : string) (budget : Z) :
  0 < budget -> budget < estimate_tokens prompt ->
  let half := Z.to_nat (2 * budget) in
  let head := take half prompt in
  let tail := drop (String.length prompt - half) prompt in
  truncate_prompt prompt budget = head +:+ TRUNCATION_MARKER +:+ tail /\
  String.length head = half /\ String.length tail = half /\
  (2 * half + 4 <= String.length prompt)%nat.
Proof.
  intros Hpos Hover half head tail.
  assert (Hbig : (2 * half + 4 <= String.length prompt)%nat).
  { unfold estimate_tokens, len in Hover.
    pose proof (Z.mul_div_le (Z.of_nat (String.length prompt)) 4 ltac:(lia)).
    subst half; lia. }
  split; [now apply truncate_prompt_over_budget |].
  split; [apply length_take; lia |].
  split; [subst tail; rewrite length_drop; lia | exact Hbig].
Qed.

(** X1: a truncated prompt is still estimated above the budget, by the
    eight tokens of the marker; truncating it again returns it unchanged;
    and it is no longer than the prompt only when the prompt has at least
    [4 * budget + 34] characters. *)
Theorem truncate_prompt_again (prompt : string) (budget : Z) :
  0 < budget -> budget < estimate_tokens prompt ->
  let result := truncate_prompt prompt budget in
  estimate_tokens result = budget + 8 /\
  truncate_prompt result budget = result /\
  (len result <= len prompt <-> 4 * budget + 34 <= len prompt).
Proof.
  intros Hpos Hover result.
  destruct (truncate_prompt_parts prompt budget Hpos Hover)
    as (Hres & Hhead & Htail & Hbig).
  fold result in Hres.
  set (half := Z.to_nat (2 * budget)) in *.
  set (head := take half prompt) in *.
  set (tail := drop (String.length prompt - half) prompt) in *.
  assert (Hlen : String.length result = (half + 34 + half)%nat).
  { rewrite Hres, !length_append, Hhead, Htail, marker_length. lia. }
  assert (Hest : estimate_tokens result = budget + 8).
  { unfold estimate_tokens, len. rewrite Hlen.
    symmetry. apply (Z.div_unique _ 4 (budget + 8) 2); subst half; lia. }
  split; [exact Hest |]. split.
  - destruct (truncate_prompt_parts result budget Hpos ltac:(lia))
      as (Hagain & _ & _ & _).
    rewrite Hagain. fold half. rewrite Hlen.
    replace (take half result) with head.
    2: { rewrite Hres. rewrite <- Hhead at 1. now rewrite take_append. }
    replace (drop (half + 34 + half - half) result) with tail; [now symmetry |].
    rewrite Hres.
    replace (half + 34 + half - half)%nat
      with (String.length (head +:+ TRUNCATION_MARKER))
      by (rewrite length_append, Hhead, marker_length; lia).
    rewrite <- append_assoc. now rewrite drop_append.
  - unfold len. rewrite Hlen. subst half. lia.
Qed.

Lemma truncate_prompt_again_witness :
  estimate_tokens (truncate_prompt "abcdefgh" 1) = 1 + 8 /\
  truncate_prompt (truncate_prompt "abcdefgh" 1) 1 = truncate_prompt "abcdefgh" 1 /\
  (len (truncate_prompt "abcdefgh" 1) <= len "abcdefgh" <-> 4 * 1 + 34 <= len "abcdefgh").
Proof. apply (truncate_prompt_again "abcdefgh" 1); reflexivity. Defined.

(** ** URL extraction *)

(** [span p s] is a prefix of [s] made of characters that satisfy [p], and
    the character that follows it in [s], if any, does not. *)
Lemma span_spec (p : ascii -> bool) (s : string) :
  exists post,
    s = span p s +:+ post /\ all_chars p (span p s) = true /\
    match post with String c _ => p c = false | "" => True end.
Proof.
  induction s as [|c s (post & Hs & Hall & Hpost)]; simpl.
  - now exists "".
  - destruct (p c) eqn:Hc.
    + exists post. simpl. rewrite Hc, Hall. now rewrite <- Hs.
    + exists (String c s). now rewrite Hc.
Qed.

Lemma drop_prefix (a s : string) :
  String.prefix a s = true -> s = a +:+ drop (String.length a) s.
Proof.
  intros [post ->]%prefix_spec. now rewrite drop_append.
Qed.

(** What a match of the URL pattern at the start of [s] looks like. *)
Lemma match_url_here_spec (s url : string) :
  match_url_here s = Some url ->
  exists scheme body post,
    s = url +:+ post /\ url = scheme +:+ body /\
    (scheme = "http://" \/ scheme = "https://") /\
    nonempty body = true /\ all_chars url_char body = true /\
    match post with String c _ => url_char c = false | "" => True end.
Proof.
  assert (Hafter : forall scheme,
    (if String.prefix scheme s then
       if nonempty (span url_char (drop (String.length scheme) s))
       then Some (scheme +:+ span url_char (drop (String.length scheme) s))
       else None
     else None) = Some url ->
    exists body post,
      s = url +:+ post /\ url = scheme +:+ body /\
      nonempty body = true /\ all_chars url_char body = true /\
      match post with String c _ => url_char c = false | "" => True end).
  { intros scheme H.
    destruct (String.prefix scheme s) eqn:Hp; [| discriminate].
    destruct (nonempty (span url_char (drop (String.length scheme) s))) eqn:Hb;
      [| discriminate].
    injection H as <-.
    destruct (span_spec url_char (drop (String.length scheme) s))
      as (post & Hs & Hall & Hpost).
    exists (span url_char (drop (String.length scheme) s)), post.
    repeat split; try assumption.
    rewrite append_assoc, <- Hs. now apply drop_prefix. }
  unfold match_url_here.
  match goal with
  | |- match ?a with Some m => Some m | None => ?b end = _ -> _ =>
      destruct a as [m|] eqn:Hs
  end.
  - intros Heq. rewrite <- Heq in *. clear Heq.
    destruct (Hafter "https://" Hs) as (body & post & H).
    exists "https://", body, post. intuition.
  - intros Hh. destruct (Hafter "http://" Hh) as (body & post & H).
    exists "http://", body, post. intuition.
Qed.

(** The pattern matches wherever a scheme is followed by a character of a
    URL. *)
Lemma match_url_here_complete (scheme : string) (c : ascii) (post : string) :
  scheme = "http://" \/ scheme = "https://" -> url_char c = true ->
  match_url_here (scheme +:+ String c post) <> None.
Proof.
  intros [-> | ->] Hc; unfold match_url_here; cbn; rewrite Hc; discriminate.
Qed.

(** X2: the text returned by [_extract_url_from_text] is empty or a part
    of the given text made of "http://" or "https://" and of at least one
    character, none of which is white space or one of the excluded
    characters, and the URL ends where such a character or the text ends.
    It is not empty as soon as the text holds a scheme followed by a
    character of a URL. *)
Theorem extract_url_sound_and_complete (text : string) :
  let url := _extract_url_from_text text in
  (url = "" \/
   exists pre scheme body post,
     text = pre +:+ url +:+ post /\ url = scheme +:+ body /\
     (scheme = "http://" \/ scheme = "https://") /\
     nonempty body = true /\ all_chars url_char body = true /\
     match post with String c _ => url_char c = false | "" => True end) /\
  (forall pre scheme c post,
     scheme = "http://" \/ scheme = "https://" -> url_char c = true ->
     text = pre +:+ scheme +:+ String c post -> url <> "").
Proof.
  cbv zeta. split.
  - induction text as [|c s IH].
    + now left.
    + cbn [_extract_url_from_text].
      destruct (match_url_here (String c s)) as [m|] eqn:Hm.
      * right. destruct (match_url_here_spec _ _ Hm) as (scheme & body & post & H).
        exists "", scheme, body, post. simpl. intuition.
      * destruct IH as [IH | (pre & scheme & body & post & Ht & H)]; [now left |].
        right. exists (String c pre), scheme, body, post.
        split; [simpl; now rewrite <- Ht | exact H].
  - intros pre scheme c post Hscheme Hc ->.
    induction pre as [|d pre IH].
    + cbn [append].
      pose proof (match_url_here_complete scheme c post Hscheme Hc) as Hne.
      destruct (scheme +:+ String c post) as [|x rest] eqn:Ht.
      * destruct Hscheme as [-> | ->]; discriminate.
      * cbn [_extract_url_from_text].
        destruct (match_url_here (String x rest)) as [m|] eqn:Hm; [| congruence].
        destruct (match_url_here_spec _ _ Hm) as (sch & body & p & _ & -> & Hs & _).
        destruct Hs as [-> | ->]; discriminate.
    + change (String d pre +:+ scheme +:+ String c post)
        with (String d (pre +:+ scheme +:+ String c post)).
      cbn [_extract_url_from_text].
      destruct (match_url_here (String d (pre +:+ scheme +:+ String c post)))
        as [m|] eqn:Hm; [| exact IH].
      destruct (match_url_here_spec _ _ Hm) as (sch & body & p & _ & -> & Hs & _).
      destruct Hs as [-> | ->]; discriminate.
Qed.

Lemma extract_url_sound_and_complete_witness :
  _extract_url_from_text "see http://a.io/x now" <> "".
Proof.
  apply (proj2 (extract_url_sound_and_complete "see http://a.io/x now")
           "see " "http://" "a"%char ".io/x now");
    [left; reflexivity | reflexivity | reflexivity].
Defined.

(** ** Column categories *)

(** X3: [_categorize_column_type] does not depend on the case of the
    letters of the type name, and its six-way test on the lower-case name
    comes down to this: "numeric" when it contains "int", "float" or
    "number"; else "datetime" when it contains "date" or "timestamp"; else
    "boolean" when it contains "bool"; else "text".  (The tests for
    "datetime" and "boolean" add nothing to those for "date" and "bool".) *)
Theorem categorize_column_type_cases (dtype_str : string) :
  let name := lower dtype_str in
  _categorize_column_type dtype_str =
    (if contains "int" name || contains "float" name || contains "number" name
     then "numeric"
     else if contains "date" name || contains "timestamp" name then "datetime"
     else if contains "bool" name then "boolean"
     else "text") /\
  _categorize_column_type (lower dtype_str) = _categorize_column_type dtype_str.
Proof.
  cbv zeta. split.
  - unfold _categorize_column_type. cbn [existsb]. rewrite !orb_false_r.
    rewrite <- !orb_assoc.
    destruct (contains "int" (lower dtype_str)
              || (contains "float" (lower dtype_str)
                  || contains "number" (lower dtype_str))); [reflexivity |].
    destruct (contains "datetime" (lower dtype_str)) eqn:Hdt.
    + apply (contains_longer "date" "time") in Hdt. now rewrite Hdt.
    + cbn [orb]. rewrite (orb_comm (contains "timestamp" _)).
      destruct (contains "date" (lower dtype_str) || contains "timestamp" (lower dtype_str));
        [reflexivity |].
      destruct (contains "boolean" (lower dtype_str)) eqn:Hb.
      * apply (contains_longer "bool" "ean") in Hb. now rewrite Hb.
      * now rewrite orb_false_r.
  - unfold _categorize_column_type. now rewrite lower_idempotent.
Qed.

(** The names of some column types of the data-frame library. *)
Example categorize_column_type_examples :
  _categorize_column_type "Int64" = "numeric" /\
  _categorize_column_type "float32" = "numeric" /\
  _categorize_column_type "datetime64[ns]" = "datetime" /\
  _categorize_column_type "bool" = "boolean" /\
  _categorize_column_type "object" = "text" /\
  _categorize_column_type "interval[datetime64[ns]]" = "numeric".
Proof. repeat split. Qed.

(** ** Text cleaning *)

Lemma collapse_whitespace_plain (text : string) :
  all_chars plain (collapse_whitespace text) = true.
Proof.
  induction text as [|c rest IH]; [reflexivity |].
  cbn [collapse_whitespace].
  destruct (isspace c) eqn:Hc.
  - destruct rest as [|d rest']; [reflexivity |].
    destruct (isspace d); [exact IH |].
    cbn [all_chars]. now rewrite IH.
  - cbn [all_chars]. unfold plain at 1. now rewrite Hc, IH.
Qed.

Lemma length_take_le (n : nat) (s : string) : (String.length (take n s) <= n)%nat.
Proof.
  revert s; induction n as [|n IH]; intros [|c s]; simpl; try lia.
  specialize (IH s). lia.
Qed.

(** A text without the separator is a single field. *)
Lemma split_on_absent (sep : ascii) (s : string) :
  all_chars (fun c => negb (Ascii.eqb c sep)) s = true -> split_on sep s = [s].
Proof.
  induction s as [|c s IH]; simpl; [reflexivity |].
  intros [Hc Hs]%andb_true_iff. apply negb_true_iff in Hc. rewrite Hc.
  now rewrite (IH Hs).
Qed.

Lemma all_chars_impl (p q : ascii -> bool) (s : string) :
  (forall c, p c = true -> q c = true) -> all_chars p s = true -> all_chars q s = true.
Proof.
  intros Hpq. induction s as [|c s IH]; simpl; [reflexivity |].
  intros [Hc Hs]%andb_true_iff. now rewrite (Hpq c Hc), IH.
Qed.

Lemma clean_text_plain (text : string) : all_chars plain (_clean_text text) = true.
Proof.
  unfold _clean_text, strip.
  assert (H : all_chars plain (rstrip (lstrip (collapse_whitespace text))) = true)
    by apply all_chars_rstrip, all_chars_lstrip, collapse_whitespace_plain.
  destruct (len (rstrip (lstrip (collapse_whitespace text))) >? 50000); [| exact H].
  rewrite all_chars_append. apply andb_true_iff. split; [| reflexivity].
  now apply all_chars_take.
Qed.

(** X4: a cleaned text has at most [50000 + 15] characters, and its only
    white space is the space: no tab and no line end is left.  When the
    text, its white space collapsed and its ends stripped, has at most 50000
    characters, it is returned as it is, without the truncation suffix. *)
Theorem clean_text_bounded (text : string) :
  len (_clean_text text) <= 50000 + len TRUNCATED_SUFFIX /\
  len TRUNCATED_SUFFIX = 15 /\
  all_chars plain (_clean_text text) = true /\
  contains newline (_clean_text text) = false /\
  (len (strip (collapse_whitespace text)) <= 50000 ->
   _clean_text text = strip (collapse_whitespace text)).
Proof.
  split; [| split; [reflexivity | split; [apply clean_text_plain | split]]].
  - unfold _clean_text.
    destruct (Z.gtb_spec (len (strip (collapse_whitespace text))) 50000) as [Hgt|Hle].
    + unfold len. rewrite length_append. unfold slice_to.
      pose proof (length_take_le
                    (slice_bound (len (strip (collapse_whitespace text))) 50000)
                    (strip (collapse_whitespace text))) as Htake.
      assert (Hb : Z.of_nat (slice_bound (len (strip (collapse_whitespace text))) 50000)
                   <= 50000).
      { unfold slice_bound. cbn [Z.ltb Z.compare]. lia. }
      unfold len in *. lia.
    + change (len TRUNCATED_SUFFIX) with 15. lia.
  - pose proof (clean_text_plain text) as H.
    induction (_clean_text text) as [|c s IH]; [reflexivity |].
    cbn [all_chars] in H. apply andb_true_iff in H as [Hc Hs].
    unfold newline in *. rewrite contains_char_cons, (IH Hs), orb_false_r.
    destruct (Ascii.eqb_spec "010"%char c) as [<-|Hne]; [discriminate | reflexivity].
  - intros Hle. unfold _clean_text.
    destruct (Z.gtb_spec (len (strip (collapse_whitespace text))) 50000); [lia | reflexivity].
Qed.

Lemma clean_text_bounded_witness :
  _clean_text (" a" +:+ newline +:+ " b ") = strip (collapse_whitespace (" a" +:+ newline +:+ " b ")).
Proof.
  apply (clean_text_bounded (" a" +:+ newline +:+ " b ")). vm_compute. discriminate.
Defined.

(** X5: the number of lines reported by [_parse_text_content] is 1 for
    every text: the count is made on the cleaned text, which has no line end
    left. *)
Theorem parse_text_content_line_count (text url content_type : string) :
  match _parse_text_content text url content_type with
  | VDict items =>
      items_get items "line_count" = Some (VInt 1) /\
      items_get items "text_content" = Some (VStr (_clean_text text)) /\
      items_get items "success" = Some (VBool true)
  | _ => False
  end.
Proof.
  unfold _parse_text_content. cbn [items_get String.eqb Ascii.eqb Bool.eqb].
  split; [| split; reflexivity].
  rewrite split_on_absent; [reflexivity |].
  eapply all_chars_impl; [| apply clean_text_plain].
  intros c Hc. destruct (Ascii.eqb_spec c "010"%char) as [->|]; [discriminate | reflexivity].
Qed.

(** Three lines go in, one line is counted. *)
Example parse_text_content_three_lines :
  _parse_text_content ("one" +:+ newline +:+ "two" +:+ newline +:+ "three")
                      "http://a.io/notes.txt" "text/plain" =
  VDict [ ("success", VBool true); ("url", VStr "http://a.io/notes.txt");
          ("content_type", VStr "text/plain");
          ("text_content", VStr "one two three");
          ("word_count", VInt 3); ("line_count", VInt 1) ].
Proof. reflexivity. Qed.

(** ** The structure summary *)

Lemma list_max_map_le {A} (f : A -> nat) (l : list A) (n : nat) :
  (forall x, In x l -> (f x <= n)%nat) -> (list_max (List.map f l) <= n)%nat.
Proof.
  intros H. apply List.list_max_le. apply List.Forall_forall.
  intros k (x & <- & Hx)%List.in_map_iff. now apply H.
Qed.

Lemma nesting_analyze_levels (levels : nat) (data : value) :
  (nesting (analyze_levels levels data) <= 2 * levels + 1)%nat.
Proof.
  revert data. induction levels as [|levels IH]; intros data.
  - cbn. lia.
  - destruct data; cbn [analyze_levels nesting List.map snd];
      try (cbn; lia).
    + rewrite List.map_map.
      pose proof (list_max_map_le (fun v => nesting (analyze_levels levels v))
                    (firstn 3 items) (2 * levels + 1) (fun v _ => IH v)) as Hmax.
      cbn [list_max fold_right]. lia.
    + rewrite !List.map_map. cbn [snd nesting].
      pose proof (list_max_map_le
                    (fun kv : string * value => nesting (analyze_levels levels (snd kv)))
                    (firstn 3 items) (2 * levels + 1) (fun kv _ => IH (snd kv))) as Hmax.
      pose proof (list_max_map_le (fun kv : string * value => O)
                    (firstn 10 items) 0 (fun kv _ => Nat.le_refl 0)) as Hkeys.
      cbn [list_max fold_right]. 
      lia.
Qed.

(** X6: the summary returned by [_analyze_json_structure] is a dictionary
    that names the type of the data under "type", and its lists and
    dictionaries are nested at most [2 * max_depth + 1] deep, however deep
    the data is; with no level left ([max_depth <= 0]) it holds the type
    name and the truncation flag only. *)
Theorem analyze_json_structure_depth (data : value) (max_depth : Z) :
  (nesting (_analyze_json_structure data max_depth) <= 2 * Z.to_nat max_depth + 1)%nat /\
  (exists items,
     _analyze_json_structure data max_depth = VDict items /\
     items_get items "type" = Some (VStr (type_name data))) /\
  (max_depth <= 0 ->
   _analyze_json_structure data max_depth =
     VDict [("type", VStr (type_name data)); ("truncated", VBool true)]).
Proof.
  unfold _analyze_json_structure. split; [apply nesting_analyze_levels |]. split.
  - destruct (Z.to_nat max_depth) as [|levels]; [eexists; split; reflexivity |].
    destruct data; eexists; split; reflexivity.
  - intros Hle. replace (Z.to_nat max_depth) with O by lia. reflexivity.
Qed.

Lemma analyze_json_structure_depth_witness :
  _analyze_json_structure (VList [VInt 1]) 0 =
    VDict [("type", VStr "list"); ("truncated", VBool true)].
Proof. apply (analyze_json_structure_depth (VList [VInt 1]) 0). lia. Defined.

(** A document nested four deep, summarised with the default of three
    levels: the innermost list is cut. *)
Example analyze_json_structure_default :
  _analyze_json_structure
    (VDict [("rows", VList [VDict [("tags", VList [VStr "a"; VStr "b"])]])]) 3 =
  VDict [ ("type", VStr "dict"); ("keys", VList [VStr "rows"]); ("key_count", VInt 1);
          ("sample_values",
           VDict [("rows",
             VDict [ ("type", VStr "list"); ("length", VInt 1);
                     ("sample_items",
                      VList [VDict [ ("type", VStr "dict"); ("keys", VList [VStr "tags"]);
                                     ("key_count", VInt 1);
                                     ("sample_values",
                                      VDict [("tags",
                                        VDict [("type", VStr "list");
                                               ("truncated", VBool true)])]) ]]) ])]) ].
Proof. reflexivity. Qed.

(** ** Parameter validation and dispatch *)

Lemma registered_cases (tool_name : string) :
  existsb (String.eqb tool_name) available_tools = true ->
  tool_name = "web_scraper" \/ tool_name = "data_inspector" \/ tool_name = "data_reader".
Proof.
  intros (name & Hin & Heq)%List.existsb_exists. apply String.eqb_eq in Heq. subst name.
  cbn in Hin. intuition.
Qed.


(** The registry of [execute_tool] and the descriptions of
    [get_available_tools] list the same tools. *)
Lemma get_available_tools_registry :
  List.map fst get_available_tools = available_tools.
Proof. reflexivity. Qed.

(** ** Properties of traces that pass through sequencing *)

Section Keeping.
Context {W : Type} (P : list event -> Prop) (HP : additive P).

Lemma keeps_ret {A} (a : A) : spec (ret (W:=W) a) (keeps P).
Proof. apply spec_ret. apply HP. Qed.

Lemma keeps_raise {A} (e : exn) : spec (raise (W:=W) (A:=A) e) (keeps P).
Proof. apply spec_raise. apply HP. Qed.

Lemma keeps_out_of_fuel {A} : spec (out_of_fuel (W:=W) (A:=A)) (keeps P).
Proof. intros w. apply HP. Qed.

Lemma keeps_emit (ev : event) : P [ev] -> spec (emit (W:=W) ev) (keeps P).
Proof. intros H. now apply spec_emit. Qed.

Lemma keeps_call {A} (ev : event) (f : W -> (exn + A) * W) :
  P [ev] -> spec (call ev f) (keeps P).
Proof. intros H. apply spec_call; intros; exact H. Qed.

Lemma keeps_call_total {A} (ev : event) (f : W -> A * W) :
  P [ev] -> spec (call_total ev f) (keeps P).
Proof. intros H. apply spec_call_total; intros; exact H. Qed.

Lemma keeps_bind {A B} (m : M W A) (k : A -> M W B) :
  spec m (keeps P) -> (forall a, spec (k a) (keeps P)) -> spec (bind m k) (keeps P).
Proof.
  intros Hm Hk. apply spec_bind. eapply spec_weaken; [exact Hm |].
  intros [a|e|] t1 H1; try exact H1.
  eapply spec_weaken; [apply Hk |]. intros out2 t2 H2. now apply HP.
Qed.

Lemma keeps_catching {A} (m : M W A) :
  spec m (keeps P) -> spec (catching m) (keeps P).
Proof.
  intros Hm. apply spec_catching. eapply spec_weaken; [exact Hm |].
  now intros [a|e|] tr H.
Qed.

Lemma keeps_try_except {A} (m : M W A) (hd : exn -> M W A) :
  spec m (keeps P) -> (forall e, spec (hd e) (keeps P)) ->
  spec (try_except m hd) (keeps P).
Proof.
  intros Hm Hh. apply spec_try_except. eapply spec_weaken; [exact Hm |].
  intros [a|e|] t1 H1; try exact H1.
  eapply spec_weaken; [apply Hh |]. intros out2 t2 H2. now apply HP.
Qed.

End Keeping.

Lemma spec_and {W A} (m : M W A) (Q1 Q2 : outcome A -> list event -> Prop) :
  spec m Q1 -> spec m Q2 -> spec m (fun out tr => Q1 out tr /\ Q2 out tr).
Proof.
  intros H1 H2 w. specialize (H1 w). specialize (H2 w).
  destruct (m w) as [[out w'] tr]. auto.
Qed.

Lemma additive_Forall (p : event -> Prop) : additive (Forall p).
Proof. split; [constructor | intros t1 t2 H1 H2; now apply Forall_app]. Qed.

Lemma additive_calls_per_correction (rate : nat) : additive (calls_per_correction rate).
Proof.
  split; [unfold calls_per_correction; rewrite !count_nil; lia |].
  unfold calls_per_correction. intros t1 t2 H1 H2. rewrite !count_app. lia.
Qed.

(** ** The model gateway, continued *)

Lemma sleeps_length (tr : list event) : List.length (sleeps tr) = count is_sleep tr.
Proof.
  induction tr as [|ev tr IH]; [reflexivity |].
  rewrite count_cons. destruct ev; simpl; lia.
Qed.

Section GatewayBounds.
Context {W : Type} (E : Env W) (h : LLMHandler).

Lemma spec_model_call sm p (Q : outcome response -> list event -> Prop) :
  (forall r, Q (Ret r) [EvModelCall sm p (inr r)]) ->
  (forall e, Q (Raise e) [EvModelCall sm p (inl e)]) ->
  spec (model_call E sm p) Q.
Proof.
  intros Hok Herr w. unfold model_call.
  destruct (generate_content E sm p w) as [[e|r] w']; auto.
Qed.

(** A sleep is refused, with no event, or lasts the duration asked for. *)
Lemma spec_sleep (seconds : Z) (Q : outcome unit -> list event -> Prop) :
  (forall e, Q (Raise e) []) ->
  (0 <= seconds -> Q (Ret tt) [EvSleep seconds]) ->
  spec (sleep E seconds) Q.
Proof.
  intros Hrefused Hok w. unfold sleep.
  destruct ((seconds <? - SLEEP_MAX) || (SLEEP_MAX <? seconds)); [apply Hrefused |].
  destruct (Z.ltb_spec seconds 0); [apply Hrefused |].
  destruct (os_wait E seconds w) as [[e|[]] w']; [apply Hrefused | now apply Hok].
Qed.

End GatewayBounds.

Section RetryLoop.
Context {W : Type} (E : Env W) (h : LLMHandler).

Lemma call_llm_from_bounded (remaining : nat) :
  forall attempt sm p,
    remaining = O \/ Z.of_nat remaining + attempt = max_retries h ->
    spec (call_llm_from E h remaining attempt sm p)
         (retry_post h remaining attempt sm p).
Proof.
  induction remaining as [|n IH]; intros attempt sm p Hinv.
  - apply spec_raise. unfold retry_post. conjs; try reflexivity; try constructor.
    + discriminate.
    + lia.
  - destruct Hinv as [Hinv|Hinv]; [discriminate |].
    rewrite call_llm_from_S. apply spec_bind, spec_catching, spec_model_call.
    + intros r. apply spec_ret. cbn [app]. unfold retry_post.
      rewrite !count_cons, count_nil. cbn [is_model_call sleeps List.length backoff].
      conjs; try reflexivity; try discriminate; try lia; repeat constructor.
    + intros e.
      destruct (Z.ltb_spec attempt (max_retries h - 1)) as [Hlt|Hge].
      * apply spec_bind, spec_sleep.
        -- intros refusal. cbn [app]. unfold retry_post.
           rewrite !count_cons, count_nil. cbn [is_model_call sleeps List.length backoff].
           conjs; try reflexivity; try discriminate; try lia; repeat constructor.
        -- intros _.
           eapply spec_weaken; [apply (IH (attempt + 1) sm p); right; lia |].
           intros out tr (Hout & Hcalls & Hsleeps & _ & Hback & Hsends & Hkinds).
           cbn [app]. unfold retry_post.
           rewrite !count_cons. cbn [is_model_call sleeps List.length].
           conjs; try assumption; try discriminate; try lia.
           ++ cbn [backoff]. now rewrite <- Hback.
           ++ apply List.Forall_cons; [split; reflexivity |].
              apply List.Forall_cons; [exact I | exact Hsends].
           ++ apply List.Forall_cons; [reflexivity |].
              apply List.Forall_cons; [reflexivity | exact Hkinds].
      * apply spec_raise. cbn [app]. unfold retry_post.
        rewrite !count_cons, count_nil. cbn [is_model_call sleeps List.length backoff].
        conjs; try reflexivity; try discriminate; try lia; repeat constructor.
Qed.

End RetryLoop.

(** X8: whatever the model does, a call of [call_llm] ends and makes at
    most [max_retries] model calls.  Without a credential, or with
    [max_retries] below 1, it calls nothing and sleeps never; otherwise it
    calls the model at least once and sleeps fewer times than it calls the
    model.  It sleeps for [retry_delay * 2^k] seconds the [k]-th time (from
    0), and sends the same system message and the same prompt, the given
    one truncated to 3000 tokens, at every attempt.  Its trace holds nothing
    but model calls and sleeps. *)
Theorem call_llm_attempts_bounded {W : Type} (E : Env W) (h : LLMHandler)
    (prompt : string) (system_message : option string) (w : W) :
  match call_llm E h prompt system_message w with
  | (out, _, tr) =>
      out <> OutOfFuel /\
      (count is_model_call tr <= Z.to_nat (max_retries h))%nat /\
      (if truthy_opt (api_key h) && (0 <? max_retries h)
       then (count is_sleep tr < count is_model_call tr)%nat
       else tr = []) /\
      sleeps tr = backoff (retry_delay h) 0 (count is_sleep tr) /\
      Forall (sends (if truthy_opt system_message then system_message else None)
                    (truncate_prompt prompt 3000)) tr /\
      Forall (fun ev => is_model_call ev || is_sleep ev = true) tr
  end.
Proof.
  unfold call_llm. destruct (truthy_opt (api_key h)); cbn [negb andb].
  2: { cbn. rewrite !count_nil. conjs; try reflexivity; try constructor; try lia.
       discriminate. }
  - match goal with
    | |- context [call_llm_from E h ?n 0 ?sm ?p w] =>
        pose proof (call_llm_from_bounded E h n 0 sm p) as Hspec;
        specialize (Hspec ltac:(destruct (Z.to_nat (max_retries h)) eqn:Hn; [now left | right; lia]) w);
        destruct (call_llm_from E h n 0 sm p w) as [[out w'] tr]
    end.
    destruct Hspec as (Hout & Hcalls & Hsleeps & Hnil & Hback & Hsends & Hkinds).
    rewrite <- sleeps_length.
    conjs; try assumption.
    destruct (Z.ltb_spec 0 (max_retries h)) as [Hpos|Hneg].
    + specialize (Hsleeps ltac:(lia)). lia.
    + apply Hnil. lia.
Qed.

Section GatewayRuns.
Context {W : Type} (E : Env W) (h : LLMHandler).

(** The two ways a call of [call_llm] goes: refused for want of a
    credential, or through the retry loop. *)
Lemma call_llm_cases (prompt : string) (system_message : option string) :
  spec (call_llm E h prompt system_message)
       (fun out tr =>
          (truthy_opt (api_key h) = false /\ tr = [] /\
           out = Raise (ValueError "Gemini API key not configured")) \/
          (truthy_opt (api_key h) = true /\
           retry_post h (Z.to_nat (max_retries h)) 0
             (if truthy_opt system_message then system_message else None)
             (truncate_prompt prompt 3000) out tr)).
Proof.
  unfold call_llm. destruct (truthy_opt (api_key h)); cbn [negb].
  - eapply spec_weaken; [apply call_llm_from_bounded |].
    + destruct (Z.to_nat (max_retries h)) eqn:Hn; [now left | right; lia].
    + intros out tr H. right. auto.
  - apply spec_raise. left. auto.
Qed.

(** A model that fails with [errors] and then answers is asked
    [length errors + 1] times, and its answer is returned. *)
Lemma call_llm_from_recovers (errors : list exn) :
  forall remaining attempt sm p reply w w',
    0 <= retry_delay h -> 0 <= attempt ->
    retry_delay h * 2 ^ (attempt + Z.of_nat (List.length errors) - 1) <= SLEEP_MAX ->
    (List.length errors < remaining)%nat ->
    attempt + Z.of_nat (List.length errors) < max_retries h ->
    replies_after E sm p (retry_delay h) attempt errors reply w w' ->
    call_llm_from E h remaining attempt sm p w =
      (Ret (response_text reply), w',
       recovery_trace sm p (retry_delay h) attempt errors reply).
Proof.
  induction errors as [|e rest IH];
    intros remaining attempt sm p reply w w' Hdelay Hatt Hfits Hrem Hmax Hreplies;
    (destruct remaining as [|n]; [cbn in Hrem; lia |]);
    rewrite call_llm_from_S.
  - eapply run_bind_ret; [apply run_model_call_ok, Hreplies | reflexivity | reflexivity].
  - destruct Hreplies as (w1 & w2 & Hfail & Hwait & Hrest). cbn [List.length] in *.
    eapply run_bind_ret; [apply run_model_call_fail, Hfail | | reflexivity].
    destruct (Z.ltb_spec attempt (max_retries h - 1)); [| lia].
    pose proof (backoff_delay_bounds (retry_delay h) attempt
                  (attempt + Z.of_nat (S (List.length rest)) - 1) Hdelay ltac:(lia))
      as Hbounds.
    eapply run_bind_ret;
      [ apply run_sleep; [lia | exact Hwait]
      | apply IH; try eassumption; try lia
      | reflexivity ].
    replace (attempt + 1 + Z.of_nat (List.length rest) - 1)
      with (attempt + Z.of_nat (S (List.length rest)) - 1) by lia.
    exact Hfits.
Qed.
(** A text returned by the retry loop is the stripped text of the reply to
    its last model call, the only call that succeeded. *)
Lemma call_llm_from_returns (remaining : nat) :
  forall attempt sm p,
    spec (call_llm_from E h remaining attempt sm p)
         (fun out tr =>
            match out with
            | Ret t =>
                exists before reply,
                  tr = (before ++ [EvModelCall sm p (inr reply)])%list /\
                  t = response_text reply /\
                  Forall (fun ev => match ev with
                                    | EvModelCall _ _ (inr _) => False
                                    | _ => True
                                    end) before
            | _ => True
            end).
Proof.
  induction remaining as [|n IH]; intros attempt sm p.
  - now apply spec_raise.
  - rewrite call_llm_from_S. apply spec_bind, spec_catching, spec_model_call.
    + intros r. apply spec_ret. exists [], r. repeat split. constructor.
    + intros e. destruct (attempt <? max_retries h - 1); [| now apply spec_raise].
      apply spec_bind, spec_sleep; [trivial |]. intros _.
      eapply spec_weaken; [apply IH |].
      intros [t|e'|] tr H; try exact I.
      destruct H as (before & reply & -> & -> & Hbefore).
      exists (EvModelCall sm p (inl e) :: EvSleep (retry_delay h * 2 ^ attempt) :: before),
             reply.
      repeat split. repeat (apply List.Forall_cons; [exact I |]). exact Hbefore.
Qed.

End GatewayRuns.

Lemma recovery_trace_sleeps sm p d a errors reply :
  sleeps (recovery_trace sm p d a errors reply) = backoff d a (List.length errors).
Proof.
  revert a; induction errors as [|e rest IH]; intros a; [reflexivity |].
  cbn [recovery_trace sleeps List.length backoff]. now rewrite IH.
Qed.

Lemma recovery_trace_calls sm p d a errors reply :
  count is_model_call (recovery_trace sm p d a errors reply) = S (List.length errors).
Proof.
  revert a; induction errors as [|e rest IH]; intros a; [reflexivity |].
  cbn [recovery_trace List.length]. rewrite !count_cons, IH. reflexivity.
Qed.

(** X9: with a credential, a delay that is not negative and back-offs of at
    most 9223372036 seconds, a model that fails [k] times, [k < max_retries],
    each wait being granted, and then answers is asked [k + 1] times;
    [call_llm] sleeps [retry_delay * 2^i] after the [i]-th failure,
    [retry_delay * (2^k - 1)] seconds in all, and returns the stripped text
    of the answer. *)
Theorem call_llm_recovers {W : Type} (E : Env W) (h : LLMHandler)
    (prompt : string) (system_message : option string) (errors : list exn)
    (reply : response) (w w' : W) :
  let sm := if truthy_opt system_message then system_message else None in
  let p := truncate_prompt prompt 3000 in
  let tr := recovery_trace sm p (retry_delay h) 0 errors reply in
  truthy_opt (api_key h) = true -> 0 <= retry_delay h ->
  retry_delay h * 2 ^ (Z.of_nat (List.length errors) - 1) <= SLEEP_MAX ->
  Z.of_nat (List.length errors) < max_retries h ->
  replies_after E sm p (retry_delay h) 0 errors reply w w' ->
  call_llm E h prompt system_message w = (Ret (response_text reply), w', tr) /\
  count is_model_call tr = S (List.length errors) /\
  sleeps tr = backoff (retry_delay h) 0 (List.length errors) /\
  total (sleeps tr) = retry_delay h * (2 ^ Z.of_nat (List.length errors) - 1).
Proof.
  intros sm p tr Hkey Hdelay Hfits Hmax Hreplies. subst tr.
  rewrite recovery_trace_calls, recovery_trace_sleeps.
  split; [| split; [reflexivity | split; [reflexivity |]]].
  - unfold call_llm. rewrite Hkey. cbn [negb].
    apply call_llm_from_recovers; try assumption; lia.
  - rewrite total_backoff, powers_of_two_sum_closed by lia.
    rewrite Z.pow_0_r. lia.
Qed.

Lemma call_llm_recovers_witness :
  call_llm scripted default_handler "What is 2+2?" None recovering_script =
    (Ret (response_text (text_reply " 4 ")), empty_script,
     recovery_trace None (truncate_prompt "What is 2+2?" 3000) 1 0
       [model_unavailable; model_unavailable] (text_reply " 4 ")) /\
  count is_model_call
    (recovery_trace None (truncate_prompt "What is 2+2?" 3000) 1 0
       [model_unavailable; model_unavailable] (text_reply " 4 ")) = 3%nat /\
  sleeps (recovery_trace None (truncate_prompt "What is 2+2?" 3000) 1 0
            [model_unavailable; model_unavailable] (text_reply " 4 ")) =
    backoff 1 0 2 /\
  total (sleeps (recovery_trace None (truncate_prompt "What is 2+2?" 3000) 1 0
                   [model_unavailable; model_unavailable] (text_reply " 4 "))) =
    1 * (2 ^ Z.of_nat 2 - 1).
Proof.
  apply (call_llm_recovers scripted default_handler "What is 2+2?" None
           [model_unavailable; model_unavailable] (text_reply " 4 ")
           recovering_script empty_script).
  - reflexivity.
  - simpl. lia.
  - vm_compute. discriminate.
  - simpl. lia.
  - eexists _, _. split; [reflexivity |]. split; [reflexivity |].
    eexists _, _. split; [reflexivity |]. split; reflexivity.
Defined.

(** X10: settings that make [call_llm] fail on its own account.  With
    [max_retries] at zero or below no model call is made and the error is
    "Max retries exceeded for LLM API call".  With at least two attempts
    allowed and a [retry_delay] that [time.sleep] refuses, the first failure
    of the model is followed by that refusal: the call ends after one
    attempt with the error of [time.sleep], not with the error of the model.
    The refusal is the [ValueError] "sleep length must be non-negative" for
    a delay from -9223372036 to -1, and the [OverflowError] "timestamp too
    large to convert to C _PyTime_t" for a delay below -9223372036 or above
    9223372036. *)
Theorem call_llm_degenerate_settings {W : Type} (E : Env W) (h : LLMHandler)
    (prompt : string) (system_message : option string) (w : W) :
  let sm := if truthy_opt system_message then system_message else None in
  let p := truncate_prompt prompt 3000 in
  truthy_opt (api_key h) = true ->
  (max_retries h <= 0 ->
   call_llm E h prompt system_message w =
     (Raise (PlainException "Max retries exceeded for LLM API call"), w, [])) /\
  (forall e w1,
     2 <= max_retries h ->
     generate_content E sm p w = (inl e, w1) ->
     (- 9223372036 <= retry_delay h < 0 ->
      call_llm E h prompt system_message w =
        (Raise (ValueError "sleep length must be non-negative"), w1,
         [EvModelCall sm p (inl e)])) /\
     (retry_delay h < - 9223372036 \/ 9223372036 < retry_delay h ->
      call_llm E h prompt system_message w =
        (Raise (OverflowError "timestamp too large to convert to C _PyTime_t"), w1,
         [EvModelCall sm p (inl e)]))).
Proof.
  intros sm p Hkey. unfold call_llm. rewrite Hkey. cbn [negb]. split.
  - intros Hle. replace (Z.to_nat (max_retries h)) with O by lia. reflexivity.
  - intros e w1 Hretries Hfail.
    destruct (Z.to_nat (max_retries h)) as [|n] eqn:Hn; [lia |].
    rewrite call_llm_from_S.
    split; intros Hdelay;
      (eapply run_bind_ret; [apply run_model_call_fail, Hfail | | reflexivity]);
      (destruct (Z.ltb_spec 0 (max_retries h - 1)); [| lia]);
      apply run_bind_raise; unfold sleep;
      rewrite Z.pow_0_r, Z.mul_1_r;
      destruct ((retry_delay h <? - SLEEP_MAX) || (SLEEP_MAX <? retry_delay h))
        eqn:Hrange.
    + apply orb_true_iff in Hrange as [Hr|Hr]; apply Z.ltb_lt in Hr;
        unfold SLEEP_MAX in Hr; lia.
    + destruct (Z.ltb_spec (retry_delay h) 0); [reflexivity | lia].
    + reflexivity.
    + apply orb_false_iff in Hrange as [Hr1 Hr2].
      apply Z.ltb_ge in Hr1, Hr2. unfold SLEEP_MAX in *. lia.
Qed.

Lemma call_llm_degenerate_settings_witness :
  call_llm offline {| api_key := Some "key"; max_retries := 0; retry_delay := 1 |}
    "What is 2+2?" None empty_script =
    (Raise (PlainException "Max retries exceeded for LLM API call"), empty_script, []) /\
  call_llm offline negative_delay_handler "What is 2+2?" None empty_script =
    (Raise (ValueError "sleep length must be non-negative"), empty_script,
     [EvModelCall None (truncate_prompt "What is 2+2?" 3000) (inl model_unavailable)]) /\
  call_llm offline {| api_key := Some "key"; max_retries := 2; retry_delay := 10 ^ 10 |}
    "What is 2+2?" None empty_script =
    (Raise (OverflowError "timestamp too large to convert to C _PyTime_t"), empty_script,
     [EvModelCall None (truncate_prompt "What is 2+2?" 3000) (inl model_unavailable)]).
Proof.
  split; [| split].
  - apply (call_llm_degenerate_settings offline
             {| api_key := Some "key"; max_retries := 0; retry_delay := 1 |}
             "What is 2+2?" None empty_script); [reflexivity | simpl; lia].
  - apply (proj1 (proj2 (call_llm_degenerate_settings offline negative_delay_handler
                           "What is 2+2?" None empty_script eq_refl)
                    model_unavailable empty_script ltac:(simpl; lia) eq_refl)).
    simpl. lia.
  - apply (proj2 (proj2 (call_llm_degenerate_settings offline
                           {| api_key := Some "key"; max_retries := 2;
                              retry_delay := 10 ^ 10 |}
                           "What is 2+2?" None empty_script eq_refl)
                    model_unavailable empty_script ltac:(simpl; lia) eq_refl)).
    right. simpl. lia.
Defined.


(** ** System messages *)

Section SystemMessageFacts.
Context (str : value -> string).

(** The message is built from the values of three fields only. *)
Lemma build_system_message_ext (c1 c2 : gmap string value) :
  (forall key, In key ["data_type"; "data_structure"; "previous_error"] ->
     default VNone (c1 !! key) = default VNone (c2 !! key) \/
     (truthy (default VNone (c1 !! key)) = false /\
      truthy (default VNone (c2 !! key)) = false)) ->
  _build_system_message str c1 = _build_system_message str c2.
Proof.
  intros H. unfold _build_system_message.
  destruct (H "data_type" ltac:(cbn; auto)) as [-> | [-> ->]];
  destruct (H "data_structure" ltac:(cbn; auto)) as [-> | [-> ->]];
  destruct (H "previous_error" ltac:(cbn; auto)) as [-> | [-> ->]];
  reflexivity.
Qed.

Lemma base_system_message_prefix (context : gmap string value) :
  exists rest, _build_system_message str context = BASE_SYSTEM_MESSAGE +:+ rest.
Proof.
  unfold _build_system_message.
  destruct (truthy (default VNone (context !! "data_type")));
  destruct (truthy (default VNone (context !! "data_structure")));
  destruct (truthy (default VNone (context !! "previous_error")));
  rewrite ?append_assoc; eexists; reflexivity.
Qed.

End SystemMessageFacts.

(** X12: the system message begins with the persona text, whatever the
    context; it depends on the fields "data_type", "data_structure" and
    "previous_error" only; a field whose value is false in the sense of
    Python (the empty text, zero, [None], an empty list) counts as absent;
    and with none of the three fields the message is the persona text
    alone. *)
Theorem build_system_message_fields (str : value -> string)
    (context : gmap string value) :
  (exists rest, _build_system_message str context = BASE_SYSTEM_MESSAGE +:+ rest) /\
  (forall key v,
     ~ In key ["data_type"; "data_structure"; "previous_error"] ->
     _build_system_message str (<[key := v]> context) =
       _build_system_message str context) /\
  (forall key v,
     truthy v = false ->
     _build_system_message str (<[key := v]> context) =
       _build_system_message str (delete key context)) /\
  (context !! "data_type" = None -> context !! "data_structure" = None ->
   context !! "previous_error" = None ->
   _build_system_message str context = BASE_SYSTEM_MESSAGE).
Proof.
  split; [apply base_system_message_prefix |]. split; [| split].
  - intros key v Hkey. apply build_system_message_ext. intros k Hk. left.
    rewrite lookup_insert_ne; [reflexivity |]. intros ->. contradiction.
  - intros key v Hv. apply build_system_message_ext. intros k _.
    destruct (decide (key = k)) as [->|Hne].
    + right. rewrite lookup_insert_eq, lookup_delete_eq. auto.
    + left. now rewrite lookup_insert_ne, lookup_delete_ne.
  - intros H1 H2 H3. unfold _build_system_message. now rewrite H1, H2, H3.
Qed.

Lemma build_system_message_fields_witness :
  _build_system_message str_scalar (<["user" := VStr "ada"]> ∅) =
    _build_system_message str_scalar ∅ /\
  _build_system_message str_scalar (<["previous_error" := VStr ""]> ∅) =
    _build_system_message str_scalar (delete "previous_error" ∅) /\
  _build_system_message str_scalar ∅ = BASE_SYSTEM_MESSAGE.
Proof.
  split; [| split].
  - apply (proj1 (proj2 (build_system_message_fields str_scalar ∅))).
    cbn. intuition discriminate.
  - apply (proj1 (proj2 (proj2 (build_system_message_fields str_scalar ∅)))).
    reflexivity.
  - apply (proj2 (proj2 (proj2 (build_system_message_fields str_scalar ∅))));
      reflexivity.
Defined.

(** A context with the three fields. *)
Example build_system_message_full :
  _build_system_message str_scalar
    (<["data_type" := VStr "csv"]>
       (<["data_structure" := VStr "3 columns"]>
          {["previous_error" := VStr "NameError"]})) =
  BASE_SYSTEM_MESSAGE +:+ newline +:+ newline +:+ "Data type: csv" +:+
  newline +:+ "Data structure: 3 columns" +:+
  newline +:+ newline +:+ "Previous error encountered: NameError" +:+
  newline +:+ "Please fix the error and ensure the code runs successfully.".
Proof. vm_compute. reflexivity. Qed.

(** X13: every model call made by [call_llm_with_context] carries the
    system message built from the context, which begins with the persona
    text and is therefore never dropped as empty, and the prompt truncated
    to 3000 tokens; the calls are at most [max_retries]. *)
Theorem call_llm_with_context_sends_persona {W : Type} (E : Env W)
    (h : LLMHandler) (str : value -> string) (prompt : string)
    (context : gmap string value) (w : W) :
  match call_llm_with_context str E h prompt context w with
  | (out, _, tr) =>
      out <> OutOfFuel /\
      Forall (sends (Some (_build_system_message str context))
                    (truncate_prompt prompt 3000)) tr /\
      (exists rest,
         _build_system_message str context = BASE_SYSTEM_MESSAGE +:+ rest) /\
      (count is_model_call tr <= Z.to_nat (max_retries h))%nat
  end.
Proof.
  unfold call_llm_with_context.
  pose proof (base_system_message_prefix str context) as [rest Hrest].
  pose proof (call_llm_cases E h prompt (Some (_build_system_message str context)) w)
    as Hspec.
  destruct (call_llm E h prompt (Some (_build_system_message str context)) w)
    as [[out w'] tr].
  assert (Htruthy : truthy_opt (Some (_build_system_message str context)) = true)
    by (rewrite Hrest; reflexivity).
  rewrite Htruthy in Hspec.
  destruct Hspec as [(_ & -> & ->) | (_ & Hout & Hcalls & _ & _ & _ & Hsends & _)].
  - rewrite count_nil. conjs; [discriminate | constructor | eauto | lia].
  - conjs; eauto.
Qed.

(** ** The credential check *)

(** X14: [validate_api_key] never raises.  Without a credential it answers
    [False] and asks nothing; with one it asks the model once, without
    retry or sleep, and answers [True] exactly when the model replies with a
    text that contains "working", in any letter case. *)
Theorem validate_api_key_total {W : Type}
    (generate_content_plain : string -> W -> (exn + response) * W)
    (h : LLMHandler) (w : W) :
  match validate_api_key generate_content_plain h w with
  | (Ret answer, w', tr) =>
      if truthy_opt (api_key h) then
        exists outcome,
          generate_content_plain "Say 'working' if API key is valid." w =
            (outcome, w') /\
          tr = [EvModelCall None "Say 'working' if API key is valid." outcome] /\
          answer = match outcome with
                   | inr reply =>
                       contains "working" (lower (default "" (text reply)))
                   | inl _ => false
                   end
      else answer = false /\ tr = [] /\ w' = w
  | _ => False
  end.
Proof.
  unfold validate_api_key.
  destruct (truthy_opt (api_key h)); cbn [negb]; [| now cbn].
  unfold try_except, bind, plain_model_call.
  destruct (generate_content_plain "Say 'working' if API key is valid." w)
    as [[e|reply] w1]; cbn.
  - eexists. repeat split.
  - eexists. repeat split.
    destruct (text reply) as [[|c t]|]; reflexivity.
Qed.

(** A reply in capital letters passes the check. *)
Example validate_api_key_capitals :
  exists w' tr,
    validate_api_key (next_reply None) default_handler
      {| model_replies := [inr "WORKING"]; syntax_checks := []; runs := [] |} =
      (Ret true, w', tr).
Proof. eexists _, _. vm_compute. reflexivity. Qed.

(** ** Prompt templates *)

Section TemplateFacts.
Context {W : Type} (E : Env W) (self : Orchestrator).

(** A prompt file that cannot be read for another reason than its absence
    makes the loader raise. *)
Lemma load_prompt_template_unreadable (name : string) (w w1 : W) (e : exn) :
  read_template_file E ("prompts/" +:+ name +:+ ".txt") w = (inl e, w1) ->
  (forall message, e <> FileNotFoundError message) ->
  _load_prompt_template E name w = (Raise e, w1, [EvReadTemplate name]).
Proof.
  intros Hread Hother. unfold _load_prompt_template, try_except, call.
  rewrite Hread. destruct e; try reflexivity. now contradiction (Hother msg).
Qed.

(** With every prompt file missing the loader returns the built-in text. *)
Lemma load_prompt_template_missing (name : string) :
  templates_missing E ->
  spec (_load_prompt_template E name)
       (fun out tr => out = Ret (_get_default_prompt name) /\
                      tr = [EvReadTemplate name]).
Proof.
  intros Hmiss w. unfold _load_prompt_template, try_except, call.
  destruct (Hmiss ("prompts/" +:+ name +:+ ".txt") w) as (message & w' & ->).
  split; reflexivity.
Qed.

(** A model call made by [call_llm] carries the truncated prompt. *)
Lemma call_llm_sends (prompt : string) :
  spec (call_llm E (llm_handler self) prompt None)
       (keeps (Forall (sends None (truncate_prompt prompt 3000)))).
Proof.
  eapply spec_weaken; [apply call_llm_cases |].
  intros out tr [(_ & -> & _) | (_ & _ & _ & _ & _ & _ & Hsends & _)];
    [constructor | exact Hsends].
Qed.

End TemplateFacts.

(** X15: a prompt file of the first stage that exists but cannot be read
    (any error other than [FileNotFoundError]) ends the request at once:
    the answer is the error envelope with the text of that error, and
    neither the model nor a connector nor the engine is called. *)
Theorem unreadable_template_ends_request {W : Type} (E : Env W)
    (self : Orchestrator) (questions : string) (data_files : list file_info)
    (data_url : string) (w w1 : W) (e : exn) :
  read_template_file E "prompts/1_task_breakdown.txt" w = (inl e, w1) ->
  (forall message, e <> FileNotFoundError message) ->
  process_request E self questions data_files data_url w =
    (Ret (EnvPipelineError "error" ("Processing failed: " +:+ str_exn e) []),
     w1, [EvReadTemplate "1_task_breakdown"]).
Proof.
  intros Hread Hother. unfold process_request.
  eapply run_try_raise.
  - unfold pipeline, _get_task_breakdown.
    apply run_bind_raise, run_bind_raise.
    apply load_prompt_template_unreadable; [exact Hread | exact Hother].
  - reflexivity.
  - reflexivity.
Qed.

Lemma unreadable_template_ends_request_witness :
  process_request locked_templates default_orchestrator "What is 2+2?" [] ""
    empty_script =
  (Ret (EnvPipelineError "error"
          "Processing failed: [Errno 13] Permission denied: 'prompts/1_task_breakdown.txt'"
          []),
   empty_script, [EvReadTemplate "1_task_breakdown"]).
Proof.
  apply (unreadable_template_ends_request locked_templates default_orchestrator
           "What is 2+2?" [] "" empty_script empty_script
           (OtherError "PermissionError"
              "[Errno 13] Permission denied: 'prompts/1_task_breakdown.txt'")).
  - reflexivity.
  - intros message. discriminate.
Defined.

Section DefaultPrompts.
Context {W : Type} (E : Env W) (self : Orchestrator).

Lemma default_prompt_call (name : string) :
  truncate_prompt (_get_default_prompt name) 3000 = _get_default_prompt name ->
  spec (call_llm E (llm_handler self) (_get_default_prompt name) None)
       (fun out tr =>
          Forall (sends None (_get_default_prompt name)) (EvReadTemplate name :: tr)).
Proof.
  intros Hshort. eapply spec_weaken; [apply call_llm_sends |].
  intros out tr Hsends. unfold keeps in Hsends. rewrite Hshort in Hsends.
  now constructor.
Qed.

End DefaultPrompts.

(** X16: when the prompt files are missing, the three prompts sent to the
    model are the built-in texts, character for character: these mark their
    placeholders with braces, which [safe_substitute] does not replace (it
    replaces at dollar signs only), so that the prompts do not depend on the
    question, the metadata, the faulty code or the error message. *)
Theorem missing_templates_send_defaults {W : Type} (E : Env W) (self : Orchestrator)
    (questions code message : string) (metadata : value) :
  templates_missing E -> substitutes_at_dollar E ->
  spec (_get_task_breakdown E self questions)
       (keeps (Forall (sends None DEFAULT_TASK_BREAKDOWN))) /\
  spec (_generate_code E self questions metadata)
       (keeps (Forall (sends None DEFAULT_CODE_GENERATION))) /\
  spec (_correct_code E self code message)
       (keeps (Forall (sends None DEFAULT_CODE_CORRECTION))).
Proof.
  intros Hmissing Hdollar. split; [| split].
  - unfold _get_task_breakdown.
    apply spec_bind.
    eapply spec_weaken; [apply load_prompt_template_missing, Hmissing |].
    intros out tr [-> ->]. rewrite Hdollar by reflexivity.
    apply spec_bind.
    eapply spec_weaken;
      [apply (default_prompt_call E self "1_task_breakdown"); reflexivity |].
    intros [reply|e|] tr H; try exact H.
    destruct (json_loads E reply); first [apply spec_ret | apply spec_raise];
      unfold keeps; now rewrite List.app_nil_r.
  - unfold _generate_code.
    apply spec_bind.
    eapply spec_weaken; [apply load_prompt_template_missing, Hmissing |].
    intros out tr [-> ->].
    destruct (json_dumps_indent E metadata) as [e|metadata_text].
    + apply spec_raise. unfold keeps. rewrite List.app_nil_r. now repeat constructor.
    + rewrite Hdollar by reflexivity.
      eapply spec_weaken;
        [apply (default_prompt_call E self "2_code_generation"); reflexivity |].
      intros out tr H. exact H.
  - unfold _correct_code.
    apply spec_bind, spec_emit.
    apply spec_bind.
    eapply spec_weaken; [apply load_prompt_template_missing, Hmissing |].
    intros out tr [-> ->]. rewrite Hdollar by reflexivity.
    eapply spec_weaken;
      [apply (default_prompt_call E self "3_code_correction"); reflexivity |].
    intros out tr H. unfold keeps. cbn [app]. now constructor.
Qed.

Lemma missing_templates_send_defaults_witness :
  spec (_get_task_breakdown scripted default_orchestrator "What is 2+2?")
       (keeps (Forall (sends None DEFAULT_TASK_BREAKDOWN))) /\
  spec (_generate_code scripted default_orchestrator "What is 2+2?" (VDict []))
       (keeps (Forall (sends None DEFAULT_CODE_GENERATION))) /\
  spec (_correct_code scripted default_orchestrator "print(df)" "NameError")
       (keeps (Forall (sends None DEFAULT_CODE_CORRECTION))).
Proof.
  apply (missing_templates_send_defaults scripted default_orchestrator
           "What is 2+2?" "print(df)" "NameError" (VDict [])).
  - intros path w. eexists _, _. reflexivity.
  - intros template bindings _. reflexivity.
Defined.

(** ** The result of the loop and its envelope *)

(** A failing result returned by [_execute_with_correction] carries an
    error text. *)
Lemma execute_with_correction_error_text {W : Type} (E : Env W)
    (self : Orchestrator) (code : string) (raw_data : value) :
  spec (_execute_with_correction E self code raw_data)
       (fun out tr =>
          match out with
          | Ret r => success r = true \/ exists message, error r = Some message
          | _ => True
          end).
Proof.
  unfold _execute_with_correction. apply spec_bind.
  eapply spec_weaken; [apply halts_inject_data |].
  intros [current_code|e|] t1 _; try exact I.
  apply spec_bind.
  eapply spec_weaken;
    [apply (run_correction_loop_spec E self _ current_code (or_introl eq_refl)) |].
  intros [[a1 r]|e|] t2 (_ & _ & _ & _ & _ & Hout); try exact I.
  apply spec_ret. cbn [snd].
  destruct Hout as [_ [[Hok _] | (_ & _ & [[_ Herr] | (before & message & _ & Herr)])]];
    eauto.
Qed.

(** X17: a failing result returned by [_execute_with_correction] always
    carries an error text, so that [_format_final_output] does not raise on
    it: the envelope is the execution-error dictionary with that text and
    the marker ["failed_at_execution"], also when the question asks for a
    JSON array.  On a successful result the formatter raises in one case
    only: the output holds an array literal, the text from its first "["
    to the last "]" after it, on which [json.loads] raises an exception
    that is not a [ValueError]; the formatter then raises that exception,
    and in every other case it returns the bare results or the success
    dictionary. *)
Theorem execution_result_formats {W : Type} (E : Env W) (self : Orchestrator)
    (code questions : string) (raw_data : value) (w w1 : W)
    (result : ExecutionResult) (tr : list event) :
  _execute_with_correction E self code raw_data w = (Ret result, w1, tr) ->
  (success result = false ->
   exists message,
     error result = Some message /\
     forall w2,
       _format_final_output E result questions w2 =
         (Ret (EnvExecutionError "error" questions message failure_metadata), w2, [])) /\
  (success result = true ->
   (forall pre body post e,
      output result = pre +:+ "[" +:+ body +:+ "]" +:+ post ->
      contains "[" pre = false -> contains "]" post = false ->
      json_loads E ("[" +:+ body +:+ "]") = LoadRaises e -> is_value_error e = false ->
      forall w2, _format_final_output E result questions w2 = (Raise e, w2, [])) /\
   ((forall pre body post e,
       output result = pre +:+ "[" +:+ body +:+ "]" +:+ post ->
       contains "[" pre = false -> contains "]" post = false ->
       json_loads E ("[" +:+ body +:+ "]") = LoadRaises e -> is_value_error e = true) ->
    exists results,
      forall w2,
        _format_final_output E result questions w2 =
          (Ret (if contains "json array" (lower questions)
                then EnvArray results
                else EnvSuccess "success" questions results success_metadata),
           w2, []))).
Proof.
  intros Hrun.
  pose proof (execute_with_correction_error_text E self code raw_data w) as Hspec.
  rewrite Hrun in Hspec. unfold _format_final_output, parse_results. split.
  - intros Hfail. rewrite Hfail in *.
    destruct Hspec as [Hok | (message & Herr)]; [discriminate |].
    exists message. split; [exact Herr |]. intros w2. now rewrite Herr.
  - intros Hok. rewrite Hok. split.
    + intros pre body post e Hsplit Hpre Hpost Hload Hclass w2.
      assert (Hfound : search_array_literal (output result) =
                         Some ("[" +:+ body +:+ "]"))
        by (rewrite Hsplit; now apply search_array_literal_found).
      now rewrite Hfound, Hload, Hclass.
    + intros Hcaught.
      destruct (search_array_literal (output result)) as [literal|] eqn:Hfound.
      * destruct (search_array_literal_spec _ _ Hfound)
          as (pre & body & post & Hsplit & -> & Hpre & Hpost).
        rewrite <- append_assoc in Hsplit.
        destruct (json_loads E ("[" +:+ body +:+ "]")) as [[]| |e] eqn:Hload;
          try rewrite (Hcaught pre body post e); try assumption;
          try (eexists; intros w2;
               destruct (contains "json array" (lower questions)); reflexivity).
        all: try (rewrite Hsplit; now rewrite !append_assoc).
      * eexists; intros w2;
          destruct (contains "json array" (lower questions)); reflexivity.
Qed.

Lemma execution_result_formats_witness :
  exists message,
    error failed_run = Some message /\
    forall w2,
      _format_final_output failing_runs failed_run
        "Describe the data as a JSON array." w2 =
        (Ret (EnvExecutionError "error" "Describe the data as a JSON array." message
                failure_metadata), w2, []).
Proof.
  assert (Hrun : exists w1 tr,
            _execute_with_correction failing_runs default_orchestrator
              "print(df)" VNone scenario_D = (Ret failed_run, w1, tr))
    by (eexists _, _; vm_compute; reflexivity).
  destruct Hrun as (w1 & tr & Hrun).
  exact (proj1 (execution_result_formats failing_runs default_orchestrator "print(df)"
                  "Describe the data as a JSON array." VNone scenario_D w1
                  failed_run tr Hrun) eq_refl).
Defined.
(** ** Data sourcing *)

Section SourcingFacts.
Context {W : Type} (E : Env W).

Lemma run_data_reader (name : string) (data : list Byte.byte) (w : W) :
  execute_tool E "data_reader"
    (<["content" := VBytes data]> {["filename" := VStr name]}) w =
  (Ret (fst (process_file E (VStr name) (VBytes data) w)),
   snd (process_file E (VStr name) (VBytes data) w),
   [EvReadData (VStr name) (VBytes data)]).
Proof.
  unfold execute_tool, try_except, _execute_data_reader, _process_file_content,
    call_total. cbn.
  rewrite lookup_insert_eq, lookup_insert_ne, lookup_singleton_eq by discriminate.
  cbn. destruct (process_file E (VStr name) (VBytes data) w). reflexivity.
Qed.

Lemma read_data_files_reads_all (data_files : list file_info) (w : W) :
  exists results w',
    read_data_files E data_files w =
      (Ret results, w',
       List.map (fun f => EvReadData (VStr (filename f)) (VBytes (content f)))
                data_files) /\
    List.length results = List.length data_files.
Proof.
  revert w. induction data_files as [|f rest IH]; intros w.
  - exists [], w. split; reflexivity.
  - destruct (IH (snd (process_file E (VStr (filename f))
                         (VBytes (content f)) w)))
      as (results & w' & Hrest & Hlen).
    eexists (_ :: results), w'. split; [| cbn; now rewrite Hlen].
    cbn [read_data_files List.map].
    eapply run_bind_ret; [apply run_data_reader | | reflexivity].
    eapply run_bind_ret; [exact Hrest | reflexivity |].
    now rewrite List.app_nil_r.
Qed.

End SourcingFacts.


(** ** What a request costs *)

Lemma count_zero_of_Forall (p q : event -> bool) (tr : list event) :
  (forall ev, q ev = true -> p ev = false) ->
  Forall (fun ev => q ev = true) tr -> count p tr = 0%nat.
Proof.
  intros Hpq Htr. induction Htr as [|ev tr Hev _ IH]; [reflexivity |].
  rewrite count_cons, IH, (Hpq ev Hev). reflexivity.
Qed.

Lemma additive_at_most_zero (p : event -> bool) : additive (at_most p 0).
Proof.
  unfold at_most. split; [rewrite count_nil; lia |].
  intros t1 t2 H1 H2. rewrite count_app. lia.
Qed.

Section Budgets.
Context {W : Type}.

Lemma at_most_bind {A B} (p : event -> bool) (a b : nat) (m : M W A) (k : A -> M W B) :
  spec m (keeps (at_most p a)) -> (forall x, spec (k x) (keeps (at_most p b))) ->
  spec (bind m k) (keeps (at_most p (a + b))).
Proof.
  intros Hm Hk. apply spec_bind. eapply spec_weaken; [exact Hm |].
  unfold keeps, at_most.
  intros [x|e|] t1 H1; try lia.
  eapply spec_weaken; [apply Hk |]. unfold keeps, at_most.
  intros out2 t2 H2. rewrite count_app. lia.
Qed.

Lemma at_most_weaken {A} (p : event -> bool) (a b : nat) (m : M W A) :
  (a <= b)%nat -> spec m (keeps (at_most p a)) -> spec m (keeps (at_most p b)).
Proof.
  intros Hle Hm. eapply spec_weaken; [exact Hm |].
  unfold keeps, at_most. intros out tr H. lia.
Qed.

(** A run whose events are all of the kind [q] has no event of a kind [p]
    that excludes [q]. *)
Lemma at_most_zero_of_kind {A} (p q : event -> bool) (m : M W A) :
  (forall ev, q ev = true -> p ev = false) ->
  spec m (keeps (Forall (fun ev => q ev = true))) ->
  spec m (keeps (at_most p 0)).
Proof.
  intros Hpq Hm. eapply spec_weaken; [exact Hm |].
  unfold keeps, at_most. intros out tr H.
  now rewrite (count_zero_of_Forall p q tr Hpq H).
Qed.

Lemma quiet_keeps {A} (m : M W A) :
  spec m quiet -> spec m (keeps (Forall (fun ev => is_gateway_event ev = true))).
Proof. intros Hm. eapply spec_weaken; [exact Hm |]. now intros out tr [_ H]. Qed.

End Budgets.

Section StageFacts.
Context {W : Type} (E : Env W) (self : Orchestrator).

Local Abbreviation retries := (Z.to_nat (max_retries (llm_handler self))).

Lemma load_prompt_template_trace (name : string) :
  spec (_load_prompt_template E name) (fun out tr => tr = [EvReadTemplate name]).
Proof.
  intros w. unfold _load_prompt_template, try_except, call.
  destruct (read_template_file E ("prompts/" +:+ name +:+ ".txt") w) as [[e|t] w'];
    [| reflexivity].
  destruct e; reflexivity.
Qed.

Lemma call_llm_at_most (prompt : string) (sm : option string) :
  spec (call_llm E (llm_handler self) prompt sm) (keeps (at_most is_model_call retries)).
Proof.
  eapply spec_weaken; [apply call_llm_cases |].
  unfold keeps, at_most.
  intros out tr [(_ & -> & _) | (_ & _ & Hcalls & _)]; [rewrite count_nil; lia | exact Hcalls].
Qed.

Lemma load_prompt_template_at_most (name : string) :
  spec (_load_prompt_template E name) (keeps (at_most is_model_call 0)).
Proof.
  eapply spec_weaken; [apply load_prompt_template_trace |].
  intros out tr ->. unfold keeps, at_most. now rewrite count_cons, count_nil.
Qed.

Lemma get_task_breakdown_at_most (questions : string) :
  spec (_get_task_breakdown E self questions) (keeps (at_most is_model_call retries)).
Proof.
  unfold _get_task_breakdown.
  apply (at_most_bind is_model_call 0 retries); [apply load_prompt_template_at_most |].
  intros template.
  apply (at_most_weaken is_model_call (retries + 0)); [lia |].
  apply at_most_bind; [apply call_llm_at_most |].
  intros reply. destruct (json_loads E reply);
    first [apply keeps_ret | apply keeps_raise]; apply additive_at_most_zero.
Qed.

Lemma generate_code_at_most (questions : string) (metadata : value) :
  spec (_generate_code E self questions metadata)
       (keeps (at_most is_model_call retries)).
Proof.
  unfold _generate_code.
  apply (at_most_bind is_model_call 0 retries); [apply load_prompt_template_at_most |].
  intros template. destruct (json_dumps_indent E metadata).
  - apply (at_most_weaken is_model_call 0); [lia |].
    apply keeps_raise, additive_at_most_zero.
  - apply call_llm_at_most.
Qed.

(** A correction request holds at most [max_retries] model calls. *)
Lemma correct_code_calls (code message : string) :
  spec (_correct_code E self code message) (keeps (calls_per_correction retries)).
Proof.
  assert (Hcalls : spec (_correct_code E self code message)
                        (keeps (at_most is_model_call retries))).
  { unfold _correct_code.
    apply (at_most_bind is_model_call 0 retries);
      [apply keeps_emit; unfold at_most; now rewrite count_cons, count_nil |].
    intros _.
    apply (at_most_bind is_model_call 0 retries); [apply load_prompt_template_at_most |].
    intros template. apply call_llm_at_most. }
  eapply spec_weaken;
    [apply (spec_and _ _ _ (correct_code_spec E self code message) Hcalls) |].
  unfold keeps, at_most, calls_per_correction.
  intros out tr [[_ (tg & -> & _)] Hle].
  rewrite !count_cons in *. cbn [is_correct is_model_call] in *.
  rewrite Nat.mul_add_distr_l, Nat.mul_1_r. lia.
Qed.

(** The events of a correction request are those of the engine and of the
    gateway. *)
Lemma correct_code_kinds (code message : string) :
  spec (_correct_code E self code message)
       (keeps (Forall (fun ev => is_engine_event ev || is_gateway_event ev = true))).
Proof.
  eapply spec_weaken; [apply correct_code_spec |].
  intros out tr [_ (tg & -> & Htg)]. unfold keeps.
  constructor; [reflexivity |].
  eapply Forall_impl; [exact Htg |]. intros ev ->. apply orb_true_r.
Qed.

End StageFacts.

(** A property of traces that every step of the loop keeps is kept by the
    loop. *)
Section KeepingLoop.
Context {W : Type} (E : Env W) (self : Orchestrator) (P : list event -> Prop).
Hypothesis HP : additive P.
Hypothesis Hengine :
  forall ev, is_engine_event ev = true -> is_correct ev = false -> P [ev].
Hypothesis Hcorrect :
  forall code message, spec (_correct_code E self code message) (keeps P).

Lemma keeps_on_exception (a : Z) (code : string) (e : exn) :
  spec (on_exception E self a code e) (keeps P).
Proof.
  unfold on_exception.
  apply (keeps_bind P HP); [apply keeps_emit, Hengine; reflexivity | intros _].
  destruct (a + 1 <? max_correction_attempts self); [| apply (keeps_ret P HP)].
  apply (keeps_bind P HP); [apply Hcorrect | intros c; apply (keeps_ret P HP)].
Qed.

Lemma keeps_correction_cycle (a : Z) (code : string) :
  spec (correction_cycle E self a code) (keeps P).
Proof.
  unfold correction_cycle.
  apply (keeps_bind P HP);
    [apply keeps_catching, keeps_call, Hengine; reflexivity |].
  intros [e|code1]; [apply keeps_on_exception |].
  apply (keeps_bind P HP);
    [apply keeps_catching, keeps_call, Hengine; reflexivity |].
  intros [e|check]; [apply keeps_on_exception |].
  destruct (negb (valid check)).
  - apply (keeps_bind P HP); [apply keeps_emit, Hengine; reflexivity | intros _].
    destruct (a + 1 <? max_correction_attempts self); [| apply (keeps_ret P HP)].
    apply (keeps_bind P HP); [apply keeps_catching, Hcorrect |].
    intros [e|code2]; [apply keeps_on_exception | apply (keeps_ret P HP)].
  - apply (keeps_bind P HP);
      [apply keeps_catching, keeps_call, Hengine; reflexivity |].
    intros [e|result]; [apply keeps_on_exception |].
    destruct (success result); [apply (keeps_ret P HP) |].
    destruct (error result) as [message|]; [| apply keeps_on_exception].
    apply (keeps_bind P HP); [apply keeps_emit, Hengine; reflexivity | intros _].
    destruct (a + 1 <? max_correction_attempts self); [| apply (keeps_ret P HP)].
    apply (keeps_bind P HP); [apply keeps_catching, Hcorrect |].
    intros [e|code2]; [apply keeps_on_exception | apply (keeps_ret P HP)].
Qed.

Lemma keeps_correction_loop (fuel : nat) :
  forall a code, spec (correction_loop E self fuel a code) (keeps P).
Proof.
  induction fuel as [|fuel IH]; intros a code; rewrite correction_loop_unfold;
    (destruct (a <? max_correction_attempts self); [| apply (keeps_ret P HP)]).
  - apply (keeps_out_of_fuel P HP).
  - apply (keeps_bind P HP); [apply keeps_correction_cycle |].
    intros [a1 code1|a1 r]; [apply IH | apply (keeps_ret P HP)].
Qed.

Lemma keeps_execute_with_correction (code : string) (raw_data : value) :
  spec (_execute_with_correction E self code raw_data) (keeps P).
Proof.
  unfold _execute_with_correction.
  apply (keeps_bind P HP).
  - unfold inject_data.
    destruct raw_data; try apply (keeps_ret P HP);
      destruct (data_injection E _);
      first [apply (keeps_raise P HP) | apply (keeps_ret P HP)].
  - intros current_code. apply (keeps_bind P HP);
      [apply keeps_correction_loop | intros final; apply (keeps_ret P HP)].
Qed.

End KeepingLoop.

Section PipelineBudgets.
Context {W : Type} (E : Env W) (self : Orchestrator).

Local Abbreviation retries := (Z.to_nat (max_retries (llm_handler self))).
Local Abbreviation corrections := (Z.to_nat (max_correction_attempts self - 1)).

Lemma inject_data_trace (code : string) (raw_data : value) :
  spec (inject_data E code raw_data) (fun out tr => tr = []).
Proof.
  intros w. unfold inject_data.
  destruct raw_data; try reflexivity; destruct (data_injection E _); reflexivity.
Qed.

(** The correction requests of one execution stage. *)
Lemma execute_with_correction_corrections (code : string) (raw_data : value) :
  spec (_execute_with_correction E self code raw_data)
       (keeps (at_most is_correct corrections)).
Proof.
  unfold _execute_with_correction. apply spec_bind.
  eapply spec_weaken; [apply inject_data_trace |].
  intros [current_code|e|] t1 ->; try (unfold keeps, at_most; rewrite count_nil; lia).
  apply spec_bind.
  eapply spec_weaken;
    [apply (run_correction_loop_spec E self _ current_code (or_introl eq_refl)) |].
  unfold keeps, at_most.
  intros [[a1 r]|e|] t2 (_ & _ & Hcorr & _); cbn [app];
    try (replace (max_correction_attempts self - 1 - 0)
           with (max_correction_attempts self - 1) in Hcorr by lia; exact Hcorr).
  apply spec_ret. rewrite List.app_nil_r.
  replace (max_correction_attempts self - 1 - 0)
    with (max_correction_attempts self - 1) in Hcorr by lia. exact Hcorr.
Qed.

Lemma execute_with_correction_at_most (code : string) (raw_data : value) :
  spec (_execute_with_correction E self code raw_data)
       (keeps (at_most is_model_call (retries * corrections))).
Proof.
  assert (Hengine : forall ev, is_engine_event ev = true -> is_correct ev = false ->
                      calls_per_correction retries [ev]).
  { intros ev Hev Hcorr. unfold calls_per_correction.
    rewrite !count_cons, !count_nil, Hcorr. destruct ev; try discriminate; cbn; lia. }
  eapply spec_weaken;
    [apply (spec_and _ _ _
              (keeps_execute_with_correction E self (calls_per_correction retries)
                 (additive_calls_per_correction retries) Hengine
                 (correct_code_calls E self) code raw_data)
              (execute_with_correction_corrections code raw_data)) |].
  unfold keeps, at_most, calls_per_correction. intros out tr [Hcalls Hcorr].
  pose proof (Nat.mul_le_mono_l _ _ retries Hcorr). lia.
Qed.

Lemma execute_with_correction_kinds (code : string) (raw_data : value) :
  spec (_execute_with_correction E self code raw_data)
       (keeps (Forall (fun ev => is_engine_event ev || is_gateway_event ev = true))).
Proof.
  apply keeps_execute_with_correction.
  - apply additive_Forall.
  - intros ev Hev _. constructor; [now rewrite Hev | constructor].
  - apply correct_code_kinds.
Qed.

(** [execute_tool] calls at most one connector, the one of the tool. *)
Lemma execute_tool_trace (tool_name : string) (parameters : gmap string value) :
  spec (execute_tool E tool_name parameters)
       (fun out tr =>
          tr = [] \/
          (tool_name = "web_scraper" /\ exists url, tr = [EvScrape url]) \/
          (tool_name = "data_inspector" /\
           exists data source_type, tr = [EvInspect data source_type]) \/
          (tool_name = "data_reader" /\
           exists name data, tr = [EvReadData name data])).
Proof.
  intros w. unfold execute_tool.
  destruct (existsb (String.eqb tool_name) available_tools) eqn:Hreg; cbn [negb];
    [| now left].
  destruct (registered_cases _ Hreg) as [-> | [-> | ->]];
    unfold try_except, _execute_web_scraper, _execute_data_inspector,
      _execute_data_reader, call_total;
    cbn [String.eqb Ascii.eqb Bool.eqb].
  - destruct (negb (truthy _)); [now left |].
    destruct (scrape_url E _ w). right. left. eauto.
  - destruct (is_none _); [now left |].
    destruct (inspect_data E _ _ w). right. right. left. eauto.
  - destruct (is_none _); [now left |].
    unfold _process_file_content, call_total.
    destruct (default (VStr "") (parameters !! "filename")); try (now left).
    destruct (process_file E _ _ w). right. right. right. eauto.
Qed.

Lemma source_data_trace (data_source_type : DataSourceType)
    (data_files : list file_info) (data_url : string) (task_plan : value) :
  spec (_source_data E data_source_type data_files data_url task_plan)
       (fun out tr =>
          match data_source_type with
          | SrcUrl | SrcUrlInText => tr = [] \/ exists url, tr = [EvScrape url]
          | SrcFile =>
              tr = List.map (fun f => EvReadData (VStr (filename f))
                                                 (VBytes (content f))) data_files
          | SrcTextOnly => tr = []
          end).
Proof.
  assert (Hscrape : forall url,
            spec (execute_tool E "web_scraper" {["url" := VStr url]})
                 (fun out tr => tr = [] \/ exists u, tr = [EvScrape u])).
  { intros url. eapply spec_weaken; [apply execute_tool_trace |].
    intros out tr [-> | [[_ H] | [[Hn _] | [Hn _]]]]; auto; discriminate. }
  unfold _source_data. destruct data_source_type.
  - apply spec_bind, spec_ret. apply Hscrape.
  - intros w.
    destruct (read_data_files_reads_all E data_files w) as (results & w' & Hrun & _).
    unfold bind. rewrite Hrun. cbn. now rewrite List.app_nil_r.
  - apply spec_bind.
    destruct (negb (nonempty data_url)); [| apply spec_ret, Hscrape].
    unfold url_from_task_plan.
    destruct task_plan; try (apply spec_raise; now left).
    destruct (default (VStr "") (items_get items "plan"));
      try (apply spec_raise; now left).
    apply spec_ret, Hscrape.
  - now apply spec_ret.
Qed.

Lemma extract_metadata_trace (raw_data : value) (data_source_type : DataSourceType) :
  spec (_extract_metadata E raw_data data_source_type)
       (fun out tr => tr = [] \/ exists data source_type, tr = [EvInspect data source_type]).
Proof.
  unfold _extract_metadata. eapply spec_weaken; [apply execute_tool_trace |].
  intros out tr [-> | [[Hn _] | [[_ H] | [Hn _]]]]; auto; discriminate.
Qed.

Lemma format_final_output_trace (execution_result : ExecutionResult)
    (questions : string) :
  spec (_format_final_output E execution_result questions) (fun out tr => tr = []).
Proof.
  intros w. unfold _format_final_output.
  destruct (success execution_result).
  - destruct (parse_results E (output execution_result)); [reflexivity |].
    destruct (contains "json array" (lower questions)); reflexivity.
  - destruct (error execution_result); reflexivity.
Qed.

Lemma quiet_get_task_breakdown (questions : string) :
  spec (_get_task_breakdown E self questions) quiet.
Proof.
  unfold _get_task_breakdown.
  apply quiet_bind; [apply quiet_load_prompt_template |].
  intros template. apply quiet_bind; [apply quiet_call_llm |].
  intros reply. destruct (json_loads E reply);
    first [apply quiet_ret | apply quiet_raise].
Qed.

Lemma quiet_generate_code (questions : string) (metadata : value) :
  spec (_generate_code E self questions metadata) quiet.
Proof.
  unfold _generate_code.
  apply quiet_bind; [apply quiet_load_prompt_template |].
  intros template. destruct (json_dumps_indent E metadata);
    [apply quiet_raise | apply quiet_call_llm].
Qed.

(** The events of one kind in a request are at most those of its stages. *)
Lemma process_request_at_most (p : event -> bool) (n1 n2 n3 n4 n5 : nat)
    (questions : string) (data_files : list file_info) (data_url : string) :
  spec (_get_task_breakdown E self questions) (keeps (at_most p n1)) ->
  (forall url task_plan,
     spec (_source_data E (_analyze_data_source questions data_files data_url)
             data_files url task_plan) (keeps (at_most p n2))) ->
  (forall raw_data,
     spec (_extract_metadata E raw_data
             (_analyze_data_source questions data_files data_url))
          (keeps (at_most p n3))) ->
  (forall metadata,
     spec (_generate_code E self questions metadata) (keeps (at_most p n4))) ->
  (forall code raw_data,
     spec (_execute_with_correction E self code raw_data) (keeps (at_most p n5))) ->
  spec (process_request E self questions data_files data_url)
       (keeps (at_most p (n1 + n2 + n3 + n4 + n5))).
Proof.
  intros H1 H2 H3 H4 H5.
  assert (Hpipe : spec (pipeline E self questions data_files data_url)
                       (keeps (at_most p (n1 + (n2 + (n3 + (n4 + (n5 + 0)))))))).
  { unfold pipeline.
    apply at_most_bind; [exact H1 | intros task_plan].
    apply at_most_bind; [apply H2 | intros raw_data].
    apply at_most_bind; [apply H3 | intros metadata].
    apply at_most_bind; [apply H4 | intros generated_code].
    apply at_most_bind; [apply H5 | intros execution_result].
    eapply spec_weaken; [apply format_final_output_trace |].
    intros out tr ->. unfold keeps, at_most. now rewrite count_nil. }
  unfold process_request. apply spec_try_except.
  eapply spec_weaken; [exact Hpipe |].
  unfold keeps, at_most. intros [final|e|] tr H; try lia.
  apply spec_ret. rewrite List.app_nil_r. lia.
Qed.

End PipelineBudgets.

Lemma count_read_events_none (p : event -> bool) (data_files : list file_info) :
  (forall name data, p (EvReadData name data) = false) ->
  count p (List.map (fun f => EvReadData (VStr (filename f)) (VBytes (content f)))
                    data_files) = 0%nat.
Proof.
  intros Hp. induction data_files as [|f rest IH]; [reflexivity |].
  cbn [List.map]. now rewrite count_cons, IH, Hp.
Qed.

Lemma count_read_events_all (data_files : list file_info) :
  count is_read_data
    (List.map (fun f => EvReadData (VStr (filename f)) (VBytes (content f)))
              data_files) = List.length data_files.
Proof.
  induction data_files as [|f rest IH]; [reflexivity |].
  cbn [List.map List.length]. now rewrite count_cons, IH.
Qed.

Section RequestCosts.
Context {W : Type} (E : Env W) (self : Orchestrator).

(** The stages that go through the gateway only. *)
Lemma gateway_stages_at_most (p : event -> bool) (questions : string) :
  (forall ev, is_gateway_event ev = true -> p ev = false) ->
  spec (_get_task_breakdown E self questions) (keeps (at_most p 0)) /\
  (forall metadata,
     spec (_generate_code E self questions metadata) (keeps (at_most p 0))).
Proof.
  intros Hp. split; [| intros metadata];
    apply (at_most_zero_of_kind p is_gateway_event _ Hp), quiet_keeps;
    [apply quiet_get_task_breakdown | apply quiet_generate_code].
Qed.

Lemma execution_stage_at_most (p : event -> bool) (code : string) (raw_data : value) :
  (forall ev, is_engine_event ev || is_gateway_event ev = true -> p ev = false) ->
  spec (_execute_with_correction E self code raw_data) (keeps (at_most p 0)).
Proof.
  intros Hp.
  apply (at_most_zero_of_kind p (fun ev => is_engine_event ev || is_gateway_event ev) _ Hp).
  apply execute_with_correction_kinds.
Qed.

Lemma source_data_at_most (p : event -> bool) (n : nat)
    (data_source_type : DataSourceType) (data_files : list file_info)
    (data_url : string) (task_plan : value) :
  (match data_source_type with
   | SrcUrl | SrcUrlInText => forall url, (count p [EvScrape url] <= n)%nat
   | _ => True
   end) ->
  (match data_source_type with
   | SrcFile =>
       (count p (List.map (fun f => EvReadData (VStr (filename f)) (VBytes (content f)))
                          data_files) <= n)%nat
   | _ => True
   end) ->
  spec (_source_data E data_source_type data_files data_url task_plan)
       (keeps (at_most p n)).
Proof.
  intros Hscrape Hread. eapply spec_weaken; [apply source_data_trace |].
  unfold keeps, at_most. intros out tr Htr.
  destruct data_source_type.
  - destruct Htr as [-> | [url ->]]; [rewrite count_nil; lia | apply Hscrape].
  - now rewrite Htr.
  - destruct Htr as [-> | [url ->]]; [rewrite count_nil; lia | apply Hscrape].
  - rewrite Htr, count_nil. lia.
Qed.

Lemma extract_metadata_at_most (p : event -> bool) (n : nat) (raw_data : value)
    (data_source_type : DataSourceType) :
  (forall data source_type, (count p [EvInspect data source_type] <= n)%nat) ->
  spec (_extract_metadata E raw_data data_source_type) (keeps (at_most p n)).
Proof.
  intros Hinspect. eapply spec_weaken; [apply extract_metadata_trace |].
  unfold keeps, at_most.
  intros out tr [-> | (data & source_type & ->)]; [rewrite count_nil; lia | apply Hinspect].
Qed.

End RequestCosts.

(** X19: whatever the collaborators do, a request makes at most
    [(2 + (max_correction_attempts - 1)) * max_retries] model calls (one
    gateway call for the plan, one for the code, one per correction, each
    of at most [max_retries] attempts) and at most
    [max_correction_attempts - 1] correction requests. *)
Theorem process_request_model_calls {W : Type} (E : Env W) (self : Orchestrator)
    (questions : string) (data_files : list file_info) (data_url : string) (w : W) :
  match process_request E self questions data_files data_url w with
  | (_, _, tr) =>
      (count is_model_call tr <=
       (2 + Z.to_nat (max_correction_attempts self - 1)) *
       Z.to_nat (max_retries (llm_handler self)))%nat /\
      (count is_correct tr <= Z.to_nat (max_correction_attempts self - 1))%nat
  end.
Proof.
  set (retries := Z.to_nat (max_retries (llm_handler self))).
  set (corrections := Z.to_nat (max_correction_attempts self - 1)).
  assert (Hcalls :
    spec (process_request E self questions data_files data_url)
         (keeps (at_most is_model_call
                   (retries + 0 + 0 + retries + retries * corrections)))).
  { apply process_request_at_most.
    - apply get_task_breakdown_at_most.
    - intros url task_plan. apply source_data_at_most.
      + destruct (_analyze_data_source questions data_files data_url);
          try exact I; intros u; rewrite count_cons, count_nil; cbn; lia.
      + destruct (_analyze_data_source questions data_files data_url); try exact I.
        rewrite count_read_events_none by reflexivity. lia.
    - intros raw_data. apply extract_metadata_at_most.
      intros data source_type. now rewrite count_cons, count_nil.
    - intros metadata. apply generate_code_at_most.
    - intros code raw_data. apply execute_with_correction_at_most. }
  assert (Hcorr :
    spec (process_request E self questions data_files data_url)
         (keeps (at_most is_correct (0 + 0 + 0 + 0 + corrections)))).
  { destruct (gateway_stages_at_most E self is_correct questions) as [Hplan Hcode];
      [now intros [] |].
    apply process_request_at_most; try assumption.
    - intros url task_plan. apply source_data_at_most.
      + destruct (_analyze_data_source questions data_files data_url);
          try exact I; intros u; rewrite count_cons, count_nil; cbn; lia.
      + destruct (_analyze_data_source questions data_files data_url); try exact I.
        rewrite count_read_events_none by reflexivity. lia.
    - intros raw_data. apply extract_metadata_at_most.
      intros data source_type. now rewrite count_cons, count_nil.
    - intros code raw_data. apply execute_with_correction_corrections. }
  specialize (Hcalls w). specialize (Hcorr w).
  destruct (process_request E self questions data_files data_url w) as [[out w'] tr].
  unfold keeps, at_most in *. split; [| lia].
  fold retries corrections. lia.
Qed.

(** X20: what a request may fetch is fixed by its source type.  A request
    classified [url] or [url_in_text] calls the scraper at most once and
    never reads an uploaded file, even when files came with it; a request
    classified [file] never calls the scraper and reads at most the files it
    came with; a [text_only] request does neither.  Every request calls the
    inspector at most once. *)
Theorem process_request_connectors {W : Type} (E : Env W) (self : Orchestrator)
    (questions : string) (data_files : list file_info) (data_url : string) (w : W) :
  match process_request E self questions data_files data_url w with
  | (_, _, tr) =>
      (count is_inspect tr <= 1)%nat /\
      match _analyze_data_source questions data_files data_url with
      | SrcUrl | SrcUrlInText =>
          (count is_scrape tr <= 1)%nat /\ count is_read_data tr = 0%nat
      | SrcFile =>
          count is_scrape tr = 0%nat /\
          (count is_read_data tr <= List.length data_files)%nat
      | SrcTextOnly =>
          count is_scrape tr = 0%nat /\ count is_read_data tr = 0%nat
      end
  end.
Proof.
  set (t := _analyze_data_source questions data_files data_url).
  assert (Hstages : forall p n2 n3,
    (forall ev, is_engine_event ev || is_gateway_event ev = true -> p ev = false) ->
    (match t with
     | SrcUrl | SrcUrlInText => forall url, (count p [EvScrape url] <= n2)%nat
     | _ => True
     end) ->
    (match t with
     | SrcFile =>
         (count p (List.map (fun f => EvReadData (VStr (filename f))
                                                 (VBytes (content f))) data_files)
          <= n2)%nat
     | _ => True
     end) ->
    (forall data source_type, (count p [EvInspect data source_type] <= n3)%nat) ->
    spec (process_request E self questions data_files data_url)
         (keeps (at_most p (0 + n2 + n3 + 0 + 0)))).
  { intros p n2 n3 Hp Hscrape Hread Hinspect.
    destruct (gateway_stages_at_most E self p questions) as [Hplan Hcode].
    { intros ev Hev. apply Hp. rewrite Hev. apply orb_true_r. }
    apply process_request_at_most; try assumption.
    - intros url task_plan. now apply source_data_at_most.
    - intros raw_data. now apply extract_metadata_at_most.
    - intros code raw_data. now apply execution_stage_at_most. }
  pose proof (Hstages is_inspect 0%nat 1%nat) as Hinspect.
  pose proof (Hstages is_scrape
                (match t with SrcUrl | SrcUrlInText => 1 | _ => 0 end)%nat 0%nat)
    as Hscrape.
  pose proof (Hstages is_read_data
                (match t with SrcFile => List.length data_files | _ => 0 end)%nat 0%nat)
    as Hread.
  clear Hstages.
  specialize (Hinspect ltac:(now intros []) ltac:(destruct t; try exact I; intros; rewrite count_cons, count_nil; cbn; lia)
                ltac:(destruct t; try exact I;
                      rewrite count_read_events_none by reflexivity; lia)
                ltac:(intros; rewrite count_cons, count_nil; cbn; lia) w).
  specialize (Hscrape ltac:(now intros []) ltac:(destruct t; try exact I; intros; rewrite count_cons, count_nil; cbn; lia)
                ltac:(destruct t; try exact I;
                      rewrite count_read_events_none by reflexivity; lia)
                ltac:(intros; rewrite count_cons, count_nil; cbn; lia) w).
  specialize (Hread ltac:(now intros []) ltac:(destruct t; try exact I; intros; rewrite count_cons, count_nil; cbn; lia)
                ltac:(destruct t; try exact I; rewrite count_read_events_all; lia)
                ltac:(intros; rewrite count_cons, count_nil; cbn; lia) w).
  destruct (process_request E self questions data_files data_url w) as [[out w'] tr].
  unfold keeps, at_most in *.
  split; [lia |]. destruct t; lia.
Qed.

(** A request with a URL and an uploaded file: the file is not read. *)
Example process_request_url_beats_files :
  exists response w' tr,
    process_request scripted default_orchestrator "Summarise the page."
      [{| filename := "sales.csv"; content := [] |}] "http://a.io/report"
      {| model_replies := [inr "Fetch, then summarise."; inr "print(1)"];
         syntax_checks := []; runs := [] |} = (Ret response, w', tr) /\
    List.filter is_connector_event tr =
      [EvScrape (VStr "http://a.io/report");
       EvInspect (VDict [("success", VBool false); ("error", VStr "Invalid URL format");
                         ("url", VStr "http://a.io/report")]) (VStr "url")].
Proof. eexists _, _, _. split; [vm_compute; reflexivity | reflexivity]. Qed.

(** ** A request without a credential *)

(** X21: without a credential every request ends in the first stage, after
    the prompt file has been looked up and before anything is fetched, read,
    generated or run: the answer is the error envelope with "Gemini API key
    not configured" (or with the error of the prompt file, when that exists
    and cannot be read), and the trace holds the template lookup only. *)
Theorem no_credential_no_work {W : Type} (E : Env W) (self : Orchestrator)
    (questions : string) (data_files : list file_info) (data_url : string) (w : W) :
  truthy_opt (api_key (llm_handler self)) = false ->
  exists e w',
    process_request E self questions data_files data_url w =
      (Ret (EnvPipelineError "error" ("Processing failed: " +:+ str_exn e) []),
       w', [EvReadTemplate "1_task_breakdown"]) /\
    (e = ValueError "Gemini API key not configured" \/
     (read_template_file E "prompts/1_task_breakdown.txt" w = (inl e, w') /\
      forall message, e <> FileNotFoundError message)).
Proof.
  intros Hkey.
  assert (Hcall : forall template w1,
            bind (call_llm E (llm_handler self)
                    (safe_substitute E template [("questions", questions)]) None)
                 (fun response =>
                    match json_loads E response with
                    | Loaded task_plan => ret task_plan
                    | JSONDecodeError =>
                        ret (VDict [("plan", VStr response); ("steps", VList [])])
                    | LoadRaises e => raise e
                    end) w1 =
            (Raise (ValueError "Gemini API key not configured"), w1, [])).
  { intros template w1. apply run_bind_raise. unfold call_llm. now rewrite Hkey. }
  unfold process_request, pipeline, _get_task_breakdown.
  destruct (read_template_file E "prompts/1_task_breakdown.txt" w) as [[e|template] w1]
    eqn:Hread.
  - assert (Hcases : (exists message, e = FileNotFoundError message) \/
                     forall message, e <> FileNotFoundError message).
    { destruct e; try (right; intros m; discriminate). left. eauto. }
    destruct Hcases as [[message ->] | Hother].
    + exists (ValueError "Gemini API key not configured"), w1. split; [| now left].
      eapply run_try_raise.
      * apply run_bind_raise. eapply run_bind_ret.
        -- unfold _load_prompt_template, try_except, call.
           change ("prompts/" +:+ "1_task_breakdown" +:+ ".txt")
             with "prompts/1_task_breakdown.txt".
           rewrite Hread. reflexivity.
        -- apply Hcall.
        -- reflexivity.
      * reflexivity.
      * reflexivity.
    + exists e, w1. split; [| right; auto].
      eapply run_try_raise.
      * apply run_bind_raise, run_bind_raise.
        apply load_prompt_template_unreadable; [exact Hread | exact Hother].
      * reflexivity.
      * reflexivity.
  - exists (ValueError "Gemini API key not configured"), w1. split; [| now left].
    eapply run_try_raise.
    + apply run_bind_raise. eapply run_bind_ret.
      * unfold _load_prompt_template, try_except, call.
        change ("prompts/" +:+ "1_task_breakdown" +:+ ".txt")
          with "prompts/1_task_breakdown.txt".
        rewrite Hread. reflexivity.
      * apply Hcall.
      * reflexivity.
    + reflexivity.
    + reflexivity.
Qed.

Lemma no_credential_no_work_witness :
  exists e w',
    process_request scripted
      {| llm_handler := {| api_key := Some ""; max_retries := 3; retry_delay := 1 |};
         max_correction_attempts := 3 |}
      "Summarise http://a.io/report" [{| filename := "sales.csv"; content := [] |}] ""
      empty_script =
      (Ret (EnvPipelineError "error" ("Processing failed: " +:+ str_exn e) []),
       w', [EvReadTemplate "1_task_breakdown"]) /\
    (e = ValueError "Gemini API key not configured" \/
     (read_template_file scripted "prompts/1_task_breakdown.txt" empty_script =
        (inl e, w') /\
      forall message, e <> FileNotFoundError message)).
Proof.
  apply (no_credential_no_work scripted
           {| llm_handler := {| api_key := Some ""; max_retries := 3; retry_delay := 1 |};
              max_correction_attempts := 3 |}
           "Summarise http://a.io/report" [{| filename := "sales.csv"; content := [] |}]
           "" empty_script).
  reflexivity.
Defined.

(** ** The HTTP endpoint *)

Lemma process_request_returns {W : Type} (E : Env W) (self : Orchestrator)
    (questions : string) (data_files : list file_info) (data_url : string) (w : W) :
  exists result w' tr,
    process_request E self questions data_files data_url w = (Ret result, w', tr).
Proof.
  pose proof (halts_pipeline E self questions data_files data_url w) as Hhalts.
  unfold process_request, try_except.
  destruct (pipeline E self questions data_files data_url w) as [[[final|e|] w'] tr].
  - eauto.
  - eexists _, _, _. reflexivity.
  - now contradiction Hhalts.
Qed.



(** The envelope of that answer. *)
Example analyze_data_error_envelope :
  exists w' tr,
    analyze_data scripted missing_key_orchestrator (fun _ => inr "What is 2+2?")
      plain_request empty_script =
    (Ret {| body := JsonResult
                      (EnvPipelineError "error"
                         "Processing failed: Gemini API key not configured" []);
            status_code := 200 |}, w', tr).
Proof. eexists _, _. vm_compute. reflexivity. Qed.
(** With both fields present, the file under "questions" is the question
    and the file under "questions.txt" is handed over as data. *)
Example analyze_data_both_fields :
  collect_data_files
    [("questions.txt", {| storage_filename := "questions.txt"; stream := [] |});
     ("questions", {| storage_filename := "q.txt"; stream := [] |});
     ("data", {| storage_filename := ""; stream := [] |})]
    ["questions.txt"; "questions"; "data"] "questions" =
  [{| filename := "questions.txt"; content := [] |}].
Proof. reflexivity. Qed.

(** ** The data inspector *)

Lemma inspect_files_length (A : DataInspector.Analyses) (files metas : list value) :
  DataInspector.inspect_files A files = inr metas ->
  List.length metas = List.length files.
Proof.
  revert metas. induction files as [|f rest IH]; intros metas; cbn.
  - now intros [= <-].
  - unfold DataInspector.and_then at 1.
    destruct (DataInspector._inspect_single_file A f) as [e|m]; [discriminate |].
    unfold DataInspector.and_then at 1.
    destruct (DataInspector.inspect_files A rest) as [e|ms]; [discriminate |].
    intros [= <-]. cbn. now rewrite (IH ms eq_refl).
Qed.





(** ** The URL that reaches the scraper *)

Section Prefixes.
Context {W A B : Type}.

(** A run that starts with [m] starts with the trace of [m]. *)
Lemma run_bind_prefix (m : M W A) (k : A -> M W B) (w w1 : W) (a : A)
    (t1 t2 : list event) :
  m w = (Ret a, w1, t1) ->
  (exists out w' rest, k a w1 = (out, w', (t2 ++ rest)%list)) ->
  exists out w' rest, bind m k w = (out, w', (t1 ++ t2 ++ rest)%list).
Proof.
  intros Hm (out & w' & rest & Hk). unfold bind. rewrite Hm, Hk. eauto.
Qed.

Lemma run_try_prefix (m : M W A) (hd : exn -> M W A) (w : W) (t1 t2 : list event) :
  (exists out w' rest, m w = (out, w', (t1 ++ t2 ++ rest)%list)) ->
  exists out w' rest, try_except m hd w = (out, w', (t1 ++ t2 ++ rest)%list).
Proof.
  intros (out & w' & rest & Hm). unfold try_except. rewrite Hm.
  destruct out as [a|e|]; eauto.
  destruct (hd e w') as [[r w2] t3]. exists r, w2, (rest ++ t3)%list.
  now rewrite <- !app_assoc.
Qed.

End Prefixes.

(** X25: the URL of a request is handed to the scraper as it is.  For a
    request classified [url] it is [data_url], not stripped; for a request
    classified [url_in_text] it is the leftmost URL of the question, if
    there is one, else a [data_url] that is not empty.  As soon as the
    breakdown stage has returned, the next event of the request is the call
    of the scraper with that URL, whatever the plan says. *)
Theorem request_scrapes_given_url {W : Type} (E : Env W) (self : Orchestrator)
    (questions : string) (data_files : list file_info) (data_url : string)
    (task_plan : value) (w w1 : W) (t1 : list event) :
  let data_source_type := _analyze_data_source questions data_files data_url in
  let target :=
    match data_source_type with
    | SrcUrlInText =>
        if nonempty (_extract_url_from_text questions)
        then _extract_url_from_text questions else data_url
    | _ => data_url
    end in
  data_source_type = SrcUrl \/ data_source_type = SrcUrlInText ->
  nonempty target = true ->
  _get_task_breakdown E self questions w = (Ret task_plan, w1, t1) ->
  exists out w' rest,
    process_request E self questions data_files data_url w =
      (out, w', (t1 ++ [EvScrape (VStr target)] ++ rest)%list).
Proof.
  intros data_source_type target Htype Htarget Hplan.
  unfold process_request. apply run_try_prefix.
  unfold pipeline. fold data_source_type. fold target.
  eapply run_bind_prefix; [exact Hplan |].
  assert (Hsource :
    _source_data E data_source_type data_files target task_plan w1 =
      (Ret (fst (scrape_url E (VStr target) w1)),
       snd (scrape_url E (VStr target) w1), [EvScrape (VStr target)])).
  { destruct Htype as [-> | ->].
    - unfold _source_data.
      eapply run_bind_ret;
        [reflexivity | now apply web_scraper_accepts_url | reflexivity].
    - now apply source_data_with_url. }
  apply (run_bind_prefix _ _ _ _ _ _ [] Hsource).
  match goal with
  | |- exists out w' rest, ?m ?w0 = _ => destruct (m w0) as [[out w'] rest]
  end.
  exists out, w', rest. reflexivity.
Qed.

Lemma request_scrapes_given_url_witness :
  exists out w' rest,
    process_request scripted default_orchestrator "Summarise (http://a.io/x)." [] ""
      {| model_replies := [inr "Fetch, then summarise."; inr "print(1)"];
         syntax_checks := []; runs := [] |} =
      (out, w',
       ([EvReadTemplate "1_task_breakdown";
         EvModelCall None DEFAULT_TASK_BREAKDOWN
           (inr (text_reply "Fetch, then summarise."))] ++
        [EvScrape (VStr "http://a.io/x).")] ++ rest)%list).
Proof.
  apply (request_scrapes_given_url scripted default_orchestrator
           "Summarise (http://a.io/x)." [] ""
           (raw_text_plan "Fetch, then summarise.")
           {| model_replies := [inr "Fetch, then summarise."; inr "print(1)"];
              syntax_checks := []; runs := [] |}
           {| model_replies := [inr "print(1)"]; syntax_checks := []; runs := [] |}).
  - right. reflexivity.
  - reflexivity.
  - reflexivity.
Defined.

(** Closing punctuation after a URL is taken as part of it. *)
Example extract_url_takes_punctuation :
  _extract_url_from_text "Summarise (http://a.io/x)." = "http://a.io/x)." /\
  _extract_url_from_text "Compare http://a.io and https://b.io" = "http://a.io".
Proof. split; reflexivity. Qed.

(** ** Only checked code is run *)

Section CheckedRuns.
Context {W : Type} (E : Env W) (self : Orchestrator).

Lemma correct_code_runs_nothing (code message : string) (w : W) :
  count is_execute (snd (_correct_code E self code message w)) = 0%nat.
Proof.
  pose proof (correct_code_spec E self code message w) as H.
  destruct (_correct_code E self code message w) as [[out w'] tr].
  destruct H as [_ (tg & -> & Htg)]. cbn [snd].
  rewrite count_cons, (count_gateway _ tg) by (assumption || now intros []).
  reflexivity.
Qed.

Lemma on_exception_runs_nothing (a : Z) (code : string) (e : exn) (w : W) :
  count is_execute (snd (on_exception E self a code e w)) = 0%nat.
Proof.
  pose proof (on_exception_spec E self a code e w) as H.
  destruct (on_exception E self a code e w) as [[out w'] tr].
  now destruct H as (_ & H & _).
Qed.

End CheckedRuns.

(** Counts the executions of a trace made of explicit events and of traces
    known to hold none. *)
Ltac no_execution :=
  cbn [app snd] in *;
  repeat first [rewrite count_app | rewrite count_cons | rewrite count_nil];
  cbn [is_execute];
  repeat match goal with
         | H : count is_execute _ = 0%nat |- _ => rewrite H; clear H
         end;
  reflexivity.

(** X26: in a pass of the correction loop in which the code has been
    prepared and its syntax checked, the code is run only if the check
    found it valid: then the run is the next step, on the very text that was
    checked, and it is the only run of the pass; after a check that found
    the code invalid, the pass runs nothing. *)
Theorem checked_code_runs {W : Type} (E : Env W) (self : Orchestrator) (a : Z)
    (code code1 : string) (check : SyntaxCheck) (w w1 w2 : W) :
  prepare_code E code w = (inr code1, w1) ->
  validate_code_syntax E code1 w1 = (inr check, w2) ->
  exists out w' rest,
    correction_cycle E self a code w =
      (out, w', EvPrepare code :: EvValidate code1 :: rest) /\
    if valid check
    then exists rest', rest = EvExecute code1 :: rest' /\
                       count is_execute rest' = 0%nat
    else count is_execute rest = 0%nat.
Proof.
  intros Hprep Hvalid.
  pose proof (correct_code_runs_nothing E self) as Hcorr.
  pose proof (on_exception_runs_nothing E self) as Hexc.
  unfold correction_cycle, bind, catching, call, emit, ret.
  rewrite Hprep, Hvalid.
  destruct (valid check); cbn [negb].
  - destruct (execute_code E code1 w2) as [[e|result] w3].
    + specialize (Hexc a code1 e w3).
      destruct (on_exception E self a code1 e w3) as [[out w'] tr].
      eexists _, _, _. split; [reflexivity |]. eexists. split; [reflexivity |].
      no_execution.
    + destruct (success result).
      * eexists _, _, _. split; [reflexivity |]. eexists. split; [reflexivity |].
        no_execution.
      * destruct (error result) as [message|].
        -- destruct (a + 1 <? max_correction_attempts self).
           ++ specialize (Hcorr code1 message w3).
              destruct (_correct_code E self code1 message w3) as [[[c|e|] w4] t4].
              ** eexists _, _, _. split; [reflexivity |].
                 eexists. split; [reflexivity |]. no_execution.
              ** specialize (Hexc (a + 1) code1 e w4).
                 destruct (on_exception E self (a + 1) code1 e w4) as [[out w'] tr].
                 eexists _, _, _. split; [reflexivity |].
                 eexists. split; [reflexivity |]. no_execution.
              ** eexists _, _, _. split; [reflexivity |].
                 eexists. split; [reflexivity |]. no_execution.
           ++ eexists _, _, _. split; [reflexivity |].
              eexists. split; [reflexivity |]. no_execution.
        -- specialize (Hexc (a + 1) code1 (KeyError "error") w3).
           destruct (on_exception E self (a + 1) code1 (KeyError "error") w3)
             as [[out w'] tr].
           eexists _, _, _. split; [reflexivity |]. eexists. split; [reflexivity |].
           no_execution.
  - destruct (a + 1 <? max_correction_attempts self).
    + specialize (Hcorr code1
                    (default "Invalid Python code. Return only Python code."
                             (syntax_error check)) w2).
      destruct (_correct_code E self code1
                  (default "Invalid Python code. Return only Python code."
                           (syntax_error check)) w2) as [[[c|e|] w4] t4].
      * eexists _, _, _. split; [reflexivity |]. no_execution.
      * specialize (Hexc (a + 1) code1 e w4).
        destruct (on_exception E self (a + 1) code1 e w4) as [[out w'] tr].
        eexists _, _, _. split; [reflexivity |]. no_execution.
      * eexists _, _, _. split; [reflexivity |]. no_execution.
    + eexists _, _, _. split; [reflexivity |]. no_execution.
Qed.

Lemma checked_code_runs_witness :
  exists out w' rest,
    correction_cycle scripted default_orchestrator 0 "print(1"
      {| model_replies := [inr "print(1)"];
         syntax_checks := [inr {| valid := false;
                                  syntax_error := Some "'(' was never closed" |}];
         runs := [] |} =
      (out, w', EvPrepare "print(1" :: EvValidate "print(1" :: rest) /\
    if valid {| valid := false; syntax_error := Some "'(' was never closed" |}
    then exists rest', rest = EvExecute "print(1" :: rest' /\
                       count is_execute rest' = 0%nat
    else count is_execute rest = 0%nat.
Proof.
  apply (checked_code_runs scripted default_orchestrator 0 "print(1" "print(1"
           {| valid := false; syntax_error := Some "'(' was never closed" |}
           {| model_replies := [inr "print(1)"];
              syntax_checks := [inr {| valid := false;
                                       syntax_error := Some "'(' was never closed" |}];
              runs := [] |}
           {| model_replies := [inr "print(1)"];
              syntax_checks := [inr {| valid := false;
                                       syntax_error := Some "'(' was never closed" |}];
              runs := [] |}
           {| model_replies := [inr "print(1)"]; syntax_checks := []; runs := [] |});
    reflexivity.
Defined.
